(** * Verification of the tracs activity database layer

    A shallow embedding of [tracs/activity.py] (the [Activity] dataclass and
    its merge constructors) and of [tracs/db.py] (id allocation, insert /
    upsert, the finders, [save] over the layered file system and
    [restore_db]), followed by the properties established about them.

    Python objects are dynamically typed: a dataclass instance is modelled as
    a total map from its declared fields to Python values, generic attribute
    access ([getattr] / [setattr]) is map lookup and update, and [fields(self)]
    is the list of declared fields in declaration order.  Floats are IEEE 754
    binary64 numbers, with their rounding.  Where a method assigns to an
    object that its caller shares with the collection, the objects are
    modelled by a heap of references ([Shared]). *)

From stdpp Require Import base gmap sets list strings sorting.
From Stdlib Require Import ZArith QArith Lia Bool Ascii SpecFloat.
From Stdlib Require Import Structures.OrdersEx Sorting.Sorted.

Close Scope Q_scope.
Open Scope string_scope.
Open Scope list_scope.
Open Scope Z_scope.

(** ** Python values *)

(** The values an attribute of an [Activity] can hold.  [VInt] is a Python
    [int]; [VFloat] a Python [float], an IEEE 754 binary64 number (with its
    signed zeros, infinities and NaN); [VDateTime] and [VTime] are
    [datetime.datetime] and [datetime.time] objects, as seconds; [VObj] is a
    reference to any other object (an enum member, a [Resource], a
    [VirtualFields] instance, raw payload). *)
#[warnings="-register-all"] Inductive value : Type :=
  | VNone
  | VBool (b : bool)
  | VInt (z : Z)
  | VFloat (x : spec_float)
  | VStr (s : string)
  | VDateTime (t : Z)
  | VTime (t : Z)
  | VList (l : list value)
  | VDict (d : list (string * value))
  | VObj (ref : Z).

(** [bool(v)]: the truth value Python gives [v] in [if v] and [v or w]; a
    float is false when it is a zero of either sign. *)
Definition truthy (v : value) : bool :=
  match v with
  | VNone => false
  | VBool b => b
  | VInt z => negb (z =? 0)
  | VFloat x => match x with S754_zero _ => false | _ => true end
  | VStr s => negb (String.eqb s EmptyString)
  | VDateTime _ => true
  | VTime _ => true
  | VList l => match l with [] => false | _ :: _ => true end
  | VDict d => match d with [] => false | _ :: _ => true end
  | VObj _ => true
  end.

(** [v is not None] *)
Definition is_not_None (v : value) : bool :=
  match v with VNone => false | _ => true end.

(** The numbers that Python's comparisons order: the exact value of an
    [int] and of a finite [float], the two infinities, and NaN. *)
Inductive number : Type :=
  | Nan
  | NegInf
  | Finite (q : Q)
  | PosInf.

(** The exact value of the float with sign [s], mantissa [m] and exponent
    [e]. *)
Definition Q_of_finite (s : bool) (m : positive) (e : Z) : Q :=
  (inject_Z (cond_Zopp s (Zpos m)) * Qpower 2 e)%Q.

Definition number_of_float (x : spec_float) : number :=
  match x with
  | S754_zero _ => Finite 0
  | S754_infinity s => if s then NegInf else PosInf
  | S754_nan => Nan
  | S754_finite s m e => Finite (Q_of_finite s m e)
  end.

(** A [bool] is an [int]: [True] is 1 and [False] is 0. *)
Definition int_of (v : value) : option Z :=
  match v with
  | VInt z => Some z
  | VBool b => Some (if b then 1 else 0)
  | _ => None
  end.

Definition number_of (v : value) : option number :=
  match v with
  | VFloat x => Some (number_of_float x)
  | _ => (fun z => Finite (inject_Z z)) <$> int_of v
  end.

(** The exact number a finite numeric value denotes. *)
Definition num_of (v : value) : option Q :=
  match number_of v with
  | Some (Finite q) => Some q
  | _ => None
  end.

(** Exceptions raised by the modelled code. *)
Inductive exn : Set :=
  | IndexError | ValueError | KeyError | TypeError | RuntimeError
  | NameError | OverflowError | FileExistsError
  | ResourceNotFound | CreateFailed | SystemExit.

(** The outcome of a call: a returned value or a raised exception. *)
Inductive result (A : Type) : Type :=
  | Return (a : A)
  | Raise (e : exn).
Arguments Return {A} a.
Arguments Raise {A} e.

Definition bind {A B : Type} (r : result A) (k : A -> result B) : result B :=
  match r with
  | Return a => k a
  | Raise e => Raise e
  end.

(** Addition of two floats, rounded to the nearest binary64 number, ties to
    even. *)
Definition b64_add (x y : spec_float) : spec_float := SFadd 53 1024 x y.

(** The binary64 number nearest to the int [z] (an infinity when [z] is
    beyond the range of the finite floats). *)
Definition b64_of_Z (z : Z) : spec_float := binary_normalize 53 1024 z 0 false.

(** [float( z )]: [OverflowError] when [z] is too large. *)
Definition float_of_int (z : Z) : result spec_float :=
  match b64_of_Z z with
  | S754_infinity _ => Raise OverflowError
  | x => Return x
  end.

(** [a + b] where [a] is a number, as [sum] adds: [int + int] is an exact
    [int]; when one operand is a [float] the other is converted to [float]
    and the sum is rounded; an operand that is not a number raises
    [TypeError]. *)
Definition py_add (a b : value) : result value :=
  match a, b with
  | VFloat x, VFloat y => Return (VFloat (b64_add x y))
  | VFloat x, _ =>
      match int_of b with
      | Some z => bind (float_of_int z) (fun y => Return (VFloat (b64_add x y)))
      | None => Raise TypeError
      end
  | _, VFloat y =>
      match int_of a with
      | Some z => bind (float_of_int z) (fun x => Return (VFloat (b64_add x y)))
      | None => Raise TypeError
      end
  | _, _ =>
      match int_of a, int_of b with
      | Some x, Some y => Return (VInt (x + y))
      | _, _ => Raise TypeError
      end
  end.

(** [a < b] on numbers: false whenever one of them is NaN. *)
Definition number_lt (a b : number) : bool :=
  match a, b with
  | Nan, _ | _, Nan => false
  | Finite x, Finite y => match (x ?= y)%Q with Lt => true | _ => false end
  | NegInf, NegInf => false
  | NegInf, _ => true
  | _, NegInf => false
  | PosInf, _ => false
  | _, PosInf => true
  end.

(** [a < b]: Python compares [int] and [float] by exact value; a value that
    is not a number raises [TypeError]. *)
Definition py_lt (a b : value) : result bool :=
  match number_of a, number_of b with
  | Some x, Some y => Return (number_lt x y)
  | _, _ => Raise TypeError
  end.

(** [sum(l)]: starts from the [int] 0 and adds the items left to right (as
    CPython does up to version 3.11; later versions compensate the rounding
    errors of a sum of floats). *)
Fixpoint py_sum_from (acc : value) (l : list value) : result value :=
  match l with
  | [] => Return acc
  | x :: rest => bind (py_add acc x) (fun acc' => py_sum_from acc' rest)
  end.

Definition py_sum (l : list value) : result value := py_sum_from (VInt 0) l.

(** [max(l)] on a non-empty list: the running maximum is replaced by an item
    only when the item is strictly greater, so the first maximal item wins. *)
Fixpoint py_max_from (best : value) (l : list value) : result value :=
  match l with
  | [] => Return best
  | x :: rest =>
      bind (py_lt best x) (fun gt => py_max_from (if gt then x else best) rest)
  end.

(** [min(l)] on a non-empty list, symmetrically. *)
Fixpoint py_min_from (best : value) (l : list value) : result value :=
  match l with
  | [] => Return best
  | x :: rest =>
      bind (py_lt x best) (fun lt => py_min_from (if lt then x else best) rest)
  end.

(** [max(l) if l else None] and [min(l) if l else None]. *)
Definition max_or_None (l : list value) : result value :=
  match l with
  | [] => Return VNone
  | x :: rest => py_max_from x rest
  end.

Definition min_or_None (l : list value) : result value :=
  match l with
  | [] => Return VNone
  | x :: rest => py_min_from x rest
  end.

(** [s if (s := sum(l)) else None] *)
Definition sum_or_None (l : list value) : result value :=
  bind (py_sum l) (fun s => Return (if truthy s then s else VNone)).

(** ** The Activity dataclass *)

Inductive Field : Set :=
  | F_id | F_classifier | F_uid | F_uids | F_raw | F_raw_id | F_raw_name | F_raw_data
  | F_local_id | F_name | F_type | F_description | F_tags | F_equipment
  | F_location_country | F_location_state | F_location_city | F_location_place
  | F_location_latitude_start | F_location_longitude_start | F_location_latitude_end
  | F_location_longitude_end | F_route | F_time | F_time_end | F_localtime
  | F_localtime_end | F_timezone | F_duration | F_duration_moving | F_distance | F_ascent
  | F_descent | F_elevation_max | F_elevation_min | F_speed | F_speed_max | F_heartrate
  | F_heartrate_max | F_heartrate_min | F_calories | F_resources | F_parts | F___dirty__
  | F___metadata__ | F___parts__ | F___resources__ | F___parent_id__ | F___vf__.

Definition fields : list Field :=
  [F_id; F_classifier; F_uid; F_uids; F_raw; F_raw_id; F_raw_name; F_raw_data;
   F_local_id; F_name; F_type; F_description; F_tags; F_equipment; F_location_country;
   F_location_state; F_location_city; F_location_place; F_location_latitude_start;
   F_location_longitude_start; F_location_latitude_end; F_location_longitude_end;
   F_route; F_time; F_time_end; F_localtime; F_localtime_end; F_timezone; F_duration;
   F_duration_moving; F_distance; F_ascent; F_descent; F_elevation_max; F_elevation_min;
   F_speed; F_speed_max; F_heartrate; F_heartrate_max; F_heartrate_min; F_calories;
   F_resources; F_parts; F___dirty__; F___metadata__; F___parts__; F___resources__;
   F___parent_id__; F___vf__].

Definition field_name (f : Field) : string :=
  match f with
  | F_id => "id"
  | F_classifier => "classifier"
  | F_uid => "uid"
  | F_uids => "uids"
  | F_raw => "raw"
  | F_raw_id => "raw_id"
  | F_raw_name => "raw_name"
  | F_raw_data => "raw_data"
  | F_local_id => "local_id"
  | F_name => "name"
  | F_type => "type"
  | F_description => "description"
  | F_tags => "tags"
  | F_equipment => "equipment"
  | F_location_country => "location_country"
  | F_location_state => "location_state"
  | F_location_city => "location_city"
  | F_location_place => "location_place"
  | F_location_latitude_start => "location_latitude_start"
  | F_location_longitude_start => "location_longitude_start"
  | F_location_latitude_end => "location_latitude_end"
  | F_location_longitude_end => "location_longitude_end"
  | F_route => "route"
  | F_time => "time"
  | F_time_end => "time_end"
  | F_localtime => "localtime"
  | F_localtime_end => "localtime_end"
  | F_timezone => "timezone"
  | F_duration => "duration"
  | F_duration_moving => "duration_moving"
  | F_distance => "distance"
  | F_ascent => "ascent"
  | F_descent => "descent"
  | F_elevation_max => "elevation_max"
  | F_elevation_min => "elevation_min"
  | F_speed => "speed"
  | F_speed_max => "speed_max"
  | F_heartrate => "heartrate"
  | F_heartrate_max => "heartrate_max"
  | F_heartrate_min => "heartrate_min"
  | F_calories => "calories"
  | F_resources => "resources"
  | F_parts => "parts"
  | F___dirty__ => "__dirty__"
  | F___metadata__ => "__metadata__"
  | F___parts__ => "__parts__"
  | F___resources__ => "__resources__"
  | F___parent_id__ => "__parent_id__"
  | F___vf__ => "__vf__"
  end.

#[global] Instance Field_eq_dec : EqDecision Field.
Proof. solve_decision. Defined.

(** An instance: every declared field holds a value. *)
Definition Activity : Type := Field -> value.

Definition getattr (o : Activity) (f : Field) : value := o f.

Definition setattr (o : Activity) (f : Field) (v : value) : Activity :=
  fun g => if decide (g = f) then v else o g.

(** [f.metadata]: no field of [Activity] is declared with metadata. *)
Definition metadata (f : Field) : list (string * value) := [].

(** [d.get(k, default)] *)
Fixpoint dict_get (d : list (string * value)) (k : string) (default : value) : value :=
  match d with
  | [] => default
  | (k', v) :: rest => if String.eqb k' k then v else dict_get rest k default
  end.

(** The strings held by a [List[str]] attribute such as [uids]. *)
Definition strs_of (v : value) : list string :=
  match v with
  | VList l => omap (fun x => match x with VStr s => Some s | _ => None end) l
  | _ => []
  end.

Definition uids (a : Activity) : list string := strs_of (getattr a F_uids).

(** Python's order on [str] (lexicographic by code point) and [sorted]. *)
Definition str_ltb (a b : string) : bool :=
  match String_as_OT.compare a b with Lt => true | _ => false end.

(** [sorted( l, key=key )]: a stable insertion sort. *)
Fixpoint insert_sorted {A : Type} (key : A -> string) (x : A) (l : list A) : list A :=
  match l with
  | [] => [x]
  | y :: l' => if str_ltb (key y) (key x) then y :: insert_sorted key x l' else x :: l
  end.

Definition sorted_by {A : Type} (key : A -> string) (l : list A) : list A :=
  foldr (insert_sorted key) [] l.

Definition sorted (l : list string) : list string := sorted_by (fun s => s) l.

(** Truth value of an optional list argument ([None] and [[]] are false). *)
Definition nonempty {A : Type} (l : option (list A)) : bool :=
  match l with
  | Some (_ :: _) => true
  | _ => false
  end.

(** [PROTECTED]: activity.py reads this global name in [__init_from_others__]
    and in [init_from], and neither defines nor imports it, so evaluating
    it raises [NameError]. *)
Definition PROTECTED : result string := Raise NameError.

(** [f.metadata.get( PROTECTED, False )] *)
Definition protected (f : Field) : result bool :=
  bind PROTECTED (fun key => Return (truthy (dict_get (metadata f) key (VBool false)))).

(** The total seconds of a duration; [None] counts for nothing. *)
Definition seconds_of (v : value) : result Z :=
  match v with
  | VNone => Return 0
  | VTime t => Return t
  | _ => Raise TypeError
  end.

Fixpoint total_seconds (l : list value) : result Z :=
  match l with
  | [] => Return 0
  | v :: rest =>
      bind (seconds_of v) (fun s => bind (total_seconds rest) (fun t => Return (s + t)))
  end.

(** Modelled from the spec: [utils.sum_times], which activity.py imports
    from a module that is not among the sources: the sum of a list of
    [time]-typed durations, computed by summing their total seconds. *)
Definition sum_times (l : list value) : result value :=
  bind (total_seconds l) (fun t => Return (VTime t)).

Section ActivityClass.

(** [tzlocal.get_localzone_name()]: the name of the time zone of the
    machine. *)
Variable get_localzone_name : string.

(** The instance the generated [__init__] builds when no argument is given:
    each field at its declared default. *)
Definition Activity_defaults : Activity := fun f =>
  match f with
  | F_id => VInt 0
  | F_uids | F_tags | F_equipment | F_resources | F_parts
  | F___parts__ | F___resources__ => VList []
  | F_timezone => VStr get_localzone_name
  | F___dirty__ => VBool false
  | F___metadata__ => VDict []
  | F___parent_id__ => VInt 0
  | F___vf__ => VObj 0
  | _ => VNone
  end.

(** The inner loop of [__init_from_others__] for one field [f]:
    [for o in others: if value := getattr( o, f.name ): ...]. *)
Fixpoint others_loop (f : Field) (force : bool) (self : Activity)
    (others : list Activity) : result Activity :=
  match others with
  | [] => Return self
  | o :: rest =>
      let value := getattr o f in
      if truthy value then
        bind (protected f) (fun p =>
          let self' := if negb p || force then setattr self f value else self in
          if negb force then Return self' else others_loop f force self' rest)
      else others_loop f force self rest
  end.

(** [for f in fields( self ): ...] *)
Definition __init_from_others__ (self : Activity) (others : list Activity)
    (force : bool) : result Activity :=
  fold_left (fun r f => bind r (fun self => others_loop f force self others))
            fields (Return self).

(** [[o.f for o in other_parts if o.f]] and
    [[o.f for o in other_parts if o.f is not None]]. *)
Definition truthy_values (f : Field) (l : list Activity) : list value :=
  filter (fun v => truthy v = true) (map (fun o => getattr o f) l).

Definition present_values (f : Field) (l : list Activity) : list value :=
  filter (fun v => is_not_None v = true) (map (fun o => getattr o f) l).

(** [other_parts[0]] and [other_parts[-1]] raise [IndexError] on an empty
    list; the sums and the comparisons raise [TypeError] on non-numbers, and
    a sum [OverflowError] when it converts too large an [int] to [float]. *)
Definition __init_from_parts__ (self : Activity) (other_parts : list Activity)
    (force : bool) : result Activity :=
  match head other_parts, last other_parts with
  | Some first_part, Some last_part =>
      let self := setattr self F_time (getattr first_part F_time) in
      let self := setattr self F_localtime (getattr first_part F_localtime) in
      let self := setattr self F_time_end (getattr last_part F_time_end) in
      let self := setattr self F_localtime_end (getattr last_part F_localtime_end) in
      let self := setattr self F_timezone (getattr first_part F_timezone) in
      bind (sum_times (map (fun o => getattr o F_duration) other_parts)) (fun v =>
      let self := setattr self F_duration v in
      bind (sum_times (map (fun o => getattr o F_duration_moving) other_parts)) (fun v =>
      let self := setattr self F_duration_moving v in
      bind (sum_or_None (truthy_values F_distance other_parts)) (fun v =>
      let self := setattr self F_distance v in
      bind (sum_or_None (truthy_values F_ascent other_parts)) (fun v =>
      let self := setattr self F_ascent v in
      bind (sum_or_None (truthy_values F_descent other_parts)) (fun v =>
      let self := setattr self F_descent v in
      bind (max_or_None (present_values F_elevation_max other_parts)) (fun v =>
      let self := setattr self F_elevation_max v in
      bind (min_or_None (present_values F_elevation_min other_parts)) (fun v =>
      let self := setattr self F_elevation_min v in
      bind (max_or_None (present_values F_speed_max other_parts)) (fun v =>
      let self := setattr self F_speed_max v in
      bind (max_or_None (present_values F_heartrate_max other_parts)) (fun v =>
      let self := setattr self F_heartrate_max v in
      bind (min_or_None (present_values F_heartrate_min other_parts)) (fun v =>
      let self := setattr self F_heartrate_min v in
      bind (sum_or_None (truthy_values F_calories other_parts)) (fun v =>
      Return (setattr self F_calories v))))))))))))
  | _, _ => Raise IndexError
  end.

(** [__raw_init__] does nothing in the base class. *)
Definition __raw_init__ (self : Activity) (raw : value) : Activity := self.

Definition __post_init__ (self : Activity) (others other_parts : option (list Activity))
    (force : bool) : result Activity :=
  if truthy (getattr self F_raw) then Return (__raw_init__ self (getattr self F_raw))
  else if nonempty others then
    __init_from_others__ self (default [] others) force
  else if nonempty other_parts then
    __init_from_parts__ self (default [] other_parts) force
  else Return self.

(** [Activity( **kwargs, others=..., other_parts=..., force=... )]: the
    generated [__init__] stores the keyword arguments over the defaults and
    calls [__post_init__]. *)
Definition new_Activity (kwargs : list (Field * value))
    (others other_parts : option (list Activity)) (force : bool) : result Activity :=
  __post_init__
    (fold_left (fun self kv => setattr self (fst kv) (snd kv)) kwargs Activity_defaults)
    others other_parts force.

End ActivityClass.
(** ** Activity.union *)

(** *** The order of uids *)

(** The part of [s] before the first occurrence of [c], and the part after
    it when [c] occurs. *)
Fixpoint split_at (c : ascii) (s : string) : string * option string :=
  match s with
  | EmptyString => (EmptyString, None)
  | String x rest =>
      if Ascii.eqb x c then (EmptyString, Some rest)
      else (String x (fst (split_at c rest)), snd (split_at c rest))
  end.

Definition digit_of (c : ascii) : option N :=
  let n := N_of_ascii c in
  if ((48 <=? n) && (n <=? 57))%N then Some (n - 48)%N else None.

(** The number that a non-empty string of decimal digits denotes. *)
Fixpoint digits_value (acc : N) (s : string) : option N :=
  match s with
  | EmptyString => Some acc
  | String x rest =>
      match digit_of x with
      | Some d => digits_value (10 * acc + d)%N rest
      | None => None
      end
  end.

Definition decimal (s : string) : option N :=
  match s with
  | EmptyString => None
  | _ => digits_value 0%N s
  end.

(** Modelled from the spec: a uid has the form [classifier:local_id[?suffix]]
    (as in [polar:1234]); the classes that parse it are not among the
    sources.  The classifier is what precedes the first colon (the whole
    uid when there is none), the local id the number between the colon and
    the suffix. *)
Definition classifier_of (uid : string) : string := fst (split_at ":" uid).

Definition local_id_of (uid : string) : option N :=
  match snd (split_at ":" uid) with
  | Some rest => decimal (fst (split_at "?" rest))
  | None => None
  end.

(** The order of local ids; a uid without a numeric local id comes before
    those of its classifier that have one. *)
Definition local_id_ltb (a b : option N) : bool :=
  match a, b with
  | None, Some _ => true
  | Some x, Some y => (x <? y)%N
  | _, None => false
  end.

(** Modelled from the spec: uids are sorted by classifier, then by local
    id. *)
Definition uid_ltb (u v : string) : bool :=
  str_ltb (classifier_of u) (classifier_of v)
  || (negb (str_ltb (classifier_of v) (classifier_of u))
      && local_id_ltb (local_id_of u) (local_id_of v)).

(** A stable insertion sort by a strict order given as a boolean test. *)
Fixpoint insert_by {A : Type} (ltb : A -> A -> bool) (x : A) (l : list A) : list A :=
  match l with
  | [] => [x]
  | y :: l' => if ltb y x then y :: insert_by ltb x l' else x :: l
  end.

Definition sorted_uids (l : list string) : list string := foldr (insert_by uid_ltb) [] l.

(** *** The merge *)

(** The first and the last value of a list that is not [None] ([None] when
    there is none). *)
Definition first_non_null (vs : list value) : value :=
  default VNone (head (filter (fun v => is_not_None v = true) vs)).

Definition last_non_null (vs : list value) : value :=
  default VNone (last (filter (fun v => is_not_None v = true) vs)).

(** Modelled from the spec: the record built by [Activity.union( others, force )],
    a method that [upsert_activity] and [test_union] call and that activity.py
    does not define.  Every field except the protected [id] takes the first
    non-null value across [[self, *others]] (the last one when [force] is
    set, and then [id] as well); [uids] is the union of all uids,
    deduplicated and sorted as uids are. *)
Definition merged (self : Activity) (others : list Activity) (force : bool) : Activity :=
  fun f =>
    let candidates := map (fun o => getattr o f) (self :: others) in
    match f with
    | F_uids =>
        VList (map VStr (sorted_uids (remove_dups (concat (map uids (self :: others))))))
    | F_id => if force then last_non_null candidates else getattr self F_id
    | _ => if force then last_non_null candidates else first_non_null candidates
    end.

(** Modelled from the spec: [self.union( others, force, copy )] gives the
    returned record and the state of [self] after the call: with [copy=True]
    [self] is left as it was, with [copy=False] it is the returned record. *)
Definition union (self : Activity) (others : list Activity) (force copy : bool)
    : Activity * Activity :=
  let r := merged self others force in
  (r, if copy then self else r).

(** ** Resources, collections and the layered file system *)

(** Modelled from the spec: the [Resource] dataclass of tracs/resources.py,
    with the attributes the data model lists. *)
Module Resource.
Record t : Type := mk {
  id : Z;
  uid : string;
  path : string;
  type : string;
  content : string;
  status : Z
}.
Definition set_id (r : t) (n : Z) : t :=
  {| id := n; uid := uid r; path := path r; type := type r;
     content := content r; status := status r |}.
End Resource.

(** Modelled from the spec: the id-keyed collections [Activities] and
    [Resources]: a mapping from integer id to record that is also iterable,
    as a Python [dict] in insertion order. *)
Abbreviation store A := (list (Z * A)).

Definition store_keys {A : Type} (d : store A) : list Z := map fst d.

Definition store_values {A : Type} (d : store A) : list A := map snd d.

(** [d[k] = v]: replaces the value of an existing key in place, appends a
    new key. *)
Fixpoint store_set {A : Type} (d : store A) (k : Z) (v : A) : store A :=
  match d with
  | [] => [(k, v)]
  | (k', v') :: rest =>
      if decide (k' = k) then (k, v) :: rest else (k', v') :: store_set rest k v
  end.

(** A file of a [fs] file system: modification time and text. *)
Record File : Type := mkFile { modified : Z; text : string }.

(** A file system ([OSFS] or [MemoryFS]) restricted to its root directory,
    and a [MultiFS] as the file systems added to it by name. *)
Abbreviation FS := (gmap string File).

Abbreviation MultiFS := (gmap string (gmap string File)).

Definition ACTIVITIES_NAME : string := "activities.json".
Definition INDEX_NAME : string := "index.json".
Definition METADATA_NAME : string := "metadata.json".
Definition RESOURCES_NAME : string := "resources.json".
Definition SCHEMA_NAME : string := "schema.json".

Definition dquote : string := String (Ascii.ascii_of_nat 34) EmptyString.

Definition DB_FILES : list (string * string) :=
  [ (ACTIVITIES_NAME, "{}");
    (INDEX_NAME, "{}");
    (METADATA_NAME, "{}");
    (RESOURCES_NAME, "{}");
    (SCHEMA_NAME, ("{" ++ dquote ++ "version" ++ dquote ++ ": 12}")%string) ].

Definition UNDERLAY : string := "underlay".
Definition OVERLAY : string := "overlay".

Record ActivityDb : Type := mkActivityDb {
  _db_path : option string;
  _read_only : bool;
  dbfs : MultiFS;
  _activities : store Activity;
  _resources : store Resource.t
}.

Definition set_dbfs (self : ActivityDb) (m : MultiFS) : ActivityDb :=
  {| _db_path := _db_path self; _read_only := _read_only self; dbfs := m;
     _activities := _activities self; _resources := _resources self |}.

Definition set_activities (self : ActivityDb) (d : store Activity) : ActivityDb :=
  {| _db_path := _db_path self; _read_only := _read_only self; dbfs := dbfs self;
     _activities := d; _resources := _resources self |}.

Definition set_resources (self : ActivityDb) (d : store Resource.t) : ActivityDb :=
  {| _db_path := _db_path self; _read_only := _read_only self; dbfs := dbfs self;
     _activities := _activities self; _resources := d |}.

(** [dbfs.get_fs( name )]; [None] stands for the [KeyError] that it raises
    for a name under which no file system was added. *)
Definition underlay_fs (self : ActivityDb) : option FS := dbfs self !! UNDERLAY.

Definition overlay_fs (self : ActivityDb) : option FS := dbfs self !! OVERLAY.

(** [self.activities] and [self.resources] as iterated by the finders. *)
Definition activities (self : ActivityDb) : list Activity := store_values (_activities self).

Definition resources (self : ActivityDb) : list Resource.t := store_values (_resources self).

(** *** The file system layer *)

(** [fs.writetext( path, content )] at time [now]. *)
Definition writetext (now : Z) (fs : FS) (path content : string) : FS :=
  <[path := mkFile now content]> fs.

(** [copy_file( src, path, dst, path, preserve_time=True )] *)
Definition copy_file (src_fs : FS) (path : string) (dst_fs : FS) : result FS :=
  match src_fs !! path with
  | Some f => Return (<[path := f]> dst_fs)
  | None => Raise ResourceNotFound
  end.

(** The test of [copy_file_if( ..., 'newer' )]: copy when the source was
    modified after the destination, or when either file is missing. *)
Definition copy_is_necessary (src_fs : FS) (path : string) (dst_fs : FS) : bool :=
  match src_fs !! path, dst_fs !! path with
  | Some s, Some d => modified d <? modified s
  | _, _ => true
  end.

(** [copy_file_if( src, path, dst, path, 'newer' )] at time [now]; the copy
    does not preserve the modification time. *)
Definition copy_file_if_newer (now : Z) (src_fs : FS) (path : string) (dst_fs : FS)
    : result FS :=
  if copy_is_necessary src_fs path dst_fs then
    match src_fs !! path with
    | Some f => Return (<[path := mkFile now (text f)]> dst_fs)
    | None => Raise ResourceNotFound
    end
  else Return dst_fs.

(** [_init_inmemory_filesystem]: both layers in memory; the default files
    are written to the underlay only. *)
Definition _init_inmemory_filesystem (now : Z) : MultiFS :=
  let underlay := fold_left (fun fs kv => writetext now fs (fst kv) (snd kv)) DB_FILES ∅ in
  <[OVERLAY := ∅]> (<[UNDERLAY := underlay]> ∅).

(** What is at the path [_db_path] when the db is opened: nothing, a
    regular file, or a directory, given by the regular files it holds
    (entries of other kinds are not represented). *)
Inductive path_entry : Type :=
  | NoEntry
  | RegularFile
  | Directory (content : FS).

(** [self._db_path.mkdir( parents=True, exist_ok=True )]: the directory
    afterwards; a path that exists and is not a directory raises
    [FileExistsError]. *)
Definition mkdir (p : path_entry) : result FS :=
  match p with
  | NoEntry => Return ∅
  | Directory content => Return content
  | RegularFile => Raise FileExistsError
  end.

(** [OSFS( root_path )]: [CreateFailed] unless the path is a directory. *)
Definition OSFS (p : path_entry) : result FS :=
  match p with
  | Directory content => Return content
  | _ => Raise CreateFailed
  end.

(** [_init_filesystem]: the underlay is the directory at the path; missing
    files are written, then all five are copied to the overlay. *)
Definition _init_filesystem (now : Z) (p : path_entry) : result MultiFS :=
  bind (mkdir p) (fun disk =>
  let underlay :=
    fold_left (fun fs kv => match fs !! fst kv with
                            | Some _ => fs
                            | None => writetext now fs (fst kv) (snd kv)
                            end) DB_FILES disk in
  bind (fold_left (fun r kv => bind r (copy_file underlay (fst kv))) DB_FILES (Return ∅))
       (fun overlay => Return (<[OVERLAY := overlay]> (<[UNDERLAY := underlay]> ∅)))).

(** [_init_readonly_filesystem]: exits when the path does not exist; the
    underlay is an in-memory copy of the five files on disk. *)
Definition _init_readonly_filesystem (p : path_entry) : result MultiFS :=
  match p with
  | NoEntry => Raise SystemExit
  | _ =>
      bind (OSFS p) (fun osfs =>
      bind (fold_left (fun r kv => bind r (copy_file osfs (fst kv))) DB_FILES (Return ∅))
           (fun underlay => Return (<[OVERLAY := ∅]> (<[UNDERLAY := underlay]> ∅))))
  end.

(** [_init_db_filesystem]; [p] is what is at [_db_path]. *)
Definition _init_db_filesystem (now : Z) (db_path : option string) (read_only : bool)
    (p : path_entry) : result MultiFS :=
  match db_path with
  | Some _ =>
      if read_only then _init_readonly_filesystem p
      else _init_filesystem now p
  | None => Return (_init_inmemory_filesystem now)
  end.

(** The loop of [save]: an exception leaves the files copied so far. *)
Fixpoint save_files (now : Z) (overlay : FS) (files : list string) (underlay : FS)
    : FS * option exn :=
  match files with
  | [] => (underlay, None)
  | f :: rest =>
      match copy_file_if_newer now overlay f underlay with
      | Return underlay' => save_files now overlay rest underlay'
      | Raise e => (underlay, Some e)
      end
  end.

(** [save] at time [now]: the db afterwards and the exception raised, if
    any.  [self.underlay_fs] is [self.dbfs.get_fs( UNDERLAY )], which raises
    [KeyError] for a file system that was never added and does not return
    [None]: the second test of the guard is never true. *)
Definition save (now : Z) (self : ActivityDb) : ActivityDb * option exn :=
  if _read_only self then (self, None)
  else
    match underlay_fs self with
    | None => (self, Some KeyError)
    | Some underlay =>
        match overlay_fs self with
        | Some overlay =>
            let '(underlay', e) := save_files now overlay (map fst DB_FILES) underlay in
            (set_dbfs self (<[UNDERLAY := underlay']> (dbfs self)), e)
        | None => (self, Some KeyError)
        end
    end.

(** [close] only saves. *)
Definition close (now : Z) (self : ActivityDb) : ActivityDb * option exn := save now self.

Section Commit.

(** Modelled from the spec: [fsio.write_activities] and [write_resources]
    serialize a collection to its file of the given file system; the
    serializers themselves are left open. *)
Variable dumps_activities : store Activity -> string.
Variable dumps_resources : store Resource.t -> string.

Definition write_activities (now : Z) (d : store Activity) (fs : FS) : FS :=
  writetext now fs ACTIVITIES_NAME (dumps_activities d).

Definition write_resources (now : Z) (d : store Resource.t) (fs : FS) : FS :=
  writetext now fs RESOURCES_NAME (dumps_resources d).

Definition commit (now : Z) (self : ActivityDb) (do_commit : bool) : ActivityDb :=
  if do_commit then
    match overlay_fs self with
    | Some overlay =>
        let overlay := write_resources now (_resources self) overlay in
        let overlay := write_activities now (_activities self) overlay in
        set_dbfs self (<[OVERLAY := overlay]> (dbfs self))
    | None => self
    end
  else self.

End Commit.

(** *** Id allocation, insert and upsert *)

(** [max( l )] of a non-empty list of ints. *)
Definition max_key (k : Z) (ks : list Z) : Z := foldr Z.max k ks.

Section DbOperations.

(** [set.pop()]: removes and returns an arbitrary element of a set; the
    choice is left to the interpreter.  [None] stands for the [KeyError]
    raised on an empty set. *)
Variable pop : gset Z -> option Z.

(** [key_range = range( 1, max( d.keys() ) + 2 ) if d.keys() else [1]] *)
Definition key_range {A : Type} (d : store A) : list Z :=
  match store_keys d with
  | [] => [1]
  | k :: ks => seqZ 1 (max_key k ks + 1)
  end.

(** [set( key_range ).difference( set( d.keys() ) ).pop()] *)
Definition _next_id {A : Type} (d : store A) : result Z :=
  match pop (list_to_set (key_range d) ∖ list_to_set (store_keys d)) with
  | Some n => Return n
  | None => Raise KeyError
  end.

(** [insert_activity( activity )] for an activity that the collection does
    not hold yet, whose state the record stored is: the db afterwards and
    the value returned.  (The method assigns the id to the caller's object;
    [Shared.insert_activity] below models the objects and covers the call
    with an object that is stored already.) *)
Definition insert_activity (self : ActivityDb) (activity : Activity)
    : result (ActivityDb * value) :=
  bind (_next_id (_activities self)) (fun n =>
    let activity := setattr activity F_id (VInt n) in
    Return (set_activities self (store_set (_activities self) n activity),
            getattr activity F_id)).

(** [any( uid in a.uids for uid in uids )] *)
Definition shares_uid (l : list string) (a : Activity) : bool :=
  existsb (fun uid => bool_decide (uid ∈ uids a)) l.

(** [next( (a for a in self.activities if ...), None )], with the position of
    the activity found in the collection. *)
Definition get_activity_by_uids (self : ActivityDb) (l : list string)
    : option (nat * (Z * Activity)) :=
  list_find (fun kv => shares_uid l (snd kv) = true) (_activities self).

(** The matching branch mutates the stored record in place; the other
    branch has no [return] and so yields [None]. *)
Definition upsert_activity (self : ActivityDb) (activity : Activity)
    : result (ActivityDb * value) :=
  match get_activity_by_uids self (uids activity) with
  | Some (i, (k, existing)) =>
      let existing := snd (union existing [activity] false false) in
      Return (set_activities self (<[i := (k, existing)]> (_activities self)),
              getattr existing F_id)
  | None =>
      bind (insert_activity self activity) (fun r => Return (fst r, VNone))
  end.

(** [insert_resource( resource )], for a resource that the collection does
    not hold yet, as [insert_activity] above. *)
Definition insert_resource (self : ActivityDb) (resource : Resource.t)
    : result (ActivityDb * Z) :=
  bind (_next_id (_resources self)) (fun n =>
    let resource := Resource.set_id resource n in
    Return (set_resources self (store_set (_resources self) n resource),
            Resource.id resource)).

(** [next( (r for r in self.resources if r.uid == uid and r.path == path), None )] *)
Definition get_resource_by_uid_path (self : ActivityDb) (uid path : string)
    : option Resource.t :=
  snd <$> list_find (fun r => Resource.uid r = uid ∧ Resource.path r = path)
                    (resources self).

Definition upsert_resource (self : ActivityDb) (resource : Resource.t)
    : result (ActivityDb * Z) :=
  match get_resource_by_uid_path self (Resource.uid resource) (Resource.path resource) with
  | Some existing =>
      Return (set_resources self
                (store_set (_resources self) (Resource.id existing) resource),
              Resource.id existing)
  | None => insert_resource self resource
  end.

End DbOperations.

(** *** Finders *)

(** [any( uid.startswith( classifier ) for uid in a.uids )] *)
Definition has_classifier (classifier : string) (a : Activity) : bool :=
  existsb (fun uid => String.prefix classifier uid) (uids a).

Definition find_by_classifier (self : ActivityDb) (classifier : string) : list Activity :=
  filter (fun a => has_classifier classifier a = true) (activities self).

(** [min( l, key=key )] and [max( l, key=key )]: [ValueError] on an empty
    sequence, otherwise the first item with the least (greatest) key. *)
Fixpoint min_from {A : Type} (key : A -> value) (best : A) (l : list A) : result A :=
  match l with
  | [] => Return best
  | x :: rest =>
      bind (py_lt (key x) (key best)) (fun lt => min_from key (if lt then x else best) rest)
  end.

Fixpoint max_from {A : Type} (key : A -> value) (best : A) (l : list A) : result A :=
  match l with
  | [] => Return best
  | x :: rest =>
      bind (py_lt (key best) (key x)) (fun gt => max_from key (if gt then x else best) rest)
  end.

Definition py_min_by {A : Type} (key : A -> value) (l : list A) : result A :=
  match l with
  | [] => Raise ValueError
  | x :: rest => min_from key x rest
  end.

Definition py_max_by {A : Type} (key : A -> value) (l : list A) : result A :=
  match l with
  | [] => Raise ValueError
  | x :: rest => max_from key x rest
  end.

Section FindFirstLast.

(** The attribute [a.starttime] read by the key function; the dataclass of
    activity.py does not declare it. *)
Variable starttime : Activity -> value.

(** [classifier] is [None] or a string; the empty string is false as well. *)
Definition candidates (self : ActivityDb) (classifier : option string) : list Activity :=
  match classifier with
  | Some c => if negb (String.eqb c EmptyString) then find_by_classifier self c
              else activities self
  | None => activities self
  end.

Definition find_first (self : ActivityDb) (classifier : option string) : result Activity :=
  py_min_by starttime (candidates self classifier).

Definition find_last (self : ActivityDb) (classifier : option string) : result Activity :=
  py_max_by starttime (candidates self classifier).

End FindFirstLast.

(** *** Restore *)

(** The application context as db.py uses it: the directory at [ctx.db_path],
    the entries of the directory [ctx.backup_path] (name and content, in
    listing order), the [force] flag and the lines printed to [ctx.console];
    the records of the module logger are kept next to them. *)
Record ApplicationContext : Type := mkContext {
  db_path : FS;
  backup_path : list (string * FS);
  force : bool;
  console : list string;
  log : list string
}.

Definition is_digit (c : ascii) : bool :=
  let n := Z.of_nat (nat_of_ascii c) in (48 <=? n) && (n <=? 57).

(** Does [s] start with a digit: the pattern [[0-9]*]. *)
Definition glob_digit_any (s : string) : bool :=
  match s with
  | String c _ => is_digit c
  | EmptyString => false
  end.

(** Does [s] contain an underscore followed by a digit: the pattern
    [*_[0-9]*]. *)
Fixpoint glob_any_underscore_digit_any (s : string) : bool :=
  match s with
  | EmptyString => false
  | String c rest =>
      (Ascii.eqb c "_" && glob_digit_any rest) || glob_any_underscore_digit_any rest
  end.

(** Does the name match the pattern of [glob( '[0-9]*_[0-9]*' )]. *)
Definition glob_match (name : string) : bool :=
  match name with
  | String c rest => is_digit c && glob_any_underscore_digit_any rest
  | EmptyString => false
  end.

(** [l[-1]] *)
Definition index_last {A : Type} (l : list A) : result A :=
  match last l with
  | Some x => Return x
  | None => Raise IndexError
  end.

(** [copytree( source, target, ignore=..., dirs_exist_ok=True )]: every entry
    that is not one of the db files is ignored; the db files of [source]
    replace those of [target], with their modification times. *)
Definition copytree (source target : FS) : FS :=
  fold_left (fun t kv => match source !! fst kv with
                         | Some f => <[fst kv := f]> t
                         | None => t
                         end) DB_FILES target.

Section Restore.

(** [click.confirm( text )]: the answer of the user. *)
Variable confirm : string -> bool.

(** The body of the [try] statement. *)
Definition restore_db_try (ctx : ApplicationContext) : result ApplicationContext :=
  bind (index_last (sorted_by fst (filter (fun p => glob_match (fst p) = true)
                                          (backup_path ctx))))
    (fun source =>
       if force ctx
          || confirm ("Restore database from " ++ fst source
                      ++ "? The current state will be overwritten.")%string
       then Return {| db_path := copytree (snd source) (db_path ctx);
                      backup_path := backup_path ctx;
                      force := force ctx;
                      console := console ctx;
                      log := log ctx ++ [("database restored from " ++ fst source)%string] |}
       else Return ctx).

(** [try: ... except RuntimeError: ...]: only a [RuntimeError] is handled. *)
Definition restore_db (ctx : ApplicationContext) : result ApplicationContext :=
  match restore_db_try ctx with
  | Raise RuntimeError =>
      Return {| db_path := db_path ctx;
                backup_path := backup_path ctx;
                force := force ctx;
                console := console ctx ++ ["no backups found"];
                log := log ctx ++ ["failed to restore backup"] |}
  | r => r
  end.

End Restore.

(** ** Further methods of Activity *)

(** [a or b] *)
Definition py_or (a b : value) : value := if truthy a then a else b.

(** The loop of [init_from] over the fields [fs]: the state of [self]
    afterwards and the exception raised, if any. *)
Fixpoint init_from_fields (fs : list Field) (other : Activity) (force : bool)
    (self : Activity) : Activity * option exn :=
  match fs with
  | [] => (self, None)
  | f :: rest =>
      match protected f with
      | Return p =>
          if negb p then
            let other_value := getattr other f in
            if force then init_from_fields rest other force (setattr self f other_value)
            else
              let new_value := py_or (getattr self f) other_value in
              init_from_fields rest other force (setattr self f new_value)
          else init_from_fields rest other force self
      | Raise e => (self, Some e)
      end
  end.

(** [init_from( other, raw, force )]: the state of [self] afterwards and the
    exception raised, if any (the method returns [self]).  [other] is [None]
    or an activity (an object, so true).  With raw data alone the method
    stores it and calls [self.__post_init__( serialized_data=None )], a
    keyword that [__post_init__] does not take: a [TypeError]. *)
Definition init_from (self : Activity) (other : option Activity) (raw : value) (force : bool)
    : Activity * option exn :=
  match other with
  | Some o => init_from_fields fields o force self
  | None =>
      if truthy raw then (setattr self F_raw raw, Some TypeError)
      else (self, None)
  end.

(** Does a list hold strings only. *)
Definition all_strs (l : list value) : bool :=
  forallb (fun v => match v with VStr _ => true | _ => false end) l.

(** [tag( tag )]: appends the tag when it is not in [self.tags] and sorts
    the list, which fails on a list that holds anything but strings.  The
    attribute is a list, as declared; for any other value the model reports
    a [TypeError] whatever the class of the exception is. *)
Definition tag (self : Activity) (t : string) : result Activity :=
  match getattr self F_tags with
  | VList l =>
      if bool_decide (t ∈ strs_of (VList l)) then Return self
      else if all_strs l then
        Return (setattr self F_tags (VList (map VStr (sorted (strs_of (VList l) ++ [t])))))
      else Raise TypeError
  | _ => Raise TypeError
  end.

(** [l.remove( t )]: the list without the first item equal to [t], if any. *)
Fixpoint remove_first (t : string) (l : list value) : option (list value) :=
  match l with
  | [] => None
  | v :: rest =>
      match v with
      | VStr s => if String.eqb s t then Some rest else cons v <$> remove_first t rest
      | _ => cons v <$> remove_first t rest
      end
  end.

(** [untag( tag )]: [self.tags.remove( tag )] raises [ValueError] when the
    tag is not there. *)
Definition untag (self : Activity) (t : string) : result Activity :=
  match getattr self F_tags with
  | VList l =>
      match remove_first t l with
      | Some l' => Return (setattr self F_tags (VList l'))
      | None => Raise ValueError
      end
  | _ => Raise TypeError
  end.

(** ** Further operations of the db *)

(** Modelled from the spec: [idget( id )] and [get( id )] of the collections
    look a record up by its key; [None] when there is none. *)
Definition store_get {A : Type} (d : store A) (k : Z) : option A :=
  (fun p => snd (snd p)) <$> list_find (fun kv => fst kv = k) d.

Definition get_by_id (self : ActivityDb) (id : Z) : option Activity :=
  store_get (_activities self) id.

Definition get_resource (self : ActivityDb) (id : Z) : option Resource.t :=
  store_get (_resources self) id.

(** [any( uid in a.uids for a in self.activities )] *)
Definition contains_activity (self : ActivityDb) (uid : string) : bool :=
  existsb (fun a => bool_decide (uid ∈ uids a)) (activities self).

(** [any( r.uid == uid and r.path == path for r in self.resources )] *)
Definition contains_resource (self : ActivityDb) (uid path : string) : bool :=
  existsb (fun r => String.eqb (Resource.uid r) uid && String.eqb (Resource.path r) path)
          (resources self).

(** [next( (a for a in self.activities if uid in a.uids), None )] *)
Definition get_by_uid (self : ActivityDb) (uid : string) : option Activity :=
  snd <$> list_find (fun a => uid ∈ uids a) (activities self).

Definition get_resources_by_uid (self : ActivityDb) (uid : string) : list Resource.t :=
  filter (fun r => Resource.uid r = uid) (resources self).

(** [list( chain( *[self.get_resources_by_uid( uid ) for uid in uids] ) )] *)
Definition get_resources_by_uids (self : ActivityDb) (l : list string) : list Resource.t :=
  concat (map (get_resources_by_uid self) l).

(** [find_resources( uid, path )]: the path filters only when it is true,
    so neither for [None] nor for the empty string. *)
Definition find_resources (self : ActivityDb) (uid : string) (path : option string)
    : list Resource.t :=
  let resources := filter (fun r => Resource.uid r = uid) (resources self) in
  match path with
  | Some p => if negb (String.eqb p EmptyString)
              then filter (fun r => Resource.path r = p) resources
              else resources
  | None => resources
  end.

Definition find_resources_of_type (self : ActivityDb) (resource_type : string)
    (l : option (list Resource.t)) : list Resource.t :=
  filter (fun r => Resource.type r = resource_type)
         (match l with None => resources self | Some l => l end).

Definition find_all_resources (self : ActivityDb) (l : list string) : list Resource.t :=
  filter (fun r => Resource.uid r ∈ l) (resources self).

(** [next( iter( [r for r in self.find_all_resources( uids ) if r.type == type] ), None )] *)
Definition get_resource_of_type (self : ActivityDb) (l : list string) (type : string)
    : option Resource.t :=
  head (filter (fun r => Resource.type r = type) (find_all_resources self l)).

Definition get_resource_of_type_for (self : ActivityDb) (activity : Activity)
    (resource_type : string) : option Resource.t :=
  get_resource_of_type self (uids activity) resource_type.

(** [find_all_resources_for] on a list of activities. *)
Definition find_all_resources_for (self : ActivityDb) (l : list Activity) : list Resource.t :=
  find_all_resources self (concat (map uids l)).

(** *** The index *)

(** A dict comprehension [{ k: v for ... }]: a later pair replaces an earlier
    one with the same key. *)
Definition dict_of {A : Type} (l : list (string * A)) : gmap string A :=
  fold_left (fun m kv => <[fst kv := snd kv]> m) l ∅.

(** [{ uid: a for a in activity_map.values() for uid in a.uids }] *)
Definition UID_TO_ACTIVITY (acts : list Activity) : gmap string Activity :=
  dict_of (concat (map (fun a => map (fun uid => (uid, a)) (uids a)) acts)).

(** *** Backup *)

(** [datetime.now( timezone.utc )], and its [strftime( '%Y%m%d_%H%M%S' )]:
    the fields in decimal, padded with zeros to 4 and to 2 digits. *)
Record datetime : Type := mkDatetime {
  year : nat; month : nat; day : nat; hour : nat; minute : nat; second : nat
}.

Definition digit (n : nat) : ascii := ascii_of_nat (48 + n mod 10).

Definition pad2 (n : nat) (rest : string) : string :=
  String (digit (n / 10)) (String (digit n) rest).

Definition pad4 (n : nat) (rest : string) : string :=
  String (digit (n / 1000)) (String (digit (n / 100)) (pad2 n rest)).

Definition strftime_Ymd_HMS (d : datetime) : string :=
  pad4 (year d) (pad2 (month d) (pad2 (day d)
    (String "_" (pad2 (hour d) (pad2 (minute d) (pad2 (second d) EmptyString)))))).

(** The outcome of [backup_db]: the context afterwards, or the exception
    raised. *)
Inductive backup_outcome : Type :=
  | BackedUp (ctx : ApplicationContext)
  | BackupFailed (e : exn).

(** [backup_db( ctx )] at the time [now]: the db files of the db directory
    are copied to a new entry of the backup directory, named by the time;
    [copytree] without [dirs_exist_ok] raises [FileExistsError] when the
    target directory exists. *)
Definition backup_db (now : datetime) (ctx : ApplicationContext) : backup_outcome :=
  let target := strftime_Ymd_HMS now in
  if bool_decide (target ∈ map fst (backup_path ctx)) then BackupFailed FileExistsError
  else BackedUp {| db_path := db_path ctx;
                   backup_path := backup_path ctx ++ [(target, copytree (db_path ctx) ∅)];
                   force := force ctx;
                   console := console ctx ++ [("created database backup in " ++ target)%string];
                   log := log ctx |}.

(** ** Objects and aliasing *)

(** An [Activity] or a [Resource] is a mutable object and a collection holds
    references to objects: the object that a caller passes to
    [insert_activity] is the one whose [id] is assigned and the one that is
    stored, and it may be stored already.  A heap gives the state of the
    object behind each reference, and a collection of references is read
    through the heap. *)
Definition ref : Type := positive.

Definition heap (A : Type) : Type := ref -> A.

(** Assignment to the object at [r]. *)
Definition update {A : Type} (h : heap A) (r : ref) (a : A) : heap A :=
  fun r' => if decide (r' = r) then a else h r'.

(** The collection as its readers see it: each key with the state of the
    object stored under it. *)
Definition view {A : Type} (h : heap A) (d : store ref) : store A :=
  map (fun kr => (fst kr, h (snd kr))) d.

Module Shared.

Section Operations.

Variable pop : gset Z -> option Z.

(** [insert_activity( activity )] for the object at [r]: the heap and the
    collection afterwards, and the value returned. *)
Definition insert_activity (h : heap Activity) (d : store ref) (r : ref)
    : result (heap Activity * store ref * value) :=
  bind (_next_id pop d) (fun n =>
    let h := update h r (setattr (h r) F_id (VInt n)) in
    Return (h, store_set d n r, getattr (h r) F_id)).

(** [[ self.insert_activity( a ) for a in activities ]] *)
Fixpoint insert_activities (h : heap Activity) (d : store ref) (l : list ref)
    : result (heap Activity * store ref * list value) :=
  match l with
  | [] => Return (h, d, [])
  | r :: rest =>
      bind (insert_activity h d r) (fun s =>
      bind (insert_activities (fst (fst s)) (snd (fst s)) rest) (fun s' =>
      Return (fst s', snd s :: snd s')))
  end.

(** [get_by_id( id )] *)
Definition get_by_id (h : heap Activity) (d : store ref) (id : Z) : option Activity :=
  store_get (view h d) id.

(** [next( (a for a in self.activities if any( ... )), None )] *)
Definition get_activity_by_uids (h : heap Activity) (d : store ref) (l : list string)
    : option ref :=
  (fun p => snd (snd p)) <$> list_find (fun kr => shares_uid l (h (snd kr)) = true) d.

(** [upsert_activity( activity )] for the object at [r]. *)
Definition upsert_activity (h : heap Activity) (d : store ref) (r : ref)
    : result (heap Activity * store ref * value) :=
  match get_activity_by_uids h d (uids (h r)) with
  | Some existing =>
      let h := update h existing (snd (union (h existing) [h r] false false)) in
      Return (h, d, getattr (h existing) F_id)
  | None =>
      bind (insert_activity h d r) (fun s => Return (fst s, VNone))
  end.

(** [insert_resource( resource )] for the object at [r]. *)
Definition insert_resource (h : heap Resource.t) (d : store ref) (r : ref)
    : result (heap Resource.t * store ref * Z) :=
  bind (_next_id pop d) (fun n =>
    let h := update h r (Resource.set_id (h r) n) in
    Return (h, store_set d n r, Resource.id (h r))).

(** [get_resource( id )] and [contains_resource( uid, path )] *)
Definition get_resource (h : heap Resource.t) (d : store ref) (id : Z)
    : option Resource.t :=
  store_get (view h d) id.

Definition contains_resource (h : heap Resource.t) (d : store ref) (uid path : string)
    : bool :=
  existsb (fun r => String.eqb (Resource.uid r) uid && String.eqb (Resource.path r) path)
          (store_values (view h d)).

End Operations.

End Shared.

(** * Example data *)

(** An activity given by keyword arguments over the defaults, in the time
    zone "UTC". *)
Definition activity_of (kwargs : list (Field * value)) : Activity :=
  fold_left (fun self kv => setattr self (fst kv) (snd kv)) kwargs (Activity_defaults "UTC").

(** A db without a path (in memory), opened at time 0, holding the given
    collections. *)
Definition db_of (acts : store Activity) (ress : store Resource.t) : ActivityDb :=
  mkActivityDb None false (_init_inmemory_filesystem 0) acts ress.

Definition a_polar : Activity := activity_of [(F_id, VInt 1); (F_uids, VList [VStr "polar:1"])].

Definition a_polarsteps : Activity :=
  activity_of [(F_id, VInt 2); (F_uids, VList [VStr "polarsteps:7"])].

Definition a_strava : Activity :=
  activity_of [(F_id, VInt 3); (F_uids, VList [VStr "strava:5"])].

Definition db_mixed : ActivityDb :=
  db_of [(1, a_polar); (2, a_polarsteps); (3, a_strava)] [].

Definition r_stored : Resource.t :=
  Resource.mk 1 "polar:1" "1.gpx" "application/gpx+xml" "old" 200.

Definition r_new : Resource.t :=
  Resource.mk 0 "polar:1" "1.gpx" "application/gpx+xml" "new" 200.

Definition db_one_resource : ActivityDb := db_of [] [(1, r_stored)].

(** A directory holding the five db files, all written at time [t]. *)
Definition fs_at (t : Z) : FS :=
  fold_left (fun fs kv => writetext t fs (fst kv) (snd kv)) DB_FILES ∅.

(** A read-write db on a path: the underlay holds the five files written
    at time 1, the overlay their copies, with the activities committed at
    time 5. *)
Definition db_on_disk : ActivityDb :=
  mkActivityDb (Some "/var/tracs/db") false
    (<[OVERLAY := writetext 5 (fs_at 1) ACTIVITIES_NAME "{1: polar}"]>
       (<[UNDERLAY := fs_at 1]> ∅))
    [(1, a_polar)] [].

(** A db opened without a path at time 0, with one activity inserted and
    committed at time 5. *)
Definition db_in_memory : ActivityDb :=
  commit (fun _ => "{1: polar}") (fun _ => "{}") 5 (db_of [(1, a_polar)] []) true.

(** * Specification vocabulary *)

(** ** The contract of [set.pop] *)

(** What Python promises of [set.pop()]: an element of the set, and a
    [KeyError] only on the empty set. *)
Record pop_spec (pop : gset Z -> option Z) : Prop := {
  pop_elem : forall s x, pop s = Some x -> x ∈ s;
  pop_some : forall s, s <> ∅ -> exists x, pop s = Some x
}.

(** One admissible [pop]: the element whose value modulo 8 is least.  This
    is how CPython behaves on a small set of ints, which it keeps in a table
    of 8 slots, the int [x] in slot [x mod 8], and pops from the first used
    slot. *)
Definition slot (x : Z) : Z := x mod 8.

Definition pop_by_slot (s : gset Z) : option Z :=
  match elements s with
  | [] => None
  | x :: l => Some (foldr (fun y best => if slot y <? slot best then y else best) x l)
  end.

(** A well-formed resource collection: keys are unique, as in any [dict],
    and every resource is stored under its own positive [id]. *)
Definition resources_wf (d : store Resource.t) : Prop :=
  NoDup (store_keys d) /\
  Forall (fun kv => 0 < fst kv /\ Resource.id (snd kv) = fst kv) d.

(** A finite number or [None]. *)
Definition numeric_or_None (v : value) : bool :=
  match v with
  | VNone | VInt _ => true
  | VFloat x => match x with S754_zero _ | S754_finite _ _ _ => true | _ => false end
  | _ => false
  end.

(** What an optional [int], an optional [float] and an optional duration
    hold. *)
Definition int_or_None (v : value) : bool :=
  match v with VNone | VInt _ => true | _ => false end.

Definition float_or_None (v : value) : bool :=
  match v with VNone | VFloat _ => true | _ => false end.

Definition time_or_None (v : value) : bool :=
  match v with VNone | VTime _ => true | _ => false end.

(** The exact sum of the ints of a list. *)
Definition int_total (l : list value) : Z :=
  foldr Z.add 0 (omap (fun v => match v with VInt z => Some z | _ => None end) l).

(** The floats of a list that are not zero, and their sum: they are added
    from the left, one by one, and every addition is rounded. *)
Definition nonzero_floats (l : list value) : list spec_float :=
  omap (fun v => match v with
                 | VFloat (S754_zero _) => None
                 | VFloat x => Some x
                 | _ => None
                 end) l.

Definition float_total (l : list value) : spec_float :=
  fold_left b64_add (nonzero_floats l) (S754_zero false).

(** The sum of the total seconds of the durations of a list. *)
Definition seconds_total (l : list value) : Z :=
  foldr Z.add 0 (omap (fun v => match v with VTime t => Some t | _ => None end) l).

(** [u] does not come after [v] in the order of uids. *)
Definition uid_le (u v : string) : Prop := uid_ltb v u = false.

(** [a <= b] on strings. *)
Definition str_le (a b : string) : Prop := str_ltb b a = false.

(** The values that the activities of a list hold for a field, [None]
    included. *)
Definition values_of (f : Field) (l : list Activity) : list value :=
  map (fun o => getattr o f) l.

(** [v] is the sum of a list of optional ints, or of a list of optional
    floats, with [None] in place of a sum that is zero. *)
Definition is_sum_or_None (l : list value) (v : value) : Prop :=
  (Forall (fun x => int_or_None x = true) l /\
   v = if int_total l =? 0 then VNone else VInt (int_total l)) \/
  (Forall (fun x => float_or_None x = true) l /\
   v = match float_total l with S754_zero _ => VNone | t => VFloat t end).

(** [v] is a greatest (a least) number of [l], or [None] if [l] holds no
    number. *)
Definition is_max_or_None (l : list value) (v : value) : Prop :=
  (v = VNone /\ forall x, x ∈ l -> x = VNone) \/
  (exists q, v ∈ l /\ num_of v = Some q /\
     forall x p, x ∈ l -> num_of x = Some p -> (p <= q)%Q).

Definition is_min_or_None (l : list value) (v : value) : Prop :=
  (v = VNone /\ forall x, x ∈ l -> x = VNone) \/
  (exists q, v ∈ l /\ num_of v = Some q /\
     forall x p, x ∈ l -> num_of x = Some p -> (q <= p)%Q).

(** The fields that construction from parts sums, and those of which it
    takes the greatest and the least value. *)
Definition summed_fields : list Field := [F_distance; F_ascent; F_descent; F_calories].

Definition max_fields : list Field := [F_elevation_max; F_speed_max; F_heartrate_max].

Definition min_fields : list Field := [F_elevation_min; F_heartrate_min].

(** A well-formed activity collection: keys are unique, and every activity
    is stored under its own positive [id]. *)
Definition activities_wf (d : store Activity) : Prop :=
  NoDup (store_keys d) /\
  Forall (fun kv => 0 < fst kv /\ getattr (snd kv) F_id = VInt (fst kv)) d.

(** * Properties *)


(** ** Comparisons of numbers *)

Lemma py_lt_num (a b : value) (qa qb : Q) :
  num_of a = Some qa -> num_of b = Some qb ->
  py_lt a b = Return (match (qa ?= qb)%Q with Lt => true | _ => false end).
Proof.
  unfold num_of, py_lt. intros Ha Hb.
  destruct (number_of a) as [[| |x|]|]; try discriminate Ha.
  destruct (number_of b) as [[| |y|]|]; try discriminate Hb.
  injection Ha as ->. injection Hb as ->. reflexivity.
Qed.

Lemma Qcompare_not_Lt (p q : Q) : (p ?= q)%Q <> Lt -> (q <= p)%Q.
Proof. intros H. apply Qnot_lt_le. intros Hlt. apply Qlt_alt in Hlt. contradiction. Qed.

Lemma foldr_choice_elem (better : Z -> Z -> bool) (x : Z) (l : list Z) :
  foldr (fun y best => if better y best then y else best) x l ∈ x :: l.
Proof.
  induction l as [|y l IH]; simpl.
  - apply list_elem_of_here.
  - destruct (better y _).
    + apply list_elem_of_further, list_elem_of_here.
    + apply elem_of_cons in IH as [-> | IH].
      * apply list_elem_of_here.
      * do 2 apply list_elem_of_further. exact IH.
Qed.

Lemma pop_by_slot_spec : pop_spec pop_by_slot.
Proof.
  split; unfold pop_by_slot.
  - intros s x. destruct (elements s) as [|y l] eqn:E; [discriminate|].
    intros [= <-]. apply elem_of_elements. rewrite E. apply foldr_choice_elem.
  - intros s Hs. destruct (elements s) as [|y l] eqn:E.
    + apply elements_empty_inv in E. apply leibniz_equiv in E. contradiction.
    + eauto.
Qed.

(** ** Collections *)

Lemma max_key_ge (k : Z) (ks : list Z) : forall j, j ∈ k :: ks -> j <= max_key k ks.
Proof.
  unfold max_key. induction ks as [|k' ks IH]; simpl; intros j Hj.
  - apply list_elem_of_singleton in Hj. lia.
  - apply elem_of_cons in Hj as [-> | Hj].
    + specialize (IH k (list_elem_of_here _ _)). lia.
    + apply elem_of_cons in Hj as [-> | Hj]; [lia|].
      specialize (IH j (list_elem_of_further _ _ _ Hj)). lia.
Qed.

Lemma max_key_elem (k : Z) (ks : list Z) : max_key k ks ∈ k :: ks.
Proof.
  unfold max_key. induction ks as [|k' ks IH]; simpl.
  - apply list_elem_of_here.
  - destruct (Z.max_spec k' (foldr Z.max k ks)) as [[_ ->] | [_ ->]].
    + apply elem_of_cons in IH as [-> | IH].
      * apply list_elem_of_here.
      * do 2 apply list_elem_of_further. exact IH.
    + apply list_elem_of_further, list_elem_of_here.
Qed.

Lemma elem_of_seqZ_1 (n j : Z) : j ∈ seqZ 1 n <-> 1 <= j <= n.
Proof. rewrite elem_of_seqZ. lia. Qed.

(** The candidates of [_next_id]: the positive integers up to the largest
    key plus one that are not keys. *)
Lemma elem_of_key_range {A : Type} (d : store A) (n : Z) :
  n ∈ key_range d <->
  match store_keys d with
  | [] => n = 1
  | k :: ks => 1 <= n <= max_key k ks + 1
  end.
Proof.
  unfold key_range. destruct (store_keys d) as [|k ks].
  - apply list_elem_of_singleton.
  - apply elem_of_seqZ_1.
Qed.

Section NextId.

Variable pop : gset Z -> option Z.
Hypothesis Hpop : pop_spec pop.

(** [_next_id] returns, and what it returns is a candidate. *)
Lemma _next_id_returns {A : Type} (d : store A) :
  Forall (fun k => 0 < k) (store_keys d) ->
  exists n, _next_id pop d = Return n /\ n ∈ key_range d /\ n ∉ store_keys d.
Proof.
  intros Hpos. unfold _next_id.
  set (s := (list_to_set (key_range d) ∖ list_to_set (store_keys d) : gset Z)).
  assert (Hne : s <> ∅).
  { intros He.
    assert (Hin : (match store_keys d with [] => 1 | k :: ks => max_key k ks + 1 end) ∈ s).
    { subst s. apply elem_of_difference. split.
      - apply elem_of_list_to_set, elem_of_key_range.
        destruct (store_keys d) as [|k ks] eqn:E; [reflexivity|].
        pose proof (max_key_elem k ks) as Hm.
        rewrite Forall_forall in Hpos. specialize (Hpos _ Hm). lia.
      - rewrite elem_of_list_to_set.
        destruct (store_keys d) as [|k ks] eqn:E.
        + apply not_elem_of_nil.
        + intros Hin. apply max_key_ge in Hin. lia. }
    rewrite He in Hin. exact (not_elem_of_empty _ Hin). }
  destruct (pop_some pop Hpop s Hne) as [n Hn]. rewrite Hn.
  exists n. split; [reflexivity|].
  apply (pop_elem pop Hpop) in Hn. subst s.
  apply elem_of_difference in Hn as [H1 H2].
  rewrite elem_of_list_to_set in H1. rewrite elem_of_list_to_set in H2. auto.
Qed.

End NextId.

(** C4 (amended): over a map with positive ids, [_next_id] returns a positive
    integer that is not a key and is at most the largest key plus one: a gap
    or the successor of the largest key, whichever [set.pop] yields.  When
    the keys are exactly 1..m (no gap; m = 0 for the empty map) that is
    m + 1, the smallest unused id: 1 over the empty map, 4 over {1,2,3}. *)
Theorem next_id_unused_candidate (pop : gset Z -> option Z) (Hpop : pop_spec pop)
    {A : Type} (d : store A) :
  Forall (fun k => 0 < k) (store_keys d) ->
  exists n, _next_id pop d = Return n /\ 0 < n /\ (n ∉ store_keys d) /\
    (forall k, k ∈ store_keys d -> exists k', k' ∈ store_keys d /\ n <= k' + 1) /\
    (forall m, 0 <= m -> (forall j, 0 < j -> (j ∈ store_keys d <-> j <= m)) -> n = m + 1).
Proof.
  intros Hpos.
  destruct (_next_id_returns pop Hpop d Hpos) as (n & Hn & Hr & Hk).
  exists n. apply elem_of_key_range in Hr.
  assert (Hn0 : 0 < n) by (destruct (store_keys d); lia).
  repeat split; try assumption.
  - intros k Hin. destruct (store_keys d) as [|k0 ks]; [inversion Hin|].
    exists (max_key k0 ks). split; [apply max_key_elem | lia].
  - intros m Hm Hiff.
    assert (Hgt : m < n).
    { destruct (Z_lt_le_dec m n) as [?|Hle]; [assumption|].
      exfalso. apply Hk. apply Hiff; assumption. }
    destruct (store_keys d) as [|k0 ks].
    + assert (m < 1) by (destruct (Z_lt_le_dec m 1) as [?|Hc]; [assumption|];
        exfalso; eapply not_elem_of_nil; apply (Hiff 1); lia).
      lia.
    + pose proof (max_key_elem k0 ks) as Hmax.
      rewrite Forall_forall in Hpos. pose proof (Hpos _ Hmax) as Hp.
      apply Hiff in Hmax; lia.
Qed.

Lemma next_id_unused_candidate_witness :
  exists n, _next_id pop_by_slot [(1, tt); (2, tt); (3, tt)] = Return n /\ 0 < n /\
    (n ∉ [1; 2; 3]) /\
    (forall k, k ∈ [1; 2; 3] -> exists k', k' ∈ [1; 2; 3] /\ n <= k' + 1) /\
    (forall m, 0 <= m -> (forall j, 0 < j -> (j ∈ [1; 2; 3] <-> j <= m)) -> n = m + 1).
Proof.
  apply (next_id_unused_candidate pop_by_slot pop_by_slot_spec [(1, tt); (2, tt); (3, tt)]).
  simpl. repeat constructor; lia.
Defined.

(** C4 (as stated) fails: with the keys 2..7 the candidates are 1 and 8, and
    a [pop] within Python's contract (the one CPython implements) returns 8
    although 1 is unused. *)
Lemma next_id_not_smallest :
  pop_spec pop_by_slot /\
  _next_id pop_by_slot [(2, tt); (3, tt); (4, tt); (5, tt); (6, tt); (7, tt)] = Return 8 /\
  1 ∉ store_keys [(2, tt); (3, tt); (4, tt); (5, tt); (6, tt); (7, tt)].
Proof.
  split; [apply pop_by_slot_spec|]. split; [vm_compute; reflexivity|].
  simpl. rewrite list_elem_of_In. simpl. intuition lia.
Qed.

(** The examples of the spec under that [pop]. *)
Example next_id_examples :
  _next_id pop_by_slot [(1, tt); (2, tt); (4, tt)] = Return 3 /\
  _next_id pop_by_slot ([] : store unit) = Return 1 /\
  _next_id pop_by_slot [(1, tt); (2, tt); (3, tt)] = Return 4.
Proof. repeat split; vm_compute; reflexivity. Qed.

(** ** Stores *)

Lemma store_set_fresh {A : Type} (d : store A) (k : Z) (v : A) :
  k ∉ store_keys d -> store_set d k v = d ++ [(k, v)].
Proof.
  induction d as [|[k' v'] d IH]; simpl; intros Hk; [reflexivity|].
  destruct (decide (k' = k)) as [->|Hne].
  - exfalso. apply Hk. apply list_elem_of_here.
  - f_equal. apply IH. intros Hin. apply Hk. apply list_elem_of_further. exact Hin.
Qed.

Lemma store_set_at {A : Type} (d : store A) (i : nat) (k : Z) (v v' : A) :
  NoDup (store_keys d) -> d !! i = Some (k, v) ->
  store_set d k v' = <[i := (k, v')]> d.
Proof.
  revert i. induction d as [|[k0 v0] d IH]; intros i Hnd Hi; [discriminate|].
  simpl in Hnd. apply NoDup_cons in Hnd as [Hk0 Hnd]. simpl.
  destruct i as [|i]; simpl in Hi.
  - injection Hi as -> ->. rewrite decide_True by reflexivity. reflexivity.
  - destruct (decide (k0 = k)) as [->|Hne].
    + exfalso. apply Hk0. apply list_elem_of_lookup_2 in Hi.
      change k with (fst (k, v)). apply list_elem_of_fmap_2. exact Hi.
    + simpl. f_equal. apply IH; assumption.
Qed.

(** ** Upsert *)

Lemma get_resource_by_uid_path_Some (self : ActivityDb) (u p : string) (existing : Resource.t) :
  get_resource_by_uid_path self u p = Some existing ->
  exists i k, _resources self !! i = Some (k, existing) /\
    Resource.uid existing = u /\ Resource.path existing = p.
Proof.
  unfold get_resource_by_uid_path, resources, store_values. intros H.
  destruct (list_find _ _) as [[i x]|] eqn:E; simpl in H; [|discriminate H].
  injection H as ->. apply list_find_Some in E as (Hi & [Hu Hp] & _).
  rewrite list_lookup_fmap in Hi.
  destruct (_resources self !! i) as [[k r]|] eqn:Ei; simpl in Hi; [|discriminate Hi].
  injection Hi as ->. exists i, k. auto.
Qed.

Lemma get_resource_by_uid_path_None (self : ActivityDb) (u p : string) :
  get_resource_by_uid_path self u p = None <->
  forall r, r ∈ resources self -> ~ (Resource.uid r = u /\ Resource.path r = p).
Proof.
  unfold get_resource_by_uid_path. split.
  - intros H. destruct (list_find _ _) eqn:E; simpl in H; [discriminate H|].
    apply list_find_None in E. rewrite Forall_forall in E. exact E.
  - intros H. destruct (list_find _ _) as [[i x]|] eqn:E; simpl; [|reflexivity].
    apply list_find_Some in E as (Hi & HP & _).
    exfalso. apply (H x); [|exact HP]. eapply list_elem_of_lookup_2. exact Hi.
Qed.

Section Upsert.

Variable pop : gset Z -> option Z.
Hypothesis Hpop : pop_spec pop.

Lemma resources_wf_positive (d : store Resource.t) :
  resources_wf d -> Forall (fun k => 0 < k) (store_keys d).
Proof.
  intros [_ H]. unfold store_keys. apply Forall_fmap.
  eapply Forall_impl; [exact H|]. intros kv [Hk _]. exact Hk.
Qed.

(** The matching branch of [upsert_activity]: the first stored activity that
    shares a uid is merged with the incoming one, with [force=False] and in
    place, and its id is returned. *)
Lemma upsert_activity_match (self : ActivityDb) (activity : Activity)
    (i : nat) (k : Z) (existing : Activity) :
  get_activity_by_uids self (uids activity) = Some (i, (k, existing)) ->
  upsert_activity pop self activity =
    Return (set_activities self
              (<[i := (k, merged existing [activity] false)]> (_activities self)),
            getattr existing F_id).
Proof. intros H. unfold upsert_activity. rewrite H. reflexivity. Qed.

(** C1 (the inserting branch): when no stored activity shares a uid with the
    incoming one, [upsert_activity] stores it under an unused id and returns
    [None], not that id. *)
Theorem upsert_activity_insert_returns_None (self : ActivityDb) (activity : Activity) :
  Forall (fun k => 0 < k) (store_keys (_activities self)) ->
  (forall a, a ∈ activities self -> shares_uid (uids activity) a = false) ->
  exists n, 0 < n /\ (n ∉ store_keys (_activities self)) /\
    upsert_activity pop self activity =
      Return (set_activities self
                (_activities self ++ [(n, setattr activity F_id (VInt n))]),
              VNone).
Proof.
  intros Hpos Hnone. unfold upsert_activity.
  assert (E : get_activity_by_uids self (uids activity) = None).
  { unfold get_activity_by_uids. apply list_find_None. apply Forall_forall.
    intros [k a] Hin. simpl. rewrite (Hnone a); [discriminate|].
    unfold activities, store_values. change a with (snd (k, a)).
    apply list_elem_of_fmap_2. exact Hin. }
  rewrite E. unfold insert_activity.
  destruct (_next_id_returns pop Hpop (_activities self) Hpos) as (n & Hn & Hr & Hk).
  rewrite Hn. simpl. exists n. split; [|split; [exact Hk|]].
  - apply elem_of_key_range in Hr. destruct (store_keys (_activities self)); lia.
  - rewrite (store_set_fresh _ _ _ Hk). reflexivity.
Qed.

End Upsert.

Lemma upsert_activity_insert_returns_None_witness :
  exists n, 0 < n /\ (n ∉ store_keys (_activities (db_of [] []))) /\
    upsert_activity pop_by_slot (db_of [] []) a_polar =
      Return (set_activities (db_of [] []) [(n, setattr a_polar F_id (VInt n))], VNone).
Proof.
  apply (upsert_activity_insert_returns_None pop_by_slot pop_by_slot_spec (db_of [] []) a_polar).
  - simpl. constructor.
  - intros a Ha. inversion Ha.
Defined.

(** The failing input of C1 evaluated: on an empty db the activity with uid
    polar:1 is stored under id 1, and the call returns [None]. *)
Example upsert_activity_on_empty_db :
  exists db', upsert_activity pop_by_slot (db_of [] []) a_polar = Return (db', VNone) /\
    store_keys (_activities db') = [1].
Proof. eexists. split; vm_compute; reflexivity. Qed.

(** ** Finders *)

(** What [find_by_classifier] returns: the activities with a uid of which
    the classifier is a prefix, in the order of the collection. *)
Lemma elem_of_find_by_classifier (self : ActivityDb) (classifier : string) (a : Activity) :
  a ∈ find_by_classifier self classifier <->
  a ∈ activities self /\
  exists uid, uid ∈ uids a /\ String.prefix classifier uid = true.
Proof.
  unfold find_by_classifier. rewrite list_elem_of_filter.
  unfold has_classifier. rewrite existsb_exists.
  split.
  - intros [(u & Hu & Hp) Hin]. split; [exact Hin|].
    exists u. split; [apply list_elem_of_In; exact Hu | exact Hp].
  - intros [Hin (u & Hu & Hp)]. split; [|exact Hin].
    exists u. split; [apply list_elem_of_In; exact Hu | exact Hp].
Qed.

(** C9 (the failing input): [find_by_classifier( 'polar' )] also returns the
    activity whose only uid is polarsteps:7, which does not start with
    polar: (the classifier followed by the colon). *)
Theorem find_by_classifier_ignores_separator :
  find_by_classifier db_mixed "polar" = [a_polar; a_polarsteps] /\
  uids a_polarsteps = ["polarsteps:7"] /\
  String.prefix "polar:" "polarsteps:7" = false.
Proof. repeat split; vm_compute; reflexivity. Qed.

(** C10: on a db with no activity, [find_first] and [find_last] without a
    classifier raise [ValueError]: they have no result, not even [None]. *)
Theorem find_first_last_raise_on_empty (starttime : Activity -> value) (self : ActivityDb) :
  _activities self = [] ->
  find_first starttime self None = Raise ValueError /\
  find_last starttime self None = Raise ValueError.
Proof.
  intros H. unfold find_first, find_last, candidates, activities, store_values.
  rewrite H. split; reflexivity.
Qed.

Lemma find_first_last_raise_on_empty_witness :
  _activities (db_of [] []) = [] /\
  find_first (fun a => getattr a F_time) (db_of [] []) None = Raise ValueError /\
  find_last (fun a => getattr a F_time) (db_of [] []) None = Raise ValueError.
Proof.
  split; [reflexivity|].
  apply (find_first_last_raise_on_empty (fun a => getattr a F_time) (db_of [] [])).
  reflexivity.
Defined.

Lemma min_from_elem {A : Type} (key : A -> value) (l : list A) (best : A) :
  Forall (fun x => is_Some (num_of (key x))) (best :: l) ->
  exists x, min_from key best l = Return x /\ x ∈ best :: l.
Proof.
  revert best. induction l as [|y l IH]; intros best Hall.
  - exists best. split; [reflexivity | apply list_elem_of_here].
  - apply Forall_cons in Hall as [Hb Hall]. apply Forall_cons in Hall as [Hy Hall].
    destruct Hb as [qb Hqb], Hy as [qy Hqy].
    cbn [min_from]. rewrite (py_lt_num _ _ qy qb Hqy Hqb). cbn [bind].
    set (c := match (qy ?= qb)%Q with Lt => true | _ => false end).
    destruct (IH (if c then y else best)) as (x & Hx & Hin).
    { apply Forall_cons. split; [|exact Hall].
      destruct c; [rewrite Hqy | rewrite Hqb]; eexists; reflexivity. }
    exists x. split; [exact Hx|].
    apply elem_of_cons in Hin as [Hin | Hin].
    + subst x. destruct c.
      * apply list_elem_of_further, list_elem_of_here.
      * apply list_elem_of_here.
    + do 2 apply list_elem_of_further. exact Hin.
Qed.

(** On a non-empty collection whose start times are numbers [find_first]
    returns an activity of the collection. *)
Lemma find_first_returns (starttime : Activity -> value) (self : ActivityDb) :
  activities self <> [] ->
  Forall (fun a => is_Some (num_of (starttime a))) (activities self) ->
  exists a, find_first starttime self None = Return a /\ a ∈ activities self.
Proof.
  intros Hne Hall. unfold find_first, candidates, py_min_by.
  destruct (activities self) as [|a l]; [contradiction|].
  apply min_from_elem. exact Hall.
Qed.

(** ** The order on strings and [sorted] *)

Lemma str_ltb_lt (a b : string) : str_ltb a b = true <-> String_as_OT.lt a b.
Proof.
  unfold str_ltb, String_as_OT.lt.
  destruct (String_as_OT.compare a b); split; congruence.
Qed.

Lemma str_ltb_irrefl (a : string) : str_ltb a a = false.
Proof.
  destruct (str_ltb a a) eqn:E; [|reflexivity].
  apply str_ltb_lt in E. exfalso. exact (StrictOrder_Irreflexive a E).
Qed.

Lemma str_ltb_trans (a b c : string) :
  str_ltb a b = true -> str_ltb b c = true -> str_ltb a c = true.
Proof.
  rewrite !str_ltb_lt. apply (StrictOrder_Transitive (R := String_as_OT.lt)).
Qed.

Lemma str_ltb_connex (a b : string) : str_ltb a b = false -> str_ltb b a = false -> a = b.
Proof.
  unfold str_ltb. intros Hab Hba.
  destruct (String_as_OT.compare_spec a b) as [Heq | Hlt | Hgt].
  - exact Heq.
  - discriminate Hab.
  - unfold String_as_OT.lt in Hgt. rewrite Hgt in Hba. discriminate Hba.
Qed.

Lemma str_le_refl (a : string) : str_le a a.
Proof. apply str_ltb_irrefl. Qed.

Lemma str_lt_le (a b : string) : str_ltb a b = true -> str_le a b.
Proof.
  intros Hab. unfold str_le. destruct (str_ltb b a) eqn:E; [|reflexivity].
  pose proof (str_ltb_trans _ _ _ Hab E) as H. rewrite str_ltb_irrefl in H. discriminate H.
Qed.

Lemma str_le_trans (a b c : string) : str_le a b -> str_le b c -> str_le a c.
Proof.
  unfold str_le. intros Hab Hbc.
  destruct (str_ltb c a) eqn:Hca; [|reflexivity].
  destruct (str_ltb a b) eqn:E.
  - rewrite (str_ltb_trans _ _ _ Hca E) in Hbc. discriminate Hbc.
  - rewrite (str_ltb_connex _ _ E Hab) in Hca. rewrite Hca in Hbc. discriminate Hbc.
Qed.

Section Sorted.

Context {A : Type} (key : A -> string).

Lemma insert_sorted_perm (x : A) (l : list A) : insert_sorted key x l ≡ₚ x :: l.
Proof.
  induction l as [|y l IH]; simpl; [reflexivity|].
  destruct (str_ltb (key y) (key x)); [|reflexivity].
  rewrite IH. apply Permutation_swap.
Qed.

Lemma sorted_by_perm (l : list A) : sorted_by key l ≡ₚ l.
Proof.
  unfold sorted_by. induction l as [|x l IH]; simpl; [reflexivity|].
  rewrite insert_sorted_perm. rewrite IH. reflexivity.
Qed.

Lemma insert_sorted_StronglySorted (x : A) (l : list A) :
  StronglySorted (fun a b => str_le (key a) (key b)) l ->
  StronglySorted (fun a b => str_le (key a) (key b)) (insert_sorted key x l).
Proof.
  induction 1 as [|y l Hs IH Hy]; simpl.
  - repeat constructor.
  - destruct (str_ltb (key y) (key x)) eqn:E.
    + constructor; [exact IH|].
      rewrite (insert_sorted_perm x l). constructor; [|exact Hy].
      apply str_lt_le. exact E.
    + constructor; [constructor; assumption|].
      constructor; [exact E|].
      eapply Forall_impl; [exact Hy|]. intros z Hz.
      eapply str_le_trans; [exact E | exact Hz].
Qed.

Lemma sorted_by_StronglySorted (l : list A) :
  StronglySorted (fun a b => str_le (key a) (key b)) (sorted_by key l).
Proof.
  unfold sorted_by. induction l as [|x l IH]; simpl.
  - constructor.
  - apply insert_sorted_StronglySorted. exact IH.
Qed.

(** The last item of the sorted list has the greatest key. *)
Lemma sorted_by_last (l : list A) (x : A) :
  last (sorted_by key l) = Some x ->
  x ∈ l /\ forall y, y ∈ l -> str_le (key y) (key x).
Proof.
  intros Hlast. apply last_Some in Hlast as [l' Hl'].
  pose proof (sorted_by_perm l) as Hperm.
  pose proof (sorted_by_StronglySorted l) as Hs.
  rewrite Hl' in Hperm, Hs. split.
  - rewrite <- Hperm. apply elem_of_app. right. apply list_elem_of_here.
  - intros y Hy. rewrite <- Hperm in Hy. apply elem_of_app in Hy as [Hy | Hy].
    + clear Hperm Hl'. induction l' as [|z l' IH]; [inversion Hy|].
      simpl in Hs. apply StronglySorted_inv in Hs as [Hs Hz].
      apply elem_of_cons in Hy as [-> | Hy].
      * rewrite Forall_forall in Hz. apply Hz.
        apply elem_of_app. right. apply list_elem_of_here.
      * apply IH; assumption.
    + apply list_elem_of_singleton in Hy as ->. apply str_le_refl.
Qed.

End Sorted.

(** A sorted list without duplicates is strictly increasing. *)
Lemma StronglySorted_strict (l : list string) :
  StronglySorted str_le l -> NoDup l ->
  StronglySorted (fun a b => str_ltb a b = true) l.
Proof.
  induction 1 as [|x l Hs IH Hx]; intros Hnd; constructor.
  - apply IH. apply NoDup_cons in Hnd as [_ Hnd]. exact Hnd.
  - apply NoDup_cons in Hnd as [Hnotin _].
    rewrite Forall_forall in Hx. apply Forall_forall. intros y Hy.
    destruct (str_ltb x y) eqn:E; [reflexivity|]. exfalso.
    apply Hnotin. rewrite (str_ltb_connex x y E (Hx y Hy)). exact Hy.
Qed.

(** ** The order of uids *)

Lemma local_id_ltb_asym (a b : option N) :
  local_id_ltb a b = true -> local_id_ltb b a = false.
Proof.
  destruct a as [x|], b as [y|]; simpl; try congruence.
  intros H. apply N.ltb_lt in H. apply N.ltb_ge. lia.
Qed.

Lemma local_id_le_trans (a b c : option N) :
  local_id_ltb b a = false -> local_id_ltb c b = false -> local_id_ltb c a = false.
Proof.
  destruct a as [x|], b as [y|], c as [z|]; simpl; try congruence.
  rewrite !N.ltb_ge. lia.
Qed.

(** [uid_le] spelled out: the classifier is smaller, or it is the same and
    the local id is not greater. *)
Lemma uid_le_iff (u v : string) :
  uid_le u v <->
  str_ltb (classifier_of u) (classifier_of v) = true \/
  (classifier_of u = classifier_of v /\
   local_id_ltb (local_id_of v) (local_id_of u) = false).
Proof.
  unfold uid_le, uid_ltb. rewrite orb_false_iff, andb_false_iff, negb_false_iff. split.
  - intros [Hvu [Huv|Hid]]; [left; exact Huv|].
    destruct (str_ltb (classifier_of u) (classifier_of v)) eqn:E; [left; reflexivity|].
    right. split; [apply str_ltb_connex; assumption | exact Hid].
  - intros [Huv|[Heq Hid]].
    + split; [apply (str_lt_le _ _ Huv) | left; exact Huv].
    + rewrite Heq. split; [apply str_ltb_irrefl | right; exact Hid].
Qed.

Lemma uid_ltb_asym (u v : string) : uid_ltb u v = true -> uid_le u v.
Proof.
  unfold uid_ltb. intros H. apply uid_le_iff.
  apply orb_true_iff in H as [H|H]; [left; exact H|].
  apply andb_true_iff in H as [Hvu Hid]. apply negb_true_iff in Hvu.
  destruct (str_ltb (classifier_of u) (classifier_of v)) eqn:E; [left; reflexivity|].
  right. split; [apply str_ltb_connex; assumption|].
  apply local_id_ltb_asym. exact Hid.
Qed.

Lemma uid_le_trans (u v w : string) : uid_le u v -> uid_le v w -> uid_le u w.
Proof.
  rewrite !uid_le_iff. intros [Huv|[Euv Iuv]] [Hvw|[Evw Ivw]].
  - left. apply (str_ltb_trans _ _ _ Huv Hvw).
  - left. rewrite <- Evw. exact Huv.
  - left. rewrite Euv. exact Hvw.
  - right. split; [congruence|]. apply (local_id_le_trans _ _ _ Iuv Ivw).
Qed.

Lemma insert_by_uid_perm (x : string) (l : list string) : insert_by uid_ltb x l ≡ₚ x :: l.
Proof.
  induction l as [|y l IH]; cbn [insert_by]; [reflexivity|].
  destruct (uid_ltb y x); [|reflexivity].
  rewrite IH. apply Permutation_swap.
Qed.

Lemma sorted_uids_perm (l : list string) : sorted_uids l ≡ₚ l.
Proof.
  unfold sorted_uids. induction l as [|x l IH]; cbn [foldr]; [reflexivity|].
  rewrite insert_by_uid_perm, IH. reflexivity.
Qed.

Lemma insert_by_uid_sorted (x : string) (l : list string) :
  StronglySorted uid_le l -> StronglySorted uid_le (insert_by uid_ltb x l).
Proof.
  induction 1 as [|y l Hs IH Hy]; cbn [insert_by].
  - repeat constructor.
  - destruct (uid_ltb y x) eqn:E.
    + constructor; [exact IH|].
      rewrite insert_by_uid_perm. constructor; [apply uid_ltb_asym; exact E | exact Hy].
    + constructor; [constructor; assumption|].
      constructor; [exact E|].
      eapply Forall_impl; [exact Hy|]. intros z Hz. apply (uid_le_trans x y z E Hz).
Qed.

Lemma sorted_uids_sorted (l : list string) : StronglySorted uid_le (sorted_uids l).
Proof.
  unfold sorted_uids. induction l as [|x l IH]; cbn [foldr]; [constructor|].
  apply insert_by_uid_sorted. exact IH.
Qed.

(** ** Activity.union *)

Lemma strs_of_VList_VStr (l : list string) : strs_of (VList (map VStr l)) = l.
Proof. unfold strs_of. induction l as [|s l IH]; simpl; [reflexivity|]. f_equal. exact IH. Qed.

Lemma uids_merged (self : Activity) (others : list Activity) (force : bool) :
  uids (merged self others force) =
  sorted_uids (remove_dups (concat (map uids (self :: others)))).
Proof. unfold uids at 1, getattr, merged. apply strs_of_VList_VStr. Qed.

(** Without [force] a value that [self] holds wins over those of the others. *)
Lemma merged_self_wins (self : Activity) (others : list Activity) (f : Field) :
  f <> F_uids -> is_not_None (getattr self f) = true ->
  getattr (merged self others false) f = getattr self f.
Proof.
  intros Hf Hv. unfold getattr at 1, merged.
  destruct f; try contradiction; try reflexivity;
    unfold first_non_null; cbn [map]; rewrite filter_cons_True by exact Hv; reflexivity.
Qed.

(** The merge as the spec describes it: for all activities a and b whose
    uids are lists of strings (in particular for two that share no uid) the
    record given by a.union( [b] ) with force=False holds as uids a list of
    strings that is sorted by classifier and then by local id, has no
    duplicates and has as members the uids of a and those of b; and it has
    the id of a. *)
Lemma merged_uids_sorted_union (a b : Activity) (ua ub : list string) (copy : bool) :
  getattr a F_uids = VList (map VStr ua) ->
  getattr b F_uids = VList (map VStr ub) ->
  exists l,
    getattr (fst (union a [b] false copy)) F_uids = VList (map VStr l) /\
    StronglySorted uid_le l /\
    NoDup l /\
    (forall u, u ∈ l <-> u ∈ ua \/ u ∈ ub) /\
    getattr (fst (union a [b] false copy)) F_id = getattr a F_id.
Proof.
  intros Ha Hb. unfold union. cbn [fst].
  exists (sorted_uids (remove_dups (concat (map uids [a; b])))).
  assert (Hu : concat (map uids [a; b]) = ua ++ ub).
  { cbn [map concat]. unfold uids. rewrite Ha, Hb, !strs_of_VList_VStr.
    rewrite app_nil_r. reflexivity. }
  split; [reflexivity|]. split; [apply sorted_uids_sorted|]. split; [|split].
  - rewrite sorted_uids_perm. apply NoDup_remove_dups.
  - intros u. rewrite sorted_uids_perm, elem_of_remove_dups, Hu. apply elem_of_app.
  - reflexivity.
Qed.

(** The order of uids at work: the local id counts as a number, and the
    classifier ends at the colon. *)
Example union_uids_order :
  getattr (merged (activity_of [(F_uids, VList [VStr "polar:10"; VStr "a1:5"])])
                  [activity_of [(F_uids, VList [VStr "polar:9"; VStr "a:5"; VStr "polar:10"])]]
                  false) F_uids
    = VList [VStr "a:5"; VStr "a1:5"; VStr "polar:9"; VStr "polar:10"].
Proof. vm_compute. reflexivity. Qed.

(** The calls of [test_union] on the model. *)
Example test_union :
  let src1 := activity_of [(F_id, VInt 1); (F_name, VStr "One"); (F_uids, VList [VStr "a1"])] in
  let src2 := activity_of [(F_id, VInt 2); (F_distance, VInt 10); (F_calories, VInt 20);
                           (F_uids, VList [VStr "a2"])] in
  let src3 := activity_of [(F_id, VInt 3); (F_calories, VInt 100); (F_heartrate, VInt 100);
                           (F_uids, VList [VStr "a2"; VStr "a3"])] in
  let target := fst (union src1 [src2; src3] false true) in
  let forced := fst (union src1 [src2; src3] true true) in
  map (getattr target) [F_name; F_distance; F_calories; F_heartrate; F_id; F_uids] =
    [VStr "One"; VInt 10; VInt 20; VInt 100; VInt 1; VList [VStr "a1"; VStr "a2"; VStr "a3"]] /\
  map (getattr forced) [F_name; F_distance; F_calories; F_heartrate; F_id] =
    [VStr "One"; VInt 10; VInt 100; VInt 100; VInt 3] /\
  getattr (snd (union src1 [src2; src3] false true)) F_distance = VNone /\
  getattr (snd (union src1 [src2; src3] false false)) F_distance = VInt 10.
Proof. repeat split; vm_compute; reflexivity. Qed.

(** ** restore_db *)

(** C5 (the failing input): when no entry of the backup directory matches
    the pattern, [restore_db] raises [IndexError]: the [except RuntimeError]
    clause does not handle it, nothing is printed, and the caller gets the
    exception. *)
Theorem restore_db_raises_without_backups (confirm : string -> bool)
    (ctx : ApplicationContext) :
  (forall p, p ∈ backup_path ctx -> glob_match (fst p) = false) ->
  restore_db confirm ctx = Raise IndexError.
Proof.
  intros Hnone. unfold restore_db, restore_db_try.
  assert (E : filter (fun p => glob_match (fst p) = true) (backup_path ctx) = []).
  { induction (backup_path ctx) as [|p l IH]; [reflexivity|].
    rewrite filter_cons_False.
    - apply IH. intros q Hq. apply Hnone. apply list_elem_of_further. exact Hq.
    - rewrite (Hnone p); [discriminate | apply list_elem_of_here]. }
  rewrite E. reflexivity.
Qed.

Lemma restore_db_raises_without_backups_witness :
  (forall p, p ∈ [("notes.txt", ∅ : FS)] -> glob_match (fst p) = false) /\
  restore_db (fun _ => true) (mkContext ∅ [("notes.txt", ∅)] true [] []) = Raise IndexError.
Proof.
  assert (H : forall p, p ∈ [("notes.txt", ∅ : FS)] -> glob_match (fst p) = false).
  { intros p Hp. apply list_elem_of_singleton in Hp. rewrite Hp. reflexivity. }
  split; [exact H|].
  apply (restore_db_raises_without_backups (fun _ => true)
           (mkContext ∅ [("notes.txt", ∅)] true [] [])).
  exact H.
Defined.

(** When some entry matches, a forced restore returns: the db files of the
    matching entry with the greatest name replace those of the db directory. *)
Lemma restore_db_restores_last (confirm : string -> bool) (ctx : ApplicationContext) :
  force ctx = true ->
  (exists p, p ∈ backup_path ctx /\ glob_match (fst p) = true) ->
  exists source ctx',
    restore_db confirm ctx = Return ctx' /\
    db_path ctx' = copytree (snd source) (db_path ctx) /\
    console ctx' = console ctx /\
    source ∈ backup_path ctx /\ glob_match (fst source) = true /\
    forall p, p ∈ backup_path ctx -> glob_match (fst p) = true ->
      str_le (fst p) (fst source).
Proof.
  intros Hforce (p & Hp & Hm). unfold restore_db, restore_db_try, index_last.
  set (matching := filter (fun p => glob_match (fst p) = true) (backup_path ctx)).
  destruct (last (sorted_by fst matching)) as [source|] eqn:E.
  - apply sorted_by_last in E as [Hin Hmax].
    subst matching. apply list_elem_of_filter in Hin as [Hsm Hsin].
    simpl. rewrite Hforce. simpl.
    eexists source, _. split; [reflexivity|]. simpl.
    repeat split; try assumption.
    intros q Hq Hqm. apply Hmax. apply list_elem_of_filter. auto.
  - exfalso. apply last_None in E.
    assert (Hp' : p ∈ sorted_by fst matching).
    { rewrite sorted_by_perm. subst matching. apply list_elem_of_filter. auto. }
    rewrite E in Hp'. inversion Hp'.
Qed.

(** ** save *)

Lemma copy_is_necessary_insert_ne (overlay underlay : FS) (f g : string) (x : File) :
  f <> g ->
  copy_is_necessary overlay g (<[f := x]> underlay) = copy_is_necessary overlay g underlay.
Proof. intros Hne. unfold copy_is_necessary. rewrite lookup_insert_ne by exact Hne. reflexivity. Qed.

(** The loop of [save] over distinct files that the overlay holds: it
    raises nothing, and each of the files ends as the copy of the overlay's
    file when a copy was necessary and as it was otherwise. *)
Lemma save_files_lookup (now : Z) (overlay : FS) (files : list string) :
  NoDup files ->
  (forall f, f ∈ files -> is_Some (overlay !! f)) ->
  forall underlay, exists underlay',
    save_files now overlay files underlay = (underlay', None) /\
    forall f, underlay' !! f =
      if decide (f ∈ files) then
        if copy_is_necessary overlay f underlay
        then (fun s => mkFile now (text s)) <$> overlay !! f
        else underlay !! f
      else underlay !! f.
Proof.
  induction files as [|f0 rest IH]; intros Hnd Hov underlay.
  - exists underlay. split; [reflexivity|]. intros f.
    rewrite decide_False by apply not_elem_of_nil. reflexivity.
  - apply NoDup_cons in Hnd as [Hf0 Hnd].
    destruct (Hov f0 (list_elem_of_here _ _)) as [s Hs].
    assert (Hov' : forall f, f ∈ rest -> is_Some (overlay !! f)).
    { intros f Hf. apply Hov. apply list_elem_of_further. exact Hf. }
    simpl. unfold copy_file_if_newer. rewrite Hs.
    destruct (copy_is_necessary overlay f0 underlay) eqn:Hnec.
    + destruct (IH Hnd Hov' (<[f0 := mkFile now (text s)]> underlay)) as (u' & Hu' & Hl).
      exists u'. split; [exact Hu'|]. intros f. rewrite Hl.
      destruct (decide (f = f0)) as [->|Hne].
      * rewrite (decide_False _ _ Hf0). rewrite decide_True by apply list_elem_of_here.
        rewrite Hnec, Hs. apply lookup_insert_eq.
      * rewrite copy_is_necessary_insert_ne by congruence.
        rewrite lookup_insert_ne by congruence.
        destruct (decide (f ∈ rest)) as [Hin|Hnin].
        -- rewrite decide_True by (apply list_elem_of_further; exact Hin). reflexivity.
        -- rewrite decide_False; [reflexivity|].
           intros Hc. apply elem_of_cons in Hc as [Hc|Hc]; contradiction.
    + destruct (IH Hnd Hov' underlay) as (u' & Hu' & Hl).
      exists u'. split; [exact Hu'|]. intros f. rewrite Hl.
      destruct (decide (f = f0)) as [->|Hne].
      * rewrite (decide_False _ _ Hf0). rewrite decide_True by apply list_elem_of_here.
        rewrite Hnec. reflexivity.
      * destruct (decide (f ∈ rest)) as [Hin|Hnin].
        -- rewrite decide_True by (apply list_elem_of_further; exact Hin). reflexivity.
        -- rewrite decide_False; [reflexivity|].
           intros Hc. apply elem_of_cons in Hc as [Hc|Hc]; contradiction.
Qed.

Lemma DB_FILES_NoDup : NoDup (map fst DB_FILES).
Proof.
  simpl. repeat (apply NoDup_cons; split; [rewrite list_elem_of_In; simpl; intuition discriminate|]).
  apply NoDup_nil_2.
Qed.

Lemma save_files_cons (now : Z) (overlay underlay : FS) (f : string) (rest : list string) :
  save_files now overlay (f :: rest) underlay =
  match copy_file_if_newer now overlay f underlay with
  | Return underlay' => save_files now overlay rest underlay'
  | Raise e => (underlay, Some e)
  end.
Proof. reflexivity. Qed.

Lemma save_files_missing (now : Z) (overlay underlay : FS) (f : string) (rest : list string) :
  overlay !! f = None ->
  save_files now overlay (f :: rest) underlay = (underlay, Some ResourceNotFound).
Proof.
  intros Hf. rewrite save_files_cons. unfold copy_file_if_newer, copy_is_necessary.
  rewrite Hf. reflexivity.
Qed.

(** The underlay of a db opened without a path at time [t0]. *)
Lemma inmemory_underlay (t0 : Z) (acts : store Activity) (res : store Resource.t) :
  exists underlay,
    underlay_fs (mkActivityDb None false (_init_inmemory_filesystem t0) acts res)
      = Some underlay /\
    overlay_fs (mkActivityDb None false (_init_inmemory_filesystem t0) acts res) = Some ∅ /\
    underlay !! ACTIVITIES_NAME = Some (mkFile t0 "{}") /\
    underlay !! RESOURCES_NAME = Some (mkFile t0 "{}").
Proof.
  eexists. split; [|split; [|split]].
  - unfold underlay_fs, _init_inmemory_filesystem. cbn [dbfs].
    rewrite lookup_insert_ne by discriminate. apply lookup_insert_eq.
  - apply lookup_insert_eq.
  - vm_compute. reflexivity.
  - vm_compute. reflexivity.
Qed.

Section Save.

Variable dumps_activities : store Activity -> string.
Variable dumps_resources : store Resource.t -> string.

Lemma commit_overlay (t1 : Z) (self : ActivityDb) (overlay : FS) :
  overlay_fs self = Some overlay ->
  overlay_fs (commit dumps_activities dumps_resources t1 self true)
    = Some (<[ACTIVITIES_NAME := mkFile t1 (dumps_activities (_activities self))]>
              (<[RESOURCES_NAME := mkFile t1 (dumps_resources (_resources self))]> overlay)) /\
  underlay_fs (commit dumps_activities dumps_resources t1 self true) = underlay_fs self /\
  _read_only (commit dumps_activities dumps_resources t1 self true) = _read_only self /\
  _activities (commit dumps_activities dumps_resources t1 self true) = _activities self /\
  _resources (commit dumps_activities dumps_resources t1 self true) = _resources self.
Proof.
  intros Hov. unfold commit. rewrite Hov.
  unfold overlay_fs, underlay_fs, set_dbfs, write_activities, write_resources, writetext.
  cbn [dbfs _read_only _activities _resources].
  rewrite lookup_insert_eq. rewrite lookup_insert_ne by discriminate.
  repeat split; reflexivity.
Qed.

(** C7 (the defect): [save] returns at once on a read-only db, and on a
    writable db whose layers hold the five db files it decides file by
    file, overwriting an underlay file only by a newer overlay file.  But a
    db opened without a path is not left alone: it has an underlay, in
    memory, so the guard does not apply, and after a commit newer than the
    underlay [save] overwrites the underlay's activities file and then
    raises [ResourceNotFound], the overlay having no index file. *)
Theorem save_not_skipped_without_path (now : Z) :
  (forall self, _read_only self = true -> save now self = (self, None)) /\
  (forall t0 t1 acts res, t0 < t1 ->
     exists self' underlay underlay',
       underlay_fs (mkActivityDb None false (_init_inmemory_filesystem t0) acts res)
         = Some underlay /\
       save now (commit dumps_activities dumps_resources t1
                   (mkActivityDb None false (_init_inmemory_filesystem t0) acts res) true)
         = (self', Some ResourceNotFound) /\
       underlay_fs self' = Some underlay' /\
       underlay !! ACTIVITIES_NAME = Some (mkFile t0 "{}") /\
       underlay' !! ACTIVITIES_NAME = Some (mkFile now (dumps_activities acts))) /\
  (forall self overlay underlay,
     _read_only self = false ->
     overlay_fs self = Some overlay -> underlay_fs self = Some underlay ->
     (forall f, f ∈ map fst DB_FILES -> is_Some (overlay !! f) /\ is_Some (underlay !! f)) ->
     exists self' underlay',
       save now self = (self', None) /\
       overlay_fs self' = Some overlay /\ underlay_fs self' = Some underlay' /\
       (forall f s d, f ∈ map fst DB_FILES ->
          overlay !! f = Some s -> underlay !! f = Some d ->
          underlay' !! f = Some (if modified d <? modified s then mkFile now (text s) else d)) /\
       (forall f, f ∉ map fst DB_FILES -> underlay' !! f = underlay !! f)).
Proof.
  split; [|split].
  - intros self Hro. unfold save. rewrite Hro. reflexivity.
  - intros t0 t1 acts res Hlt.
    destruct (inmemory_underlay t0 acts res) as (underlay & Hun & Hov & HuA & _).
    set (self0 := mkActivityDb None false (_init_inmemory_filesystem t0) acts res) in *.
    destruct (commit_overlay t1 self0 ∅ Hov) as (Hov1 & Hun1 & Hro1 & _ & _).
    unfold save. rewrite Hro1, Hun1, Hun, Hov1. cbn [_read_only self0].
    change (map fst DB_FILES)
      with (ACTIVITIES_NAME :: INDEX_NAME :: [METADATA_NAME; RESOURCES_NAME; SCHEMA_NAME]).
    rewrite save_files_cons. unfold copy_file_if_newer, copy_is_necessary.
    rewrite lookup_insert_eq, HuA. cbn [modified text _activities self0].
    apply Z.ltb_lt in Hlt. rewrite Hlt.
    rewrite save_files_missing
      by (rewrite !lookup_insert_ne by discriminate; apply lookup_empty).
    eexists _, underlay, _. split; [reflexivity|]. split; [reflexivity|].
    split; [unfold underlay_fs, set_dbfs; cbn [dbfs]; apply lookup_insert_eq|].
    split; [exact HuA | apply lookup_insert_eq].
  - intros self overlay underlay Hro Hov Hun Hfiles. unfold save.
    rewrite Hro, Hun, Hov.
    destruct (save_files_lookup now overlay (map fst DB_FILES) DB_FILES_NoDup
                (fun f Hf => proj1 (Hfiles f Hf)) underlay) as (u' & Hu' & Hl).
    rewrite Hu'.
    exists (set_dbfs self (<[UNDERLAY := u']> (dbfs self))), u'.
    split; [reflexivity|]. split; [|split; [|split]].
    + unfold overlay_fs. simpl. rewrite lookup_insert_ne by discriminate. exact Hov.
    + unfold underlay_fs. simpl. apply lookup_insert_eq.
    + intros f s d Hf Hs Hd. rewrite Hl. rewrite decide_True by exact Hf.
      unfold copy_is_necessary. rewrite Hs, Hd.
      destruct (modified d <? modified s); reflexivity.
    + intros f Hf. rewrite Hl. rewrite decide_False by exact Hf. reflexivity.
Qed.

End Save.

Lemma save_not_skipped_without_path_witness :
  exists self' underlay',
    _db_path db_in_memory = None /\
    (underlay_fs (db_of [(1, a_polar)] []) ≫= lookup ACTIVITIES_NAME)
      = Some (mkFile 0 "{}") /\
    save 9 db_in_memory = (self', Some ResourceNotFound) /\
    underlay_fs self' = Some underlay' /\
    underlay' !! ACTIVITIES_NAME = Some (mkFile 9 "{1: polar}").
Proof.
  destruct (save_not_skipped_without_path (fun _ => "{1: polar}") (fun _ => "{}") 9)
    as (_ & H & _).
  destruct (H 0 5 [(1, a_polar)] []) as (self' & underlay & underlay' & Hu & Hs & Hu' & HA & HA').
  - lia.
  - exists self', underlay'. split; [reflexivity|].
    split; [unfold db_of; rewrite Hu; exact HA|].
    split; [exact Hs|]. split; [exact Hu' | exact HA'].
Defined.

(** Where [save] does what is claimed: on a db on disk whose activities
    were committed at time 5, the activities file is promoted and the
    resources file is left alone. *)
Example save_on_disk :
  exists self' underlay',
    save 9 db_on_disk = (self', None) /\
    underlay_fs self' = Some underlay' /\
    underlay' !! ACTIVITIES_NAME = Some (mkFile 9 "{1: polar}") /\
    underlay' !! RESOURCES_NAME = Some (mkFile 1 "{}").
Proof. eexists _, _. repeat split; vm_compute; reflexivity. Qed.
(** ** Construction from others *)

Lemma fields_complete (f : Field) : f ∈ fields.
Proof. destruct f; apply (bool_decide_unpack _); vm_compute; exact I. Qed.

Lemma getattr_setattr_eq (o : Activity) (f : Field) (v : value) :
  getattr (setattr o f v) f = v.
Proof. unfold getattr, setattr. rewrite decide_True by reflexivity. reflexivity. Qed.

Lemma getattr_setattr_ne (o : Activity) (f g : Field) (v : value) :
  g <> f -> getattr (setattr o f v) g = getattr o g.
Proof. intros Hne. unfold getattr, setattr. rewrite decide_False by exact Hne. reflexivity. Qed.

(** The loop for the field [f] ends at the first other that holds a truthy
    value for [f], on the undefined name; without one it changes nothing. *)
Lemma others_loop_raises (f : Field) (force : bool) (self : Activity)
    (others : list Activity) :
  Exists (fun o => truthy (getattr o f) = true) others ->
  others_loop f force self others = Raise NameError.
Proof.
  induction 1 as [o rest Ho | o rest _ IH]; cbn [others_loop].
  - rewrite Ho. reflexivity.
  - destruct (truthy (getattr o f)); [reflexivity | exact IH].
Qed.

Lemma others_loop_skips (f : Field) (force : bool) (self : Activity)
    (others : list Activity) :
  Forall (fun o => truthy (getattr o f) = false) others ->
  others_loop f force self others = Return self.
Proof.
  induction 1 as [|o rest Ho _ IH]; cbn [others_loop]; [reflexivity|].
  rewrite Ho. exact IH.
Qed.

Lemma fold_others_loop_Raise (force : bool) (others : list Activity) (e : exn)
    (fs : list Field) :
  fold_left (fun r f => bind r (fun self => others_loop f force self others)) fs (Raise e)
    = Raise e.
Proof. induction fs as [|f fs IH]; [reflexivity | exact IH]. Qed.

Lemma fold_others_loop (force : bool) (others : list Activity) (fs : list Field)
    (self : Activity) :
  fold_left (fun r f => bind r (fun self => others_loop f force self others)) fs
            (Return self) =
  if decide (Exists (fun f => Exists (fun o => truthy (getattr o f) = true) others) fs)
  then Raise NameError else Return self.
Proof.
  induction fs as [|f fs IH]; cbn [fold_left bind].
  - rewrite decide_False by (intros H; inversion H). reflexivity.
  - destruct (decide (Exists (fun o => truthy (getattr o f) = true) others)) as [Hf|Hf].
    + rewrite (others_loop_raises f force self others Hf), fold_others_loop_Raise.
      rewrite decide_True by (apply Exists_cons_hd; exact Hf). reflexivity.
    + rewrite others_loop_skips.
      * rewrite IH. destruct (decide (Exists _ fs)) as [Hfs|Hfs].
        -- rewrite decide_True by (apply Exists_cons_tl; exact Hfs). reflexivity.
        -- rewrite decide_False; [reflexivity|].
           intros H. apply Exists_cons in H as [H|H]; contradiction.
      * apply Forall_forall. intros o Ho.
        destruct (truthy (getattr o f)) eqn:E; [|reflexivity].
        exfalso. apply Hf. apply Exists_exists. exists o. auto.
Qed.

Section FromOthers.

Variable get_localzone_name : string.

(** C2 (the defect): an Activity cannot be constructed from a list of others
    of which one holds a truthy value in some field, as every instance of
    the class does: whatever the force flag, the loop reaches the test of
    the metadata key [PROTECTED], a name that activity.py does not define,
    and the constructor raises [NameError].  (When no other holds a truthy
    value, the instance is returned as the keyword arguments made it.) *)
Theorem new_Activity_from_others_raises_NameError (kwargs : list (Field * value))
    (others : list Activity) (other_parts : option (list Activity)) (force : bool) :
  truthy (getattr (fold_left (fun self kv => setattr self (fst kv) (snd kv)) kwargs
                     (Activity_defaults get_localzone_name)) F_raw) = false ->
  others <> [] ->
  ((exists o f, o ∈ others /\ truthy (getattr o f) = true) ->
   new_Activity get_localzone_name kwargs (Some others) other_parts force
     = Raise NameError) /\
  ((forall o f, o ∈ others -> truthy (getattr o f) = false) ->
   new_Activity get_localzone_name kwargs (Some others) other_parts force
     = Return (fold_left (fun self kv => setattr self (fst kv) (snd kv)) kwargs
                 (Activity_defaults get_localzone_name))).
Proof.
  intros Hraw Hne. unfold new_Activity, __post_init__. rewrite Hraw.
  destruct others as [|o0 rest]; [contradiction|]. cbn [nonempty default].
  unfold __init_from_others__. rewrite fold_others_loop. split.
  - intros (o & f & Ho & Hf). rewrite decide_True; [reflexivity|].
    apply Exists_exists. exists f. split; [apply fields_complete|].
    apply Exists_exists. exists o. auto.
  - intros Hnone. rewrite decide_False; [reflexivity|].
    intros H. apply Exists_exists in H as (f & _ & H).
    apply Exists_exists in H as (o & Ho & Hf). rewrite (Hnone o f Ho) in Hf.
    discriminate Hf.
Qed.

(** C3 (the defect): two activities of which one has a uid cannot be merged
    by the merge code of activity.py, the constructor from others: whatever
    the keyword arguments and the force flag, it raises [NameError] (at the
    undefined name [PROTECTED], as in C2) and no record with the united
    uids, or any record at all, comes out. *)
Theorem merge_of_two_raises_NameError (kwargs : list (Field * value)) (a b : Activity)
    (force : bool) :
  truthy (getattr (fold_left (fun self kv => setattr self (fst kv) (snd kv)) kwargs
                     (Activity_defaults get_localzone_name)) F_raw) = false ->
  uids a <> [] \/ uids b <> [] ->
  new_Activity get_localzone_name kwargs (Some [a; b]) None force = Raise NameError.
Proof.
  intros Hraw Hu. unfold new_Activity, __post_init__. rewrite Hraw.
  cbn [nonempty default]. unfold __init_from_others__. rewrite fold_others_loop.
  rewrite decide_True; [reflexivity|].
  apply Exists_exists. exists F_uids. split; [apply fields_complete|].
  assert (Ht : forall o, uids o <> [] -> truthy (getattr o F_uids) = true).
  { intros o Ho. unfold uids, strs_of in Ho.
    destruct (getattr o F_uids) as [| | | | | | |l| |]; try contradiction.
    destruct l; [contradiction | reflexivity]. }
  destruct Hu as [Hu|Hu].
  - apply Exists_cons_hd. apply Ht. exact Hu.
  - apply Exists_cons_tl, Exists_cons_hd. apply Ht. exact Hu.
Qed.

End FromOthers.

Lemma new_Activity_from_others_raises_NameError_witness :
  new_Activity "UTC" [(F_id, VInt 1); (F_name, VStr "One")]
    (Some [activity_of [(F_id, VInt 2); (F_distance, VInt 10)];
           activity_of [(F_id, VInt 3); (F_calories, VInt 100)]]) None false
    = Raise NameError.
Proof.
  apply (new_Activity_from_others_raises_NameError "UTC"
           [(F_id, VInt 1); (F_name, VStr "One")]
           [activity_of [(F_id, VInt 2); (F_distance, VInt 10)];
            activity_of [(F_id, VInt 3); (F_calories, VInt 100)]] None false).
  - reflexivity.
  - discriminate.
  - exists (activity_of [(F_id, VInt 2); (F_distance, VInt 10)]), F_distance.
    split; [apply list_elem_of_here | reflexivity].
Defined.

(** An instance built by the constructor holds a truthy value in the fields
    [timezone] (when the machine has a time zone name) and [__vf__], which
    no keyword argument sets: a source that is enough for the loop to reach
    the undefined name. *)
Example new_Activity_from_a_default_other :
  new_Activity "UTC" [] (Some [Activity_defaults "UTC"]) None false = Raise NameError.
Proof. reflexivity. Qed.

Lemma merge_of_two_raises_NameError_witness :
  new_Activity "UTC" [] (Some [a_polar; a_strava]) None false = Raise NameError.
Proof.
  apply (merge_of_two_raises_NameError "UTC" [] a_polar a_strava false).
  - reflexivity.
  - left. discriminate.
Defined.
(** ** Sums, maxima and minima of optional numbers *)

Lemma numeric_or_None_cases (v : value) :
  numeric_or_None v = true -> v = VNone \/ exists q, num_of v = Some q.
Proof.
  destruct v as [| | |x| | | | | |]; simpl; try discriminate; eauto.
  destruct x; simpl; try discriminate; eauto.
Qed.

(** [sum] over ints is exact. *)
Lemma py_sum_from_ints (zs : list Z) :
  forall acc, py_sum_from (VInt acc) (map VInt zs) = Return (VInt (acc + foldr Z.add 0 zs)).
Proof.
  induction zs as [|z zs IH]; intros acc; cbn [map py_sum_from foldr].
  - rewrite Z.add_0_r. reflexivity.
  - cbn [py_add int_of bind]. rewrite IH. do 2 f_equal. lia.
Qed.

Lemma filter_truthy_ints (l : list value) :
  Forall (fun x => int_or_None x = true) l ->
  exists zs, filter (fun v => truthy v = true) l = map VInt zs /\
             foldr Z.add 0 zs = int_total l.
Proof.
  unfold int_total. induction 1 as [|x l Hx _ (zs & Hf & Hs)].
  - exists []. split; reflexivity.
  - destruct x as [| |z| | | | | | |]; try discriminate Hx.
    + exists zs. rewrite filter_cons_False by (simpl; discriminate). split; assumption.
    + cbn [omap list_omap foldr]. destruct (truthy (VInt z)) eqn:E.
      * exists (z :: zs). rewrite filter_cons_True by exact E. rewrite Hf.
        split; [reflexivity|]. cbn [foldr]. rewrite Hs. reflexivity.
      * exists zs. rewrite filter_cons_False by (rewrite E; discriminate).
        split; [exact Hf|]. simpl in E. apply negb_false_iff, Z.eqb_eq in E.
        subst z. rewrite Hs. reflexivity.
Qed.

(** [sum] over floats adds them from the left, rounding each sum. *)
Lemma py_sum_from_floats (xs : list spec_float) :
  forall acc,
  py_sum_from (VFloat acc) (map VFloat xs) = Return (VFloat (fold_left b64_add xs acc)).
Proof.
  induction xs as [|x xs IH]; intros acc; cbn [map py_sum_from fold_left]; [reflexivity|].
  cbn [py_add bind]. apply IH.
Qed.

Lemma filter_truthy_floats (l : list value) :
  Forall (fun x => float_or_None x = true) l ->
  filter (fun v => truthy v = true) l = map VFloat (nonzero_floats l).
Proof.
  unfold nonzero_floats. induction 1 as [|x l Hx _ IH]; [reflexivity|].
  destruct x as [| | |x| | | | | |]; try discriminate Hx.
  - rewrite filter_cons_False by (simpl; discriminate). exact IH.
  - destruct x; cbn [omap list_omap].
    + rewrite filter_cons_False by (simpl; discriminate). exact IH.
    + rewrite filter_cons_True by reflexivity. rewrite IH. reflexivity.
    + rewrite filter_cons_True by reflexivity. rewrite IH. reflexivity.
    + rewrite filter_cons_True by reflexivity. rewrite IH. reflexivity.
Qed.

(** [s if (s := sum( v for v in l if v )) else None] over optional ints
    and over optional floats. *)
Lemma sum_or_None_ints (l : list value) :
  Forall (fun x => int_or_None x = true) l ->
  sum_or_None (filter (fun v => truthy v = true) l)
    = Return (if int_total l =? 0 then VNone else VInt (int_total l)).
Proof.
  intros Hl. destruct (filter_truthy_ints l Hl) as (zs & -> & Hs).
  unfold sum_or_None, py_sum. rewrite py_sum_from_ints, Hs. cbn [bind truthy].
  rewrite Z.add_0_l. destruct (int_total l =? 0); reflexivity.
Qed.

Lemma sum_or_None_floats (l : list value) :
  Forall (fun x => float_or_None x = true) l ->
  sum_or_None (filter (fun v => truthy v = true) l)
    = Return (match float_total l with S754_zero _ => VNone | t => VFloat t end).
Proof.
  intros Hl. rewrite (filter_truthy_floats l Hl). unfold float_total, sum_or_None, py_sum.
  destruct (nonzero_floats l) as [|x xs]; [reflexivity|].
  cbn [map py_sum_from fold_left].
  change (py_add (VInt 0) (VFloat x)) with (Return (VFloat (b64_add (S754_zero false) x))).
  cbn [bind]. rewrite py_sum_from_floats. cbn [bind truthy].
  destruct (fold_left b64_add xs _); reflexivity.
Qed.

Lemma sum_or_None_spec (l : list value) :
  Forall (fun x => int_or_None x = true) l \/ Forall (fun x => float_or_None x = true) l ->
  exists v, sum_or_None (filter (fun v => truthy v = true) l) = Return v /\
            is_sum_or_None l v.
Proof.
  intros [Hl|Hl]; eexists; (split; [|]).
  - apply (sum_or_None_ints l Hl).
  - left. split; [exact Hl | reflexivity].
  - apply (sum_or_None_floats l Hl).
  - right. split; [exact Hl | reflexivity].
Qed.

(** [sum_times] over optional durations. *)
Lemma sum_times_seconds_total (l : list value) :
  Forall (fun x => time_or_None x = true) l ->
  sum_times l = Return (VTime (seconds_total l)).
Proof.
  intros Hl. unfold sum_times.
  assert (H : total_seconds l = Return (seconds_total l)).
  { unfold seconds_total. induction Hl as [|x l Hx _ IH]; [reflexivity|].
    cbn [total_seconds]. rewrite IH.
    destruct x; try discriminate Hx; reflexivity. }
  rewrite H. reflexivity.
Qed.

Lemma filter_present_numbers (l : list value) :
  Forall (fun v => numeric_or_None v = true) l ->
  Forall (fun v => is_Some (num_of v)) (filter (fun v => is_not_None v = true) l).
Proof.
  intros H. apply Forall_forall. intros x Hx.
  apply list_elem_of_filter in Hx as [Ht Hin].
  rewrite Forall_forall in H.
  destruct (numeric_or_None_cases x (H x Hin)) as [-> | [q Hq]].
  - discriminate Ht.
  - rewrite Hq. eexists. reflexivity.
Qed.

Lemma py_max_from_spec (l : list value) :
  Forall (fun v => is_Some (num_of v)) l ->
  forall best qb, num_of best = Some qb ->
  exists v q, py_max_from best l = Return v /\ v ∈ best :: l /\ num_of v = Some q /\
    forall x p, x ∈ best :: l -> num_of x = Some p -> (p <= q)%Q.
Proof.
  induction 1 as [|x l [qx Hx] _ IH]; intros best qb Hb; simpl.
  - exists best, qb. split; [reflexivity|]. split; [apply list_elem_of_here|].
    split; [exact Hb|]. intros y p Hy Hp. apply list_elem_of_singleton in Hy. subst y.
    rewrite Hb in Hp. injection Hp as ->. apply Qle_refl.
  - rewrite (py_lt_num best x qb qx Hb Hx). cbn [bind].
    destruct (qb ?= qx)%Q eqn:C.
    + destruct (IH best qb Hb) as (v & q & Hv & Hin & Hq & Hmax).
      exists v, q. split; [exact Hv|]. split.
      { apply elem_of_cons in Hin as [-> | Hin];
          [apply list_elem_of_here | do 2 apply list_elem_of_further; exact Hin]. }
      split; [exact Hq|]. intros y p Hy Hp.
      apply elem_of_cons in Hy as [-> | Hy]; [apply (Hmax best p (list_elem_of_here _ _) Hp)|].
      apply elem_of_cons in Hy as [-> | Hy].
      * rewrite Hx in Hp. injection Hp as <-.
        apply Qle_trans with qb; [|apply (Hmax best qb (list_elem_of_here _ _) Hb)].
        apply Qcompare_not_Lt. rewrite C. discriminate.
      * apply (Hmax y p (list_elem_of_further _ _ _ Hy) Hp).
    + destruct (IH x qx Hx) as (v & q & Hv & Hin & Hq & Hmax).
      exists v, q. split; [exact Hv|]. split; [apply list_elem_of_further; exact Hin|].
      split; [exact Hq|]. intros y p Hy Hp.
      apply elem_of_cons in Hy as [-> | Hy]; [|apply (Hmax y p Hy Hp)].
      rewrite Hb in Hp. injection Hp as <-.
      apply Qle_trans with qx; [|apply (Hmax x qx (list_elem_of_here _ _) Hx)].
      apply Qlt_le_weak, Qlt_alt. exact C.
    + destruct (IH best qb Hb) as (v & q & Hv & Hin & Hq & Hmax).
      exists v, q. split; [exact Hv|]. split.
      { apply elem_of_cons in Hin as [-> | Hin];
          [apply list_elem_of_here | do 2 apply list_elem_of_further; exact Hin]. }
      split; [exact Hq|]. intros y p Hy Hp.
      apply elem_of_cons in Hy as [-> | Hy]; [apply (Hmax best p (list_elem_of_here _ _) Hp)|].
      apply elem_of_cons in Hy as [-> | Hy].
      * rewrite Hx in Hp. injection Hp as <-.
        apply Qle_trans with qb; [|apply (Hmax best qb (list_elem_of_here _ _) Hb)].
        apply Qcompare_not_Lt. rewrite C. discriminate.
      * apply (Hmax y p (list_elem_of_further _ _ _ Hy) Hp).
Qed.

Lemma py_min_from_spec (l : list value) :
  Forall (fun v => is_Some (num_of v)) l ->
  forall best qb, num_of best = Some qb ->
  exists v q, py_min_from best l = Return v /\ v ∈ best :: l /\ num_of v = Some q /\
    forall x p, x ∈ best :: l -> num_of x = Some p -> (q <= p)%Q.
Proof.
  induction 1 as [|x l [qx Hx] _ IH]; intros best qb Hb; simpl.
  - exists best, qb. split; [reflexivity|]. split; [apply list_elem_of_here|].
    split; [exact Hb|]. intros y p Hy Hp. apply list_elem_of_singleton in Hy. subst y.
    rewrite Hb in Hp. injection Hp as ->. apply Qle_refl.
  - rewrite (py_lt_num x best qx qb Hx Hb). cbn [bind].
    assert (Hkeep : (qx ?= qb)%Q <> Lt ->
      exists v q, py_min_from best l = Return v /\ v ∈ best :: x :: l /\ num_of v = Some q /\
        forall y p, y ∈ best :: x :: l -> num_of y = Some p -> (q <= p)%Q).
    { intros C. destruct (IH best qb Hb) as (v & q & Hv & Hin & Hq & Hmin).
      exists v, q. split; [exact Hv|]. split.
      { apply elem_of_cons in Hin as [-> | Hin];
          [apply list_elem_of_here | do 2 apply list_elem_of_further; exact Hin]. }
      split; [exact Hq|]. intros y p Hy Hp.
      apply elem_of_cons in Hy as [-> | Hy]; [apply (Hmin best p (list_elem_of_here _ _) Hp)|].
      apply elem_of_cons in Hy as [-> | Hy].
      - rewrite Hx in Hp. injection Hp as <-.
        apply Qle_trans with qb; [apply (Hmin best qb (list_elem_of_here _ _) Hb)|].
        apply Qcompare_not_Lt. exact C.
      - apply (Hmin y p (list_elem_of_further _ _ _ Hy) Hp). }
    destruct (qx ?= qb)%Q eqn:C.
    + apply Hkeep. discriminate.
    + destruct (IH x qx Hx) as (v & q & Hv & Hin & Hq & Hmin).
      exists v, q. split; [exact Hv|]. split; [apply list_elem_of_further; exact Hin|].
      split; [exact Hq|]. intros y p Hy Hp.
      apply elem_of_cons in Hy as [-> | Hy]; [|apply (Hmin y p Hy Hp)].
      rewrite Hb in Hp. injection Hp as <-.
      apply Qle_trans with qx; [apply (Hmin x qx (list_elem_of_here _ _) Hx)|].
      apply Qlt_le_weak, Qlt_alt. exact C.
    + apply Hkeep. discriminate.
Qed.

Lemma num_is_not_None (v : value) (q : Q) : num_of v = Some q -> is_not_None v = true.
Proof. destruct v; simpl; intros H; (discriminate H || reflexivity). Qed.

(** [max( l ) if ( l := [v for v in vs if v is not None] ) else None] over
    numbers and [None]s, and the same with [min]. *)
Lemma max_or_None_spec (l : list value) :
  Forall (fun v => numeric_or_None v = true) l ->
  exists v, max_or_None (filter (fun v => is_not_None v = true) l) = Return v /\
            is_max_or_None l v.
Proof.
  intros Hl. unfold max_or_None.
  pose proof (filter_present_numbers l Hl) as Hnum.
  destruct (filter (fun v => is_not_None v = true) l) as [|b rest] eqn:E.
  - exists VNone. split; [reflexivity|]. left. split; [reflexivity|].
    intros x Hx. rewrite Forall_forall in Hl.
    destruct (numeric_or_None_cases x (Hl x Hx)) as [-> | [q Hq]]; [reflexivity|].
    exfalso. apply (filter_nil_not_elem_of _ _ x E); [|exact Hx].
    apply (num_is_not_None x q Hq).
  - apply Forall_cons in Hnum as [[qb Hb] Hrest].
    destruct (py_max_from_spec rest Hrest b qb Hb) as (v & q & Hv & Hin & Hq & Hmax).
    exists v. split; [exact Hv|]. right. exists q.
    rewrite <- E in Hin, Hmax. split; [|split; [exact Hq|]].
    + apply list_elem_of_filter in Hin as [_ Hin]. exact Hin.
    + intros x p Hx Hp. apply (Hmax x p); [|exact Hp].
      apply list_elem_of_filter. split; [apply (num_is_not_None x p Hp) | exact Hx].
Qed.

Lemma min_or_None_spec (l : list value) :
  Forall (fun v => numeric_or_None v = true) l ->
  exists v, min_or_None (filter (fun v => is_not_None v = true) l) = Return v /\
            is_min_or_None l v.
Proof.
  intros Hl. unfold min_or_None.
  pose proof (filter_present_numbers l Hl) as Hnum.
  destruct (filter (fun v => is_not_None v = true) l) as [|b rest] eqn:E.
  - exists VNone. split; [reflexivity|]. left. split; [reflexivity|].
    intros x Hx. rewrite Forall_forall in Hl.
    destruct (numeric_or_None_cases x (Hl x Hx)) as [-> | [q Hq]]; [reflexivity|].
    exfalso. apply (filter_nil_not_elem_of _ _ x E); [|exact Hx].
    apply (num_is_not_None x q Hq).
  - apply Forall_cons in Hnum as [[qb Hb] Hrest].
    destruct (py_min_from_spec rest Hrest b qb Hb) as (v & q & Hv & Hin & Hq & Hmin).
    exists v. split; [exact Hv|]. right. exists q.
    rewrite <- E in Hin, Hmin. split; [|split; [exact Hq|]].
    + apply list_elem_of_filter in Hin as [_ Hin]. exact Hin.
    + intros x p Hx Hp. apply (Hmin x p); [|exact Hp].
      apply list_elem_of_filter. split; [apply (num_is_not_None x p Hp) | exact Hx].
Qed.
(** ** Construction from parts *)

(** Discharges the side condition that a field listed among the aggregated
    ones holds what the hypothesis says in every part. *)
Ltac numeric_field H := apply H; simpl; tauto.

Section FromParts.

Variable get_localzone_name : string.

(** C8 (amended): for a non-empty list of parts, whatever the force flag,
    the Activity constructed from them has time, localtime and timezone of
    the first part and time_end and localtime_end of the last.  When the
    durations of the parts are durations or None, duration and
    duration_moving are the sums of the total seconds of those present.
    When distance, ascent, descent and calories hold, each across the
    parts, ints or None, or floats or None, they are the sums over the
    parts that have a value, the exact sum for ints and the sum rounded
    addition by addition from the left for floats, with None in place of a
    sum that is zero (so None when no part has a value, and also when the
    values present add up to zero, if only by rounding).  When the fields
    of which an extreme is taken hold finite numbers or None,
    elevation_max, speed_max and heartrate_max are the greatest,
    elevation_min and heartrate_min the least of the values present, None
    when there is none. *)
Theorem new_Activity_from_parts (kwargs : list (Field * value)) (parts : list Activity)
    (force : bool) :
  truthy (getattr (fold_left (fun self kv => setattr self (fst kv) (snd kv)) kwargs
                     (Activity_defaults get_localzone_name)) F_raw) = false ->
  parts <> [] ->
  (forall f, f ∈ [F_duration; F_duration_moving] ->
     Forall (fun v => time_or_None v = true) (values_of f parts)) ->
  (forall f, f ∈ summed_fields ->
     Forall (fun v => int_or_None v = true) (values_of f parts) \/
     Forall (fun v => float_or_None v = true) (values_of f parts)) ->
  (forall f, f ∈ max_fields ++ min_fields ->
     Forall (fun v => numeric_or_None v = true) (values_of f parts)) ->
  exists r first_part last_part,
    new_Activity get_localzone_name kwargs None (Some parts) force = Return r /\
    head parts = Some first_part /\ last parts = Some last_part /\
    getattr r F_time = getattr first_part F_time /\
    getattr r F_localtime = getattr first_part F_localtime /\
    getattr r F_timezone = getattr first_part F_timezone /\
    getattr r F_time_end = getattr last_part F_time_end /\
    getattr r F_localtime_end = getattr last_part F_localtime_end /\
    getattr r F_duration = VTime (seconds_total (values_of F_duration parts)) /\
    getattr r F_duration_moving = VTime (seconds_total (values_of F_duration_moving parts)) /\
    (forall f, f ∈ summed_fields -> is_sum_or_None (values_of f parts) (getattr r f)) /\
    (forall f, f ∈ max_fields -> is_max_or_None (values_of f parts) (getattr r f)) /\
    (forall f, f ∈ min_fields -> is_min_or_None (values_of f parts) (getattr r f)).
Proof.
  intros Hraw Hne Htime Hsum Hnum.
  assert (Hint : forall f, In f [F_duration; F_duration_moving] ->
            Forall (fun v => time_or_None v = true) (values_of f parts)).
  { intros f Hf. apply Htime. apply list_elem_of_In. exact Hf. }
  assert (Hins : forall f, In f summed_fields ->
            Forall (fun v => int_or_None v = true) (values_of f parts) \/
            Forall (fun v => float_or_None v = true) (values_of f parts)).
  { intros f Hf. apply Hsum. apply list_elem_of_In. exact Hf. }
  assert (Hin : forall f, In f (max_fields ++ min_fields) ->
            Forall (fun v => numeric_or_None v = true) (values_of f parts)).
  { intros f Hf. apply Hnum. apply list_elem_of_In. exact Hf. }
  unfold new_Activity, __post_init__. rewrite Hraw.
  assert (Hnonempty : nonempty (Some parts) = true)
    by (destruct parts; [contradiction | reflexivity]).
  rewrite Hnonempty. cbn [nonempty].
  change (default [] (Some parts)) with parts. unfold __init_from_parts__.
  destruct (head parts) as [first_part|] eqn:Hhead;
    [|apply head_None in Hhead; contradiction].
  destruct (last parts) as [last_part|] eqn:Hlast;
    [|apply last_None in Hlast; contradiction].
  unfold truthy_values, present_values.
  pose proof (sum_times_seconds_total (values_of F_duration parts)) as T1.
  pose proof (sum_times_seconds_total (values_of F_duration_moving parts)) as T2.
  destruct (sum_or_None_spec (values_of F_distance parts)) as (v1 & E1 & S1);
    [numeric_field Hins|].
  destruct (sum_or_None_spec (values_of F_ascent parts)) as (v2 & E2 & S2);
    [numeric_field Hins|].
  destruct (sum_or_None_spec (values_of F_descent parts)) as (v3 & E3 & S3);
    [numeric_field Hins|].
  destruct (max_or_None_spec (values_of F_elevation_max parts)) as (v4 & E4 & S4);
    [numeric_field Hin|].
  destruct (min_or_None_spec (values_of F_elevation_min parts)) as (v5 & E5 & S5);
    [numeric_field Hin|].
  destruct (max_or_None_spec (values_of F_speed_max parts)) as (v6 & E6 & S6);
    [numeric_field Hin|].
  destruct (max_or_None_spec (values_of F_heartrate_max parts)) as (v7 & E7 & S7);
    [numeric_field Hin|].
  destruct (min_or_None_spec (values_of F_heartrate_min parts)) as (v8 & E8 & S8);
    [numeric_field Hin|].
  destruct (sum_or_None_spec (values_of F_calories parts)) as (v9 & E9 & S9);
    [numeric_field Hins|].
  unfold values_of in T1, T2, E1, E2, E3, E4, E5, E6, E7, E8, E9.
  rewrite T1 by (numeric_field Hint). cbn [bind].
  rewrite T2 by (numeric_field Hint). cbn [bind].
  rewrite E1. cbn [bind]. rewrite E2. cbn [bind]. rewrite E3. cbn [bind].
  rewrite E4. cbn [bind]. rewrite E5. cbn [bind]. rewrite E6. cbn [bind].
  rewrite E7. cbn [bind]. rewrite E8. cbn [bind]. rewrite E9. cbn [bind].
  eexists _, first_part, last_part. split; [reflexivity|].
  do 9 (split; [reflexivity|]).
  split; [|split]; intros f Hf; apply list_elem_of_In in Hf; simpl in Hf.
  - destruct Hf as [<-|[<-|[<-|[<-|[]]]]]; assumption.
  - destruct Hf as [<-|[<-|[<-|[]]]]; assumption.
  - destruct Hf as [<-|[<-|[]]]; assumption.
Qed.

End FromParts.

Lemma new_Activity_from_parts_witness :
  exists r,
    new_Activity "UTC" [] None
      (Some [activity_of [(F_time, VDateTime 100); (F_duration, VTime 3600);
                          (F_distance, VFloat (b64_of_Z 10)); (F_heartrate_max, VInt 180)];
             activity_of [(F_time, VDateTime 200); (F_duration, VTime 4800);
                          (F_distance, VFloat (b64_of_Z 20)); (F_heartrate_max, VInt 160)]])
      false = Return r /\
    getattr r F_time = VDateTime 100 /\
    getattr r F_duration = VTime 8400 /\
    getattr r F_distance = VFloat (b64_of_Z 30) /\
    is_max_or_None [VInt 180; VInt 160] (getattr r F_heartrate_max).
Proof.
  destruct (new_Activity_from_parts "UTC" []
              [activity_of [(F_time, VDateTime 100); (F_duration, VTime 3600);
                            (F_distance, VFloat (b64_of_Z 10)); (F_heartrate_max, VInt 180)];
               activity_of [(F_time, VDateTime 200); (F_duration, VTime 4800);
                            (F_distance, VFloat (b64_of_Z 20)); (F_heartrate_max, VInt 160)]]
              false)
    as (r & p0 & pn & Hr & Hp0 & _ & Ht & _ & _ & _ & _ & Hd & _ & Hsum & Hmax & _).
  - reflexivity.
  - discriminate.
  - intros f Hf. apply list_elem_of_In in Hf. simpl in Hf.
    destruct Hf as [<-|[<-|[]]]; repeat constructor.
  - intros f Hf. apply list_elem_of_In in Hf. simpl in Hf.
    destruct Hf as [<-|[<-|[<-|[<-|[]]]]];
      solve [left; repeat constructor | right; repeat constructor].
  - intros f Hf. apply list_elem_of_In in Hf. simpl in Hf.
    destruct Hf as [<-|[<-|[<-|[<-|[<-|[]]]]]]; repeat constructor.
  - exists r. split; [exact Hr|]. injection Hp0 as <-. split; [exact Ht|].
    split; [exact Hd|]. split.
    + destruct (Hsum F_distance (list_elem_of_here _ _)) as [[Hi _]|[_ Hv]].
      * apply Forall_cons in Hi as [Hi _]. discriminate Hi.
      * exact Hv.
    + apply (Hmax F_heartrate_max). do 2 apply list_elem_of_further. apply list_elem_of_here.
Defined.

(** C8 (as stated) fails: the only part has the distance 0.0, a value, and
    the constructed activity has no distance at all, not the sum 0.0. *)
Lemma new_Activity_from_parts_zero_is_None :
  exists r,
    new_Activity "UTC" [] None
      (Some [activity_of [(F_distance, VFloat (S754_zero false))]]) false = Return r /\
    is_not_None (getattr (activity_of [(F_distance, VFloat (S754_zero false))]) F_distance)
      = true /\
    getattr r F_distance = VNone.
Proof. eexists. repeat split; vm_compute; reflexivity. Qed.

(** The totals of two parts, evaluated. *)
Example new_Activity_from_two_parts :
  exists r,
    new_Activity "UTC" [] None
      (Some [activity_of [(F_time, VDateTime 100); (F_time_end, VDateTime 150);
                          (F_duration, VTime 3600);
                          (F_distance, VInt 10); (F_heartrate_max, VInt 180);
                          (F_heartrate_min, VInt 100)];
             activity_of [(F_time, VDateTime 200); (F_time_end, VDateTime 250);
                          (F_duration, VTime 4800);
                          (F_distance, VInt 20); (F_heartrate_max, VInt 160);
                          (F_heartrate_min, VInt 80)]]) false = Return r /\
    map (getattr r) [F_time; F_time_end; F_duration; F_duration_moving; F_distance;
                     F_ascent; F_heartrate_max; F_heartrate_min; F_calories] =
      [VDateTime 100; VDateTime 250; VTime 8400; VTime 0; VInt 30; VNone; VInt 180;
       VInt 80; VNone].
Proof. eexists. split; vm_compute; reflexivity. Qed.

(** Sums of floats are rounded: the distances 1e16, 1.0 and -1e16 add up to
    0.0, and the constructed activity has no distance. *)
Example new_Activity_from_parts_rounding :
  exists r,
    new_Activity "UTC" [] None
      (Some [activity_of [(F_distance, VFloat (b64_of_Z (10 ^ 16)))];
             activity_of [(F_distance, VFloat (b64_of_Z 1))];
             activity_of [(F_distance, VFloat (b64_of_Z (- 10 ^ 16)))]]) false = Return r /\
    getattr r F_distance = VNone.
Proof. eexists. split; vm_compute; reflexivity. Qed.
(** ** init_from *)

(** X2: [init_from] merges nothing.  Given another activity it raises
    [NameError] in the first round of its loop, on the undefined name
    [PROTECTED], before it has changed [self], whatever the force flag and
    the raw data; given raw data alone it stores them in [self.raw] and
    raises [TypeError]; given neither it returns [self] as it is. *)
Theorem init_from_outcomes (self : Activity) (raw : value) (force : bool) :
  (forall other, init_from self (Some other) raw force = (self, Some NameError)) /\
  (truthy raw = true ->
     init_from self None raw force = (setattr self F_raw raw, Some TypeError)) /\
  (truthy raw = false -> init_from self None raw force = (self, None)).
Proof.
  split; [|split].
  - intros other. reflexivity.
  - intros Hraw. unfold init_from. rewrite Hraw. reflexivity.
  - intros Hraw. unfold init_from. rewrite Hraw. reflexivity.
Qed.

Lemma init_from_outcomes_witness :
  init_from a_polar (Some a_strava) VNone false = (a_polar, Some NameError) /\
  init_from a_polar None (VDict [("id", VInt 7)]) false
    = (setattr a_polar F_raw (VDict [("id", VInt 7)]), Some TypeError).
Proof.
  destruct (init_from_outcomes a_polar VNone false) as (H1 & _ & _).
  destruct (init_from_outcomes a_polar (VDict [("id", VInt 7)]) false) as (_ & H2 & _).
  split; [apply H1 | apply H2; reflexivity].
Defined.

(** ** tag and untag *)

Lemma all_strs_map_VStr (l : list string) : all_strs (map VStr l) = true.
Proof. induction l as [|s l IH]; [reflexivity | exact IH]. Qed.

Lemma str_le_antisym (a b : string) : str_le a b -> str_le b a -> a = b.
Proof. unfold str_le. intros Hab Hba. apply str_ltb_connex; assumption. Qed.

Lemma remove_first_absent (t : string) (l : list value) :
  VStr t ∉ l -> remove_first t l = None.
Proof.
  induction l as [|v l IH]; intros Hnot; [reflexivity|].
  assert (Hl : VStr t ∉ l) by (intros H; apply Hnot; apply list_elem_of_further; exact H).
  assert (Hv : v <> VStr t) by (intros ->; apply Hnot; apply list_elem_of_here).
  simpl. destruct v; try (rewrite (IH Hl); reflexivity).
  destruct (String.eqb_spec s t) as [->|_]; [contradiction|].
  rewrite (IH Hl). reflexivity.
Qed.

Lemma remove_first_app (t : string) (l1 l2 : list value) :
  VStr t ∉ l1 -> remove_first t (l1 ++ VStr t :: l2) = Some (l1 ++ l2).
Proof.
  induction l1 as [|v l1 IH]; intros Hnot.
  - simpl. rewrite String.eqb_refl. reflexivity.
  - assert (Hl : VStr t ∉ l1) by (intros H; apply Hnot; apply list_elem_of_further; exact H).
    assert (Hv : v <> VStr t) by (intros ->; apply Hnot; apply list_elem_of_here).
    simpl. destruct v; try (rewrite (IH Hl); reflexivity).
    destruct (String.eqb_spec s t) as [->|_]; [contradiction|].
    rewrite (IH Hl). reflexivity.
Qed.

Lemma elem_of_map_VStr (t : string) (l : list string) : VStr t ∈ map VStr l <-> t ∈ l.
Proof.
  split.
  - intros H. apply list_elem_of_fmap in H as (s & [= ->] & Hs). exact Hs.
  - intros H. apply list_elem_of_fmap. exists t. auto.
Qed.

(** X4: [tag( t )] on a list of strings: the tags afterwards are the old ones
    and [t]; nothing else of the activity changes; a tag that is present
    leaves the list as it is, a new one leaves it sorted and one longer;
    tagging again with the same tag changes nothing. *)
Theorem tag_adds_and_sorts (self : Activity) (l : list string) (t : string) :
  getattr self F_tags = VList (map VStr l) ->
  exists r,
    tag self t = Return r /\
    (forall f, f <> F_tags -> getattr r f = getattr self f) /\
    (forall u, u ∈ strs_of (getattr r F_tags) <-> u = t \/ u ∈ l) /\
    (t ∈ l -> getattr r F_tags = getattr self F_tags) /\
    (t ∉ l -> StronglySorted str_le (strs_of (getattr r F_tags)) /\
              length (strs_of (getattr r F_tags)) = S (length l)) /\
    tag r t = Return r.
Proof.
  intros Htags. unfold tag at 1. rewrite Htags, strs_of_VList_VStr.
  destruct (bool_decide (t ∈ l)) eqn:E.
  - apply bool_decide_eq_true in E. exists self. split; [reflexivity|].
    split; [reflexivity|]. split.
    { intros u. rewrite Htags, strs_of_VList_VStr. split; [auto|].
      intros [-> | H]; assumption. }
    split; [intros _; exact Htags|]. split; [intros Hn; contradiction|].
    unfold tag. rewrite Htags, strs_of_VList_VStr.
    rewrite bool_decide_eq_true_2 by exact E. reflexivity.
  - apply bool_decide_eq_false in E. rewrite all_strs_map_VStr.
    eexists. split; [reflexivity|].
    split; [intros f Hf; apply getattr_setattr_ne; exact Hf|].
    rewrite getattr_setattr_eq, strs_of_VList_VStr.
    assert (Hperm : sorted (l ++ [t]) ≡ₚ t :: l).
    { unfold sorted. rewrite sorted_by_perm. rewrite Permutation_app_comm. reflexivity. }
    split.
    { intros u. rewrite Hperm. rewrite elem_of_cons. reflexivity. }
    split; [intros Hin; contradiction|]. split.
    { intros _. split.
      - apply (sorted_by_StronglySorted (fun s => s)).
      - rewrite Hperm. reflexivity. }
    unfold tag. rewrite getattr_setattr_eq, strs_of_VList_VStr.
    rewrite bool_decide_eq_true_2; [reflexivity|].
    rewrite Hperm. apply list_elem_of_here.
Qed.

Lemma tag_adds_and_sorts_witness :
  exists r,
    tag (activity_of [(F_tags, VList [VStr "run"; VStr "city"])]) "alps" = Return r /\
    strs_of (getattr r F_tags) = ["alps"; "city"; "run"].
Proof.
  destruct (tag_adds_and_sorts (activity_of [(F_tags, VList [VStr "run"; VStr "city"])])
              ["run"; "city"] "alps" eq_refl) as (r & Hr & _).
  exists r. split; [exact Hr|].
  vm_compute in Hr. injection Hr as <-. reflexivity.
Defined.

(** X5: [untag( t )] raises [ValueError] when the tag is not in the list, and
    otherwise removes its first occurrence and nothing else. *)
Theorem untag_removes_first_occurrence (self : Activity) (l : list value) (t : string) :
  getattr self F_tags = VList l ->
  (VStr t ∉ l -> untag self t = Raise ValueError) /\
  (forall l1 l2, l = l1 ++ VStr t :: l2 -> VStr t ∉ l1 ->
     exists r, untag self t = Return r /\
       getattr r F_tags = VList (l1 ++ l2) /\
       forall f, f <> F_tags -> getattr r f = getattr self f).
Proof.
  intros Htags. split.
  - intros Hnot. unfold untag. rewrite Htags, (remove_first_absent t l Hnot). reflexivity.
  - intros l1 l2 -> Hnot. unfold untag. rewrite Htags, (remove_first_app t l1 l2 Hnot).
    eexists. split; [reflexivity|]. split; [apply getattr_setattr_eq|].
    intros f Hf. apply getattr_setattr_ne. exact Hf.
Qed.

Lemma untag_removes_first_occurrence_witness :
  untag (activity_of [(F_tags, VList [VStr "run"])]) "alps" = Raise ValueError /\
  exists r, untag (activity_of [(F_tags, VList [VStr "run"; VStr "alps"; VStr "alps"])]) "alps"
              = Return r /\
            getattr r F_tags = VList [VStr "run"; VStr "alps"].
Proof.
  split.
  - apply (untag_removes_first_occurrence (activity_of [(F_tags, VList [VStr "run"])])
             [VStr "run"] "alps" eq_refl).
    intros H. apply list_elem_of_singleton in H. discriminate H.
  - destruct (untag_removes_first_occurrence
                (activity_of [(F_tags, VList [VStr "run"; VStr "alps"; VStr "alps"])])
                [VStr "run"; VStr "alps"; VStr "alps"] "alps" eq_refl) as [_ H].
    destruct (H [VStr "run"] [VStr "alps"] eq_refl) as (r & Hr & Ht & _).
    + intros Hin. apply list_elem_of_singleton in Hin. discriminate Hin.
    + exists r. split; [exact Hr | exact Ht].
Defined.

(** X6: On a sorted list of tags that lacks [t], [tag( t )] followed by
    [untag( t )] gives back the activity as it was. *)
Theorem untag_after_tag (self : Activity) (l : list string) (t : string) :
  getattr self F_tags = VList (map VStr l) ->
  StronglySorted str_le l -> t ∉ l ->
  exists r r',
    tag self t = Return r /\ untag r t = Return r' /\
    forall f, getattr r' f = getattr self f.
Proof.
  intros Htags Hsorted Hnot. unfold tag. rewrite Htags, strs_of_VList_VStr.
  rewrite bool_decide_eq_false_2 by exact Hnot. rewrite all_strs_map_VStr.
  assert (Hperm : sorted (l ++ [t]) ≡ₚ t :: l).
  { unfold sorted. rewrite sorted_by_perm. rewrite Permutation_app_comm. reflexivity. }
  assert (Hin : t ∈ sorted (l ++ [t])) by (rewrite Hperm; apply list_elem_of_here).
  destruct (list_elem_of_split_l _ _ Hin) as (L1 & L2 & HL & HL1).
  assert (Hrest : L1 ++ L2 = l).
  { apply (StronglySorted_unique_strong str_le).
    - intros x y _ _. apply str_le_antisym.
    - pose proof (sorted_by_StronglySorted (fun s => s) (l ++ [t])) as Hs.
      fold (sorted (l ++ [t])) in Hs. rewrite HL in Hs.
      apply StronglySorted_app in Hs as (Hcross & Hs1 & Hs2).
      apply StronglySorted_cons in Hs2 as [_ Hs2].
      apply StronglySorted_app. split; [|split; assumption].
      intros x y Hx Hy. apply Hcross; [exact Hx | apply list_elem_of_further; exact Hy].
    - exact Hsorted.
    - symmetry. apply Permutation_cons_app_inv with t.
      rewrite <- HL. symmetry. exact Hperm. }
  exists (setattr self F_tags (VList (map VStr (sorted (l ++ [t]))))),
         (setattr (setattr self F_tags (VList (map VStr (sorted (l ++ [t])))))
                  F_tags (VList (map VStr l))).
  split; [reflexivity|]. split.
  - unfold untag. rewrite getattr_setattr_eq, HL, map_app. cbn [map].
    rewrite remove_first_app by (rewrite elem_of_map_VStr; exact HL1).
    rewrite <- map_app, Hrest. reflexivity.
  - intros f. destruct (decide (f = F_tags)) as [->|Hf].
    + rewrite getattr_setattr_eq. symmetry. exact Htags.
    + rewrite !getattr_setattr_ne by exact Hf. reflexivity.
Qed.

Lemma untag_after_tag_witness :
  exists r r',
    tag (activity_of [(F_tags, VList [VStr "city"; VStr "run"])]) "alps" = Return r /\
    untag r "alps" = Return r' /\
    getattr r' F_tags = VList [VStr "city"; VStr "run"].
Proof.
  destruct (untag_after_tag (activity_of [(F_tags, VList [VStr "city"; VStr "run"])])
              ["city"; "run"] "alps" eq_refl) as (r & r' & Hr & Hr' & Hf).
  - repeat constructor.
  - intros H. apply list_elem_of_In in H. simpl in H.
    destruct H as [H|[H|[]]]; discriminate H.
  - exists r, r'. split; [exact Hr|]. split; [exact Hr'|]. rewrite Hf. reflexivity.
Defined.

(** ** Inserting and looking up *)

Lemma store_get_cons {A : Type} (k' : Z) (v' : A) (d : store A) (k : Z) :
  store_get ((k', v') :: d) k = if decide (k' = k) then Some v' else store_get d k.
Proof.
  unfold store_get. cbn [list_find]. simpl.
  destruct (decide (k' = k)); [reflexivity|].
  destruct (list_find _ d) as [[i [k2 v2]]|]; reflexivity.
Qed.

Lemma store_get_snoc_eq {A : Type} (d : store A) (n : Z) (v : A) :
  n ∉ store_keys d -> store_get (d ++ [(n, v)]) n = Some v.
Proof.
  induction d as [|[k' v'] d IH]; intros Hn.
  - simpl. rewrite store_get_cons, decide_True by reflexivity. reflexivity.
  - simpl. rewrite store_get_cons. rewrite decide_False.
    + apply IH. intros H. apply Hn. apply list_elem_of_further. exact H.
    + intros ->. apply Hn. apply list_elem_of_here.
Qed.

Lemma store_get_snoc_ne {A : Type} (d : store A) (n k : Z) (v : A) :
  k <> n -> store_get (d ++ [(n, v)]) k = store_get d k.
Proof.
  intros Hne. induction d as [|[k' v'] d IH].
  - simpl. rewrite store_get_cons, decide_False by congruence. reflexivity.
  - simpl. rewrite !store_get_cons. destruct (decide (k' = k)); [reflexivity | exact IH].
Qed.

Lemma store_keys_snoc {A : Type} (d : store A) (n : Z) (v : A) :
  store_keys (d ++ [(n, v)]) = store_keys d ++ [n].
Proof. unfold store_keys. rewrite map_app. reflexivity. Qed.

Lemma NoDup_snoc_fresh (l : list Z) (n : Z) : NoDup l -> n ∉ l -> NoDup (l ++ [n]).
Proof.
  intros Hl Hn. apply NoDup_app. split; [exact Hl|]. split; [|apply NoDup_singleton].
  intros x Hx Hx'. apply list_elem_of_singleton in Hx'. subst x. contradiction.
Qed.

Lemma activities_wf_positive (d : store Activity) :
  activities_wf d -> Forall (fun k => 0 < k) (store_keys d).
Proof.
  intros [_ H]. unfold store_keys. apply Forall_fmap.
  eapply Forall_impl; [exact H|]. intros kv [Hk _]. exact Hk.
Qed.

(** ** Shared objects *)

Lemma store_keys_view {A : Type} (h : heap A) (d : store ref) :
  store_keys (view h d) = store_keys d.
Proof. unfold store_keys, view. rewrite map_map. reflexivity. Qed.

Lemma view_snoc {A : Type} (h : heap A) (d : store ref) (n : Z) (r : ref) :
  view h (d ++ [(n, r)]) = view h d ++ [(n, h r)].
Proof. unfold view. rewrite map_app. reflexivity. Qed.

Lemma update_eq {A : Type} (h : heap A) (r : ref) (a : A) : update h r a r = a.
Proof. unfold update. rewrite decide_True by reflexivity. reflexivity. Qed.

Lemma update_ne {A : Type} (h : heap A) (r r' : ref) (a : A) :
  r' <> r -> update h r a r' = h r'.
Proof. intros Hne. unfold update. rewrite decide_False by exact Hne. reflexivity. Qed.

(** Assigning to an object that the collection does not hold does not show
    in the collection. *)
Lemma view_update_fresh {A : Type} (h : heap A) (d : store ref) (r : ref) (a : A) :
  r ∉ store_values d -> view (update h r a) d = view h d.
Proof.
  intros Hr. unfold view. apply map_ext_in. intros [k r'] Hin. cbn [fst snd].
  rewrite update_ne; [reflexivity|]. intros ->. apply Hr.
  unfold store_values. apply list_elem_of_In in Hin.
  change r with (snd (k, r)). apply list_elem_of_fmap_2. exact Hin.
Qed.

Lemma store_get_elem {A : Type} (d : store A) (k : Z) (v : A) :
  NoDup (store_keys d) -> (k, v) ∈ d -> store_get d k = Some v.
Proof.
  induction d as [|[k' v'] d IH]; intros Hnd Hin; [inversion Hin|].
  cbn [store_keys map fst] in Hnd. apply NoDup_cons in Hnd as [Hk' Hnd].
  rewrite store_get_cons. apply elem_of_cons in Hin as [Heq|Hin].
  - injection Heq as -> ->. rewrite decide_True by reflexivity. reflexivity.
  - rewrite decide_False; [apply IH; assumption|].
    intros ->. apply Hk'. change k with (fst (k, v)).
    apply list_elem_of_fmap_2. exact Hin.
Qed.

Section Inserting.

Variable pop : gset Z -> option Z.
Hypothesis Hpop : pop_spec pop.

(** What [insert_activity] does to a collection with positive keys. *)
Lemma insert_activity_appends (self : ActivityDb) (a : Activity) :
  Forall (fun k => 0 < k) (store_keys (_activities self)) ->
  exists n, 0 < n /\ (n ∉ store_keys (_activities self)) /\
    insert_activity pop self a =
      Return (set_activities self (_activities self ++ [(n, setattr a F_id (VInt n))]),
              VInt n).
Proof.
  intros Hpos. unfold insert_activity.
  destruct (_next_id_returns pop Hpop (_activities self) Hpos) as (n & Hn & Hr & Hk).
  rewrite Hn. cbn [bind]. exists n. split; [|split; [exact Hk|]].
  - apply elem_of_key_range in Hr. destruct (store_keys (_activities self)); lia.
  - rewrite (store_set_fresh _ _ _ Hk). rewrite getattr_setattr_eq. reflexivity.
Qed.

(** The same for the object at [r]: its id is assigned, and its reference is
    appended under the new key. *)
Lemma shared_insert_activity_appends (h : heap Activity) (d : store ref) (r : ref) :
  Forall (fun k => 0 < k) (store_keys d) ->
  exists n, 0 < n /\ (n ∉ store_keys d) /\
    Shared.insert_activity pop h d r =
      Return (update h r (setattr (h r) F_id (VInt n)), d ++ [(n, r)], VInt n).
Proof.
  intros Hpos. unfold Shared.insert_activity.
  destruct (_next_id_returns pop Hpop d Hpos) as (n & Hn & Hr & Hk).
  rewrite Hn. cbn [bind]. exists n. split; [|split; [exact Hk|]].
  - apply elem_of_key_range in Hr. destruct (store_keys d); lia.
  - rewrite (store_set_fresh _ _ _ Hk), update_eq, getattr_setattr_eq. reflexivity.
Qed.

Lemma activities_wf_snoc (d : store Activity) (n : Z) (a : Activity) :
  activities_wf d -> 0 < n -> n ∉ store_keys d -> getattr a F_id = VInt n ->
  activities_wf (d ++ [(n, a)]).
Proof.
  intros [Hnd Hall] Hn Hk Ha. split.
  - rewrite store_keys_snoc. apply NoDup_snoc_fresh; assumption.
  - apply Forall_app. split; [exact Hall|]. constructor; [|constructor].
    split; [exact Hn | exact Ha].
Qed.

(** X7: [insert_activity] on a well-formed collection assigns to the
    caller's object an id that is positive and was not in use, returns it,
    and [get_by_id] of it gives the object.  When the object was not in the
    collection, the collection stays well-formed and every other id gives
    what it gave before.  When it was stored already, under the key [k],
    the record under [k] is the same object and now carries the new id: the
    collection is no longer well-formed. *)
Theorem insert_activity_then_get_by_id (h : heap Activity) (d : store ref) (r : ref) :
  activities_wf (view h d) ->
  exists n h' d',
    Shared.insert_activity pop h d r = Return (h', d', VInt n) /\
    0 < n /\ (n ∉ store_keys d) /\
    h' r = setattr (h r) F_id (VInt n) /\
    Shared.get_by_id h' d' n = Some (setattr (h r) F_id (VInt n)) /\
    (r ∉ store_values d ->
       activities_wf (view h' d') /\
       forall k, k <> n -> Shared.get_by_id h' d' k = Shared.get_by_id h d k) /\
    (forall k, (k, r) ∈ d ->
       Shared.get_by_id h' d' k = Some (setattr (h r) F_id (VInt n)) /\
       ~ activities_wf (view h' d')).
Proof.
  intros Hwf.
  assert (Hpos : Forall (fun k => 0 < k) (store_keys d)).
  { rewrite <- (store_keys_view h). apply activities_wf_positive. exact Hwf. }
  destruct (shared_insert_activity_appends h d r Hpos) as (n & Hn & Hk & Hins).
  set (a := setattr (h r) F_id (VInt n)) in *.
  exists n, (update h r a), (d ++ [(n, r)]).
  split; [exact Hins|]. split; [exact Hn|]. split; [exact Hk|].
  split; [apply update_eq|].
  assert (Hv : view (update h r a) (d ++ [(n, r)]) = view (update h r a) d ++ [(n, a)]).
  { rewrite view_snoc, update_eq. reflexivity. }
  unfold Shared.get_by_id. rewrite Hv. split; [|split].
  - apply store_get_snoc_eq. rewrite store_keys_view. exact Hk.
  - intros Hfresh. rewrite (view_update_fresh h d r a Hfresh). split.
    + apply activities_wf_snoc; [exact Hwf | exact Hn | | apply getattr_setattr_eq].
      rewrite store_keys_view. exact Hk.
    + intros k Hne. apply store_get_snoc_ne. exact Hne.
  - intros k Hin.
    assert (Hkn : k <> n).
    { intros ->. apply Hk. change n with (fst (n, r)).
      apply list_elem_of_fmap_2. exact Hin. }
    assert (Hin' : (k, a) ∈ view (update h r a) d).
    { unfold view. apply list_elem_of_fmap. exists (k, r). split; [|exact Hin].
      cbn [fst snd]. rewrite update_eq. reflexivity. }
    split.
    + rewrite store_get_snoc_ne by exact Hkn. apply store_get_elem; [|exact Hin'].
      rewrite store_keys_view. destruct Hwf as [Hnd _].
      rewrite store_keys_view in Hnd. exact Hnd.
    + intros [_ Hall]. rewrite Forall_forall in Hall.
      destruct (Hall (k, a)) as [_ Hid].
      { apply elem_of_app. left. exact Hin'. }
      cbn [fst snd] in Hid. unfold a in Hid. rewrite getattr_setattr_eq in Hid.
      injection Hid as Hid. apply Hkn. symmetry. exact Hid.
Qed.

(** X8: [insert_activities] on a well-formed collection, for distinct
    objects that are not in it, returns one id for each object, in order;
    the ids are distinct, positive and were not in use, each object is
    stored under its id, after the old records, and the collection stays
    well-formed. *)
Theorem insert_activities_fresh_ids (rs : list ref) :
  forall (h : heap Activity) (d : store ref),
  activities_wf (view h d) -> NoDup rs -> (forall r, r ∈ rs -> r ∉ store_values d) ->
  exists ids h' d',
    Shared.insert_activities pop h d rs = Return (h', d', map VInt ids) /\
    length ids = length rs /\ NoDup ids /\
    (forall n, n ∈ ids -> 0 < n /\ n ∉ store_keys d) /\
    d' = d ++ zip ids rs /\
    activities_wf (view h' d').
Proof.
  induction rs as [|r rest IH]; intros h d Hwf Hnd Hfresh.
  - exists [], h, d. cbn [Shared.insert_activities map length zip zip_with].
    rewrite app_nil_r.
    split; [reflexivity|]. split; [reflexivity|]. split; [apply NoDup_nil_2|].
    split; [intros n Hn; inversion Hn|]. split; [reflexivity | exact Hwf].
  - apply NoDup_cons in Hnd as [Hr Hnd].
    assert (Hpos : Forall (fun k => 0 < k) (store_keys d)).
    { rewrite <- (store_keys_view h). apply activities_wf_positive. exact Hwf. }
    destruct (shared_insert_activity_appends h d r Hpos) as (n & Hn & Hk & Hins).
    set (a := setattr (h r) F_id (VInt n)) in *.
    assert (Hwf1 : activities_wf (view (update h r a) (d ++ [(n, r)]))).
    { rewrite view_snoc, update_eq.
      rewrite (view_update_fresh h d r a (Hfresh r (list_elem_of_here _ _))).
      apply activities_wf_snoc; [exact Hwf | exact Hn | | apply getattr_setattr_eq].
      rewrite store_keys_view. exact Hk. }
    assert (Hfresh1 : forall r', r' ∈ rest -> r' ∉ store_values (d ++ [(n, r)])).
    { intros r' Hr' Hin. unfold store_values in Hin. rewrite map_app in Hin.
      apply elem_of_app in Hin as [Hin|Hin].
      - apply (Hfresh r' (list_elem_of_further _ _ _ Hr')). exact Hin.
      - apply list_elem_of_singleton in Hin. cbn [snd] in Hin. subst r'. contradiction. }
    destruct (IH _ _ Hwf1 Hnd Hfresh1)
      as (ids & h' & d' & Hrest & Hlen & Hnd' & Hids & Hd' & Hwf').
    exists (n :: ids), h', d'. cbn [Shared.insert_activities]. rewrite Hins.
    cbn [bind fst snd]. rewrite Hrest. cbn [bind fst snd map length].
    assert (Hkeys1 : store_keys (d ++ [(n, r)]) = store_keys d ++ [n])
      by apply store_keys_snoc.
    split; [reflexivity|]. split; [rewrite Hlen; reflexivity|]. split; [|split; [|split]].
    + apply NoDup_cons. split; [|exact Hnd'].
      intros Hin. destruct (Hids n Hin) as [_ Hnot]. apply Hnot.
      rewrite Hkeys1. apply elem_of_app. right. apply list_elem_of_here.
    + intros m Hm. apply elem_of_cons in Hm as [-> | Hm]; [split; assumption|].
      destruct (Hids m Hm) as [Hp Hnot]. split; [exact Hp|].
      intros Hin. apply Hnot. rewrite Hkeys1. apply elem_of_app. left. exact Hin.
    + rewrite Hd', <- app_assoc. reflexivity.
    + exact Hwf'.
Qed.

End Inserting.

Lemma activities_wf_nil : activities_wf [].
Proof. split; [apply NoDup_nil_2 | constructor]. Qed.

Lemma insert_activity_then_get_by_id_witness :
  exists n h' d',
    Shared.insert_activity pop_by_slot (fun _ => a_strava) [] 1%positive
      = Return (h', d', VInt n) /\
    Shared.get_by_id h' d' n = Some (setattr a_strava F_id (VInt n)).
Proof.
  destruct (insert_activity_then_get_by_id pop_by_slot pop_by_slot_spec
              (fun _ => a_strava) [] 1%positive activities_wf_nil)
    as (n & h' & d' & H1 & _ & _ & _ & H2 & _).
  exists n, h', d'. split; assumption.
Defined.

Lemma insert_activities_fresh_ids_witness :
  exists ids h' d',
    Shared.insert_activities pop_by_slot
        (fun r => if decide (r = 1%positive) then a_polar else a_strava) []
        [1%positive; 2%positive]
      = Return (h', d', map VInt ids) /\
    length ids = 2%nat /\ NoDup ids /\ d' = zip ids [1%positive; 2%positive].
Proof.
  destruct (insert_activities_fresh_ids pop_by_slot pop_by_slot_spec
              [1%positive; 2%positive]
              (fun r => if decide (r = 1%positive) then a_polar else a_strava) []
              activities_wf_nil)
    as (ids & h' & d' & H1 & H2 & H3 & _ & H4 & _).
  - apply (bool_decide_unpack _). vm_compute. exact I.
  - intros r _ Hin. inversion Hin.
  - exists ids, h', d'. split; [exact H1|]. split; [exact H2|]. split; [exact H3 | exact H4].
Defined.

(** The same object inserted twice: it is stored under both ids and carries
    the second one. *)
Example insert_activities_same_object :
  exists h' d',
    Shared.insert_activities pop_by_slot (fun _ => a_strava) [] [1%positive; 1%positive]
      = Return (h', d', [VInt 1; VInt 2]) /\
    d' = [(1, 1%positive); (2, 1%positive)] /\
    (fun a => getattr a F_id) <$> Shared.get_by_id h' d' 1 = Some (VInt 2).
Proof.
  eexists _, _. split; [vm_compute; reflexivity|]. split; [reflexivity|].
  vm_compute. reflexivity.
Qed.

(** ** Resources *)

Lemma resources_wf_snoc (d : store Resource.t) (n : Z) (r : Resource.t) :
  resources_wf d -> 0 < n -> n ∉ store_keys d -> Resource.id r = n ->
  resources_wf (d ++ [(n, r)]).
Proof.
  intros [Hnd Hall] Hn Hk Hid. split.
  - rewrite store_keys_snoc. apply NoDup_snoc_fresh; assumption.
  - apply Forall_app. split; [exact Hall|]. constructor; [|constructor]. auto.
Qed.

Lemma contains_resource_true (self : ActivityDb) (u p : string) :
  contains_resource self u p = true <->
  exists r, r ∈ resources self /\ Resource.uid r = u /\ Resource.path r = p.
Proof.
  unfold contains_resource. rewrite existsb_exists. split.
  - intros (r & Hin & H). apply andb_true_iff in H as [Hu Hp].
    apply String.eqb_eq in Hu. apply String.eqb_eq in Hp.
    exists r. rewrite list_elem_of_In. auto.
  - intros (r & Hin & Hu & Hp). exists r. rewrite <- list_elem_of_In.
    split; [exact Hin|]. apply andb_true_iff. rewrite Hu, Hp, !String.eqb_refl. auto.
Qed.

(** The first item of a list filtered twice is the first item that passes
    both tests. *)
Lemma head_filter_filter {A : Type} (P Q : A -> Prop)
    `{!forall x, Decision (P x)} `{!forall x, Decision (Q x)} (l : list A) :
  head (filter Q (filter P l)) = snd <$> list_find (fun x => P x /\ Q x) l.
Proof.
  induction l as [|x l IH]; [reflexivity|].
  cbn [list_find]. rewrite filter_cons.
  destruct (decide (P x)) as [HP|HP].
  - rewrite filter_cons. destruct (decide (Q x)) as [HQ|HQ].
    + rewrite decide_True by auto. reflexivity.
    + rewrite decide_False by tauto. rewrite IH.
      destruct (list_find _ l) as [[i y]|]; reflexivity.
  - rewrite decide_False by tauto. rewrite IH.
    destruct (list_find _ l) as [[i y]|]; reflexivity.
Qed.

(** X9: [contains_resource( uid, path )] tells whether
    [get_resource_by_uid_path( uid, path )] finds a resource, and for a
    non-empty path the resource found is the first one of
    [find_resources( uid, path )]; with an empty path [find_resources]
    does not look at the path at all. *)
Theorem resource_lookups_agree (self : ActivityDb) (u p : string) :
  (contains_resource self u p = true <-> is_Some (get_resource_by_uid_path self u p)) /\
  (p <> EmptyString ->
     get_resource_by_uid_path self u p = head (find_resources self u (Some p))) /\
  find_resources self u (Some EmptyString) = get_resources_by_uid self u /\
  find_resources self u None = get_resources_by_uid self u.
Proof.
  split; [|split; [|split; reflexivity]].
  - rewrite contains_resource_true. split.
    + intros (r & Hin & Hu & Hp).
      destruct (get_resource_by_uid_path self u p) eqn:E; [eexists; reflexivity|].
      exfalso. rewrite get_resource_by_uid_path_None in E. apply (E r Hin). auto.
    + intros [r Hr]. destruct (get_resource_by_uid_path_Some _ _ _ _ Hr)
        as (i & k & Hi & Hu & Hp).
      exists r. split; [|auto]. unfold resources, store_values.
      change r with (snd (k, r)). apply list_elem_of_fmap_2.
      eapply list_elem_of_lookup_2. exact Hi.
  - intros Hp. unfold find_resources, get_resource_by_uid_path.
    destruct (String.eqb_spec p EmptyString) as [->|_]; [contradiction|].
    cbn [negb]. symmetry. apply head_filter_filter.
Qed.

Lemma resource_lookups_agree_witness :
  get_resource_by_uid_path db_one_resource "polar:1" "1.gpx"
    = head (find_resources db_one_resource "polar:1" (Some "1.gpx")).
Proof.
  destruct (resource_lookups_agree db_one_resource "polar:1" "1.gpx") as (_ & H & _).
  apply H. discriminate.
Defined.

Section UpsertInvariant.

Variable pop : gset Z -> option Z.
Hypothesis Hpop : pop_spec pop.

(** X10: [insert_resource] on a well-formed collection, for an object that
    is not in it, assigns to the object an id that is positive and was not
    in use and returns it; the collection stays well-formed, the object is
    found under the returned id and by its uid and path, and every other id
    gives what it gave before. *)
Theorem insert_resource_then_found (h : heap Resource.t) (d : store ref) (r : ref) :
  resources_wf (view h d) -> r ∉ store_values d ->
  exists n h' d',
    Shared.insert_resource pop h d r = Return (h', d', n) /\
    0 < n /\ (n ∉ store_keys d) /\
    h' r = Resource.set_id (h r) n /\
    resources_wf (view h' d') /\
    Shared.get_resource h' d' n = Some (Resource.set_id (h r) n) /\
    (forall k, k <> n -> Shared.get_resource h' d' k = Shared.get_resource h d k) /\
    Shared.contains_resource h' d' (Resource.uid (h r)) (Resource.path (h r)) = true.
Proof.
  intros Hwf Hfresh. unfold Shared.insert_resource.
  assert (Hpos' : Forall (fun k => 0 < k) (store_keys d)).
  { rewrite <- (store_keys_view h). apply resources_wf_positive. exact Hwf. }
  destruct (_next_id_returns pop Hpop d Hpos') as (n & Hn & Hr & Hk).
  rewrite Hn. cbn [bind]. rewrite (store_set_fresh _ _ _ Hk), update_eq.
  assert (Hpos : 0 < n).
  { apply elem_of_key_range in Hr. destruct (store_keys d); lia. }
  set (a := Resource.set_id (h r) n).
  eexists n, _, _. split; [reflexivity|]. split; [exact Hpos|]. split; [exact Hk|].
  split; [apply update_eq|].
  assert (Hv : view (update h r a) (d ++ [(n, r)]) = view h d ++ [(n, a)]).
  { rewrite view_snoc, update_eq, (view_update_fresh h d r a Hfresh). reflexivity. }
  unfold Shared.get_resource, Shared.contains_resource. rewrite Hv.
  split; [|split; [|split]].
  - apply resources_wf_snoc; [exact Hwf | exact Hpos | | reflexivity].
    rewrite store_keys_view. exact Hk.
  - apply store_get_snoc_eq. rewrite store_keys_view. exact Hk.
  - intros k Hne. apply store_get_snoc_ne. exact Hne.
  - apply existsb_exists. exists a. split.
    + unfold store_values. rewrite map_app. apply in_or_app. right. left. reflexivity.
    + cbn [Resource.uid Resource.path a Resource.set_id]. rewrite !String.eqb_refl. reflexivity.
Qed.

(** X11: When [upsert_resource] replaces a stored resource, the collection keeps
    its keys and its size, and it stays well-formed exactly when the
    incoming resource carries the id of the one it replaces: the method
    does not set the id of the resource it stores. *)
Theorem upsert_resource_keeps_wf_iff_same_id (self : ActivityDb) (r existing : Resource.t) :
  resources_wf (_resources self) ->
  get_resource_by_uid_path self (Resource.uid r) (Resource.path r) = Some existing ->
  exists self',
    upsert_resource pop self r = Return (self', Resource.id existing) /\
    store_keys (_resources self') = store_keys (_resources self) /\
    get_resource self' (Resource.id existing) = Some r /\
    (resources_wf (_resources self') <-> Resource.id r = Resource.id existing).
Proof.
  intros Hwf Hget. unfold upsert_resource. rewrite Hget.
  destruct (get_resource_by_uid_path_Some _ _ _ _ Hget) as (i & k & Hi & _ & _).
  destruct Hwf as [Hnd Hall].
  assert (Hk : Resource.id existing = k).
  { rewrite Forall_forall in Hall.
    apply (Hall (k, existing)). eapply list_elem_of_lookup_2. exact Hi. }
  subst k. rewrite (store_set_at _ i _ existing r Hnd Hi).
  eexists. split; [reflexivity|]. cbn [_resources set_resources].
  assert (Hkeys : store_keys (<[i := (Resource.id existing, r)]> (_resources self))
                  = store_keys (_resources self)).
  { unfold store_keys. rewrite list_fmap_insert. apply list_insert_id.
    rewrite list_lookup_fmap, Hi. reflexivity. }
  split; [exact Hkeys|]. split.
  - unfold get_resource. cbn [_resources set_resources]. unfold store_get.
    assert (Hfind : list_find (fun kv : Z * Resource.t => fst kv = Resource.id existing)
                      (<[i := (Resource.id existing, r)]> (_resources self))
                    = Some (i, (Resource.id existing, r))).
    { apply list_find_Some. split; [|split; [reflexivity|]].
      - apply list_lookup_insert_eq. eapply lookup_lt_Some. exact Hi.
      - intros j [k' r'] Hj Hlt Hkey. cbn [fst] in Hkey. subst k'.
        rewrite list_lookup_insert_ne in Hj by lia.
        assert (Hij : j = i).
        { eapply (NoDup_lookup (store_keys (_resources self))); [exact Hnd| |].
          - unfold store_keys. rewrite list_lookup_fmap, Hj. reflexivity.
          - unfold store_keys. rewrite list_lookup_fmap, Hi. reflexivity. }
        lia. }
    rewrite Hfind. reflexivity.
  - split.
    + intros [_ Hall']. rewrite Forall_forall in Hall'.
      apply (Hall' (Resource.id existing, r)).
      apply list_elem_of_insert. eapply lookup_lt_Some. exact Hi.
    + intros Hid. split; [rewrite Hkeys; exact Hnd|].
      apply Forall_insert; [exact Hall|]. split; [|exact Hid].
      rewrite Forall_forall in Hall.
      apply (Hall (Resource.id existing, existing)). eapply list_elem_of_lookup_2. exact Hi.
Qed.

End UpsertInvariant.

Lemma db_one_resource_wf : resources_wf (_resources db_one_resource).
Proof. split; simpl; [apply NoDup_singleton | repeat constructor]. Qed.

Lemma insert_resource_then_found_witness :
  exists n h' d',
    Shared.insert_resource pop_by_slot (fun _ => r_new) [] 1%positive = Return (h', d', n) /\
    Shared.get_resource h' d' n = Some (Resource.set_id r_new n).
Proof.
  destruct (insert_resource_then_found pop_by_slot pop_by_slot_spec (fun _ => r_new) []
              1%positive) as (n & h' & d' & H1 & _ & _ & _ & _ & H2 & _).
  - split; [apply NoDup_nil_2 | constructor].
  - intros Hin. inversion Hin.
  - exists n, h', d'. split; assumption.
Defined.

Lemma upsert_resource_keeps_wf_iff_same_id_witness :
  exists self',
    upsert_resource pop_by_slot db_one_resource r_new = Return (self', 1) /\
    ~ resources_wf (_resources self').
Proof.
  destruct (upsert_resource_keeps_wf_iff_same_id pop_by_slot db_one_resource r_new r_stored
              db_one_resource_wf eq_refl) as (self' & H1 & _ & _ & H2).
  exists self'. split; [exact H1|]. intros Hwf. apply H2 in Hwf. discriminate Hwf.
Defined.

(** ** Upserting a resource twice *)

(** The resource that [get_resource_by_uid_path] finds, with its place in
    the collection: no resource before it has the uid and the path. *)
Lemma get_resource_by_uid_path_first (self : ActivityDb) (u p : string)
    (existing : Resource.t) :
  get_resource_by_uid_path self u p = Some existing ->
  exists i k, _resources self !! i = Some (k, existing) /\
    Resource.uid existing = u /\ Resource.path existing = p /\
    forall j kv, _resources self !! j = Some kv -> (j < i)%nat ->
      ~ (Resource.uid (snd kv) = u /\ Resource.path (snd kv) = p).
Proof.
  unfold get_resource_by_uid_path, resources, store_values. intros H.
  destruct (list_find _ _) as [[i x]|] eqn:E; simpl in H; [|discriminate H].
  injection H as ->. apply list_find_Some in E as (Hi & [Hu Hp] & Hfirst).
  rewrite list_lookup_fmap in Hi.
  destruct (_resources self !! i) as [[k r]|] eqn:Ei; simpl in Hi; [|discriminate Hi].
  injection Hi as ->. exists i, k. split; [exact Ei|]. split; [exact Hu|].
  split; [exact Hp|]. intros j kv Hj Hlt. apply (Hfirst j (snd kv)); [|exact Hlt].
  rewrite list_lookup_fmap, Hj. reflexivity.
Qed.

Lemma get_resource_by_uid_path_found (self : ActivityDb) (u p : string) (i : nat) (k : Z)
    (r : Resource.t) :
  _resources self !! i = Some (k, r) ->
  Resource.uid r = u -> Resource.path r = p ->
  (forall j kv, _resources self !! j = Some kv -> (j < i)%nat ->
     ~ (Resource.uid (snd kv) = u /\ Resource.path (snd kv) = p)) ->
  get_resource_by_uid_path self u p = Some r.
Proof.
  intros Hi Hu Hp Hfirst. unfold get_resource_by_uid_path, resources, store_values.
  assert (E : list_find (fun r => Resource.uid r = u /\ Resource.path r = p)
                (map snd (_resources self)) = Some (i, r)).
  { apply list_find_Some. split; [|split; [auto|]].
    - rewrite list_lookup_fmap, Hi. reflexivity.
    - intros j y Hj Hlt. rewrite list_lookup_fmap in Hj.
      destruct (_resources self !! j) as [kv|] eqn:Ej; simpl in Hj; [|discriminate Hj].
      injection Hj as <-. apply (Hfirst j kv Ej Hlt). }
  rewrite E. reflexivity.
Qed.

Lemma store_get_insert_at {A : Type} (d : store A) (i : nat) (k : Z) (v v' : A) :
  NoDup (store_keys d) -> d !! i = Some (k, v) ->
  store_get (<[i := (k, v')]> d) k = Some v'.
Proof.
  intros Hnd Hi. apply store_get_elem.
  - unfold store_keys. rewrite list_fmap_insert. cbn [fst].
    rewrite list_insert_id; [exact Hnd|]. rewrite list_lookup_fmap, Hi. reflexivity.
  - apply list_elem_of_insert. eapply lookup_lt_Some. exact Hi.
Qed.

Section UpsertResourceTwice.

Variable pop : gset Z -> option Z.

(** C6 (the defect): in a well-formed collection that holds a resource with
    the uid and the path of [r], [upsert_resource( r )] stores [r] in the
    place of the first such resource and returns the id of that resource,
    but it leaves the id of [r] as it is.  When that id is not a key of the
    collection, the next [upsert_resource] of a resource [r2] with the same
    uid and path finds [r], takes the id of [r] for the key, and stores [r2]
    under it: [r] is not replaced, the collection holds two resources with
    the same uid and path, and the id returned is not the key under which
    the resource found is stored. *)
Theorem upsert_resource_twice_duplicates (self : ActivityDb) (r r2 existing : Resource.t) :
  resources_wf (_resources self) ->
  get_resource_by_uid_path self (Resource.uid r) (Resource.path r) = Some existing ->
  Resource.id r ∉ store_keys (_resources self) ->
  Resource.uid r2 = Resource.uid r -> Resource.path r2 = Resource.path r ->
  exists self1 self2,
    upsert_resource pop self r = Return (self1, Resource.id existing) /\
    store_keys (_resources self1) = store_keys (_resources self) /\
    get_resource self1 (Resource.id existing) = Some r /\
    upsert_resource pop self1 r2 = Return (self2, Resource.id r) /\
    get_resource self2 (Resource.id existing) = Some r /\
    get_resource self2 (Resource.id r) = Some r2 /\
    _resources self2 = _resources self1 ++ [(Resource.id r, r2)].
Proof.
  intros [Hnd Hall] Hget Hfresh Hu2 Hp2.
  destruct (get_resource_by_uid_path_first _ _ _ _ Hget) as (i & k & Hi & Hu & Hp & Hfirst).
  assert (Hk : Resource.id existing = k).
  { rewrite Forall_forall in Hall.
    apply (Hall (k, existing)). eapply list_elem_of_lookup_2. exact Hi. }
  subst k.
  set (d1 := <[i := (Resource.id existing, r)]> (_resources self)).
  assert (Hkeys : store_keys d1 = store_keys (_resources self)).
  { unfold store_keys, d1. rewrite list_fmap_insert. apply list_insert_id.
    rewrite list_lookup_fmap, Hi. reflexivity. }
  assert (Hget1 : store_get d1 (Resource.id existing) = Some r)
    by (apply (store_get_insert_at _ i _ existing r Hnd Hi)).
  assert (Hfound : get_resource_by_uid_path (set_resources self d1)
                     (Resource.uid r2) (Resource.path r2) = Some r).
  { apply (get_resource_by_uid_path_found _ _ _ i (Resource.id existing)).
    - cbn [_resources set_resources]. unfold d1. apply list_lookup_insert_eq.
      eapply lookup_lt_Some. exact Hi.
    - symmetry. exact Hu2.
    - symmetry. exact Hp2.
    - cbn [_resources set_resources]. intros j kv Hj Hlt. unfold d1 in Hj.
      rewrite list_lookup_insert_ne in Hj by lia. rewrite Hu2, Hp2.
      apply (Hfirst j kv Hj Hlt). }
  exists (set_resources self d1),
         (set_resources (set_resources self d1) (d1 ++ [(Resource.id r, r2)])).
  split; [|split; [exact Hkeys|split; [exact Hget1|split; [|split; [|split]]]]].
  - unfold upsert_resource. rewrite Hget.
    rewrite (store_set_at _ i _ existing r Hnd Hi). reflexivity.
  - unfold upsert_resource. rewrite Hfound. cbn [_resources set_resources].
    rewrite store_set_fresh by (rewrite Hkeys; exact Hfresh). reflexivity.
  - unfold get_resource. cbn [_resources set_resources].
    rewrite store_get_snoc_ne; [exact Hget1|].
    intros Heq. apply Hfresh. rewrite <- Heq. change (Resource.id existing)
      with (fst (Resource.id existing, existing)).
    apply list_elem_of_fmap_2. eapply list_elem_of_lookup_2. exact Hi.
  - unfold get_resource. cbn [_resources set_resources].
    apply store_get_snoc_eq. rewrite Hkeys. exact Hfresh.
  - reflexivity.
Qed.

End UpsertResourceTwice.

Lemma upsert_resource_twice_duplicates_witness :
  exists self1 self2,
    upsert_resource pop_by_slot db_one_resource r_new = Return (self1, 1) /\
    upsert_resource pop_by_slot self1
        (Resource.mk 0 "polar:1" "1.gpx" "application/gpx+xml" "newer" 200)
      = Return (self2, 0) /\
    get_resource self2 1 = Some r_new /\
    _resources self2 =
      [(1, r_new); (0, Resource.mk 0 "polar:1" "1.gpx" "application/gpx+xml" "newer" 200)].
Proof.
  destruct (upsert_resource_twice_duplicates pop_by_slot db_one_resource r_new
              (Resource.mk 0 "polar:1" "1.gpx" "application/gpx+xml" "newer" 200) r_stored
              db_one_resource_wf eq_refl)
    as (self1 & self2 & H1 & _ & _ & H2 & H3 & _ & H4).
  - intros Hin. apply list_elem_of_singleton in Hin. discriminate Hin.
  - reflexivity.
  - reflexivity.
  - exists self1, self2. split; [exact H1|]. split; [exact H2|]. split; [exact H3|].
    rewrite H4. injection H1 as <-. reflexivity.
Defined.

(** ** Looking activities up *)

Lemma shares_uid_singleton (u : string) (a : Activity) :
  shares_uid [u] a = true <-> u ∈ uids a.
Proof.
  unfold shares_uid. cbn [existsb]. rewrite orb_false_r. apply bool_decide_eq_true.
Qed.

Lemma head_filter_list_find {A : Type} (P : A -> Prop) `{!forall x, Decision (P x)}
    (l : list A) :
  head (filter P l) = snd <$> list_find P l.
Proof.
  induction l as [|x l IH]; [reflexivity|].
  cbn [list_find]. rewrite filter_cons. destruct (decide (P x)); [reflexivity|].
  rewrite IH. destruct (list_find P l) as [[i y]|]; reflexivity.
Qed.

(** X12: [get_by_uid( uid )] finds the activity that [get_activity_by_uids( [uid] )]
    finds, the first one in the collection that has the uid, and
    [contains_activity( uid )] tells whether there is one. *)
Theorem activity_lookups_agree (self : ActivityDb) (u : string) :
  get_by_uid self u = (fun p => snd (snd p)) <$> get_activity_by_uids self [u] /\
  get_by_uid self u = head (filter (fun a => u ∈ uids a) (activities self)) /\
  (contains_activity self u = true <-> is_Some (get_by_uid self u)).
Proof.
  unfold contains_activity, get_by_uid, get_activity_by_uids, activities, store_values.
  split; [|split].
  - rewrite list_find_fmap.
    rewrite (list_find_ext _ (fun kv : Z * Activity => shares_uid [u] (snd kv) = true)).
    + destruct (list_find _ _) as [[i [k a]]|]; reflexivity.
    + intros [k a]. cbn [compose snd]. symmetry. apply shares_uid_singleton.
  - symmetry. apply head_filter_list_find.
  - rewrite existsb_exists. split.
    + intros (a & Hin & Hu). apply bool_decide_eq_true in Hu.
      apply list_elem_of_In in Hin.
      destruct (list_find_elem_of (fun a => u ∈ uids a) _ a Hin Hu) as [[i x] Hx].
      rewrite Hx. eexists. reflexivity.
    + intros [a Ha].
      destruct (list_find _ _) as [[i x]|] eqn:E; [|discriminate Ha].
      apply list_find_Some in E as (Hi & Hu & _).
      exists x. split; [|apply bool_decide_eq_true; exact Hu].
      apply list_elem_of_In. eapply list_elem_of_lookup_2. exact Hi.
Qed.

Section UpsertTwice.

Variable pop : gset Z -> option Z.
Hypothesis Hpop : pop_spec pop.

Lemma get_activity_by_uids_nil (self : ActivityDb) : get_activity_by_uids self [] = None.
Proof.
  unfold get_activity_by_uids. apply list_find_None. apply Forall_forall.
  intros kv _. discriminate.
Qed.

Lemma shared_get_activity_by_uids_nil (h : heap Activity) (d : store ref) :
  Shared.get_activity_by_uids h d [] = None.
Proof.
  unfold Shared.get_activity_by_uids.
  assert (E : list_find (fun kr : Z * ref => shares_uid [] (h (snd kr)) = true) d = None).
  { apply list_find_None. apply Forall_forall. intros kr _. discriminate. }
  rewrite E. reflexivity.
Qed.

(** X13: An activity without uids matches no stored activity, not even
    itself: every [upsert_activity] of it takes the inserting branch,
    assigns a new id to the object and stores it under one more key (and
    returns None), whether the object is in the collection already or
    not; no other object changes, and the object still has no uids. *)
Theorem upsert_activity_without_uids_inserts (h : heap Activity) (d : store ref) (r : ref) :
  uids (h r) = [] ->
  Forall (fun k => 0 < k) (store_keys d) ->
  exists n h' d',
    Shared.upsert_activity pop h d r = Return (h', d', VNone) /\
    0 < n /\ (n ∉ store_keys d) /\
    d' = d ++ [(n, r)] /\
    h' r = setattr (h r) F_id (VInt n) /\
    (forall r', r' <> r -> h' r' = h r') /\
    uids (h' r) = [].
Proof.
  intros Hu Hpos. unfold Shared.upsert_activity.
  rewrite Hu, shared_get_activity_by_uids_nil.
  destruct (shared_insert_activity_appends pop Hpop h d r Hpos) as (n & Hn & Hk & Hins).
  rewrite Hins. cbn [bind fst]. eexists n, _, _. split; [reflexivity|].
  split; [exact Hn|]. split; [exact Hk|]. split; [reflexivity|].
  split; [apply update_eq|]. split.
  - intros r' Hne. apply update_ne. exact Hne.
  - rewrite update_eq. unfold uids in *. rewrite getattr_setattr_ne by discriminate.
    exact Hu.
Qed.

(** X14: After [upsert_activity] has inserted an activity that has a uid, an
    upsert of an activity with the same uids finds the stored one and adds
    no record. *)
Theorem upsert_activity_again_adds_nothing (self : ActivityDb) (a a2 : Activity) :
  Forall (fun k => 0 < k) (store_keys (_activities self)) ->
  (forall b, b ∈ activities self -> shares_uid (uids a) b = false) ->
  uids a <> [] -> uids a2 = uids a ->
  exists self1 self2 v,
    upsert_activity pop self a = Return (self1, VNone) /\
    upsert_activity pop self1 a2 = Return (self2, v) /\
    length (_activities self1) = S (length (_activities self)) /\
    store_keys (_activities self2) = store_keys (_activities self1).
Proof.
  intros Hpos Hnone Hne Hsame.
  assert (E : get_activity_by_uids self (uids a) = None).
  { unfold get_activity_by_uids. apply list_find_None. apply Forall_forall.
    intros [k b] Hin. cbn [snd]. rewrite (Hnone b); [discriminate|].
    unfold activities, store_values. change b with (snd (k, b)).
    apply list_elem_of_fmap_2. exact Hin. }
  destruct (insert_activity_appends pop Hpop self a Hpos) as (n & _ & Hk & Hins).
  set (stored := setattr a F_id (VInt n)).
  set (self1 := set_activities self (_activities self ++ [(n, stored)])).
  assert (Hself : shares_uid (uids a) stored = true).
  { unfold shares_uid. destruct (uids a) as [|u l] eqn:Eu; [contradiction|].
    cbn [existsb]. apply orb_true_iff. left. apply bool_decide_eq_true.
    unfold uids in *. subst stored. rewrite getattr_setattr_ne by discriminate.
    rewrite Eu. apply list_elem_of_here. }
  assert (Hfind : get_activity_by_uids self1 (uids a2)
                  = Some (length (_activities self), (n, stored))).
  { rewrite Hsame. unfold get_activity_by_uids. subst self1.
    cbn [_activities set_activities]. apply list_find_app_Some. right.
    split; [lia|]. split; [exact E|]. rewrite Nat.sub_diag.
    cbn [list_find snd]. rewrite decide_True by exact Hself. reflexivity. }
  exists self1, (set_activities self1
                   (<[length (_activities self) := (n, merged stored [a2] false)]>
                      (_activities self1))),
         (getattr (merged stored [a2] false) F_id).
  split; [|split; [|split]].
  - unfold upsert_activity. rewrite E, Hins. reflexivity.
  - unfold upsert_activity. rewrite Hfind. reflexivity.
  - subst self1. cbn [_activities set_activities]. rewrite length_app. cbn [length]. lia.
  - cbn [_activities set_activities]. unfold store_keys.
    rewrite list_fmap_insert. apply list_insert_id.
    subst self1. cbn [_activities set_activities].
    rewrite list_lookup_fmap, lookup_app_r by lia. rewrite Nat.sub_diag. reflexivity.
Qed.

End UpsertTwice.

Lemma upsert_activity_without_uids_inserts_witness :
  exists n h' d',
    Shared.upsert_activity pop_by_slot (fun _ => activity_of []) [(1, 1%positive)] 1%positive
      = Return (h', d', VNone) /\
    d' = [(1, 1%positive); (n, 1%positive)] /\
    h' 1%positive = setattr (activity_of []) F_id (VInt n).
Proof.
  destruct (upsert_activity_without_uids_inserts pop_by_slot pop_by_slot_spec
              (fun _ => activity_of []) [(1, 1%positive)] 1%positive eq_refl)
    as (n & h' & d' & H1 & _ & _ & H2 & H3 & _).
  - repeat constructor.
  - exists n, h', d'. split; [exact H1|]. split; [exact H2 | exact H3].
Defined.

Lemma upsert_activity_again_adds_nothing_witness :
  exists self1 self2 v,
    upsert_activity pop_by_slot (db_of [] []) a_polar = Return (self1, VNone) /\
    upsert_activity pop_by_slot self1 a_polar = Return (self2, v) /\
    store_keys (_activities self2) = store_keys (_activities self1).
Proof.
  destruct (upsert_activity_again_adds_nothing pop_by_slot pop_by_slot_spec
              (db_of [] []) a_polar a_polar)
    as (self1 & self2 & v & H1 & H2 & _ & H3).
  - constructor.
  - intros b Hb. inversion Hb.
  - discriminate.
  - reflexivity.
  - exists self1, self2, v. split; [exact H1|]. split; assumption.
Defined.

(** ** Resources of several uids *)

Lemma filter_elem_of_cons_perm (u : string) (l : list string) (rs : list Resource.t) :
  u ∉ l ->
  filter (fun r => Resource.uid r ∈ u :: l) rs ≡ₚ
  filter (fun r => Resource.uid r = u) rs ++ filter (fun r => Resource.uid r ∈ l) rs.
Proof.
  intros Hu. induction rs as [|r rs IH]; [reflexivity|].
  rewrite !filter_cons.
  destruct (decide (Resource.uid r = u)) as [E|E].
  - rewrite decide_True by (rewrite E; apply list_elem_of_here).
    rewrite decide_False by (rewrite E; exact Hu).
    cbn [app]. rewrite IH. reflexivity.
  - destruct (decide (Resource.uid r ∈ l)) as [Hin|Hnin].
    + rewrite decide_True by (apply list_elem_of_further; exact Hin).
      rewrite IH. apply Permutation_middle.
    + rewrite decide_False; [exact IH|].
      intros Hc. apply elem_of_cons in Hc as [Hc|Hc]; contradiction.
Qed.

(** X15: [get_resources_by_uids( uids )] and [find_all_resources( uids )] hold the
    same resources; for uids without repetition the one list is a
    rearrangement of the other (grouped by uid instead of in db order). *)
Theorem get_resources_by_uids_find_all_resources (self : ActivityDb) (l : list string) :
  (forall r, r ∈ get_resources_by_uids self l <-> r ∈ find_all_resources self l) /\
  (NoDup l -> get_resources_by_uids self l ≡ₚ find_all_resources self l).
Proof.
  unfold get_resources_by_uids, find_all_resources, get_resources_by_uid. split.
  - intros r. rewrite list_elem_of_filter, list_elem_of_In, in_concat. split.
    + intros (rs & Hrs & Hr). apply in_map_iff in Hrs as (u & <- & Hu).
      apply list_elem_of_In, list_elem_of_filter in Hr as [Hru Hr]. rewrite Hru.
      split; [apply list_elem_of_In; exact Hu | exact Hr].
    + intros [Hu Hr].
      exists (filter (fun r' => Resource.uid r' = Resource.uid r) (resources self)). split.
      * apply in_map_iff. exists (Resource.uid r).
        split; [reflexivity | apply list_elem_of_In; exact Hu].
      * apply list_elem_of_In, list_elem_of_filter. auto.
  - induction 1 as [|u l Hu Hnd IH].
    + cbn [map concat]. induction (resources self) as [|r rs IHr]; [reflexivity|].
      rewrite filter_cons_False by apply not_elem_of_nil. exact IHr.
    + cbn [map concat]. rewrite IH. symmetry. apply filter_elem_of_cons_perm. exact Hu.
Qed.

Lemma get_resources_by_uids_find_all_resources_witness :
  get_resources_by_uids db_one_resource ["strava:5"; "polar:1"]
    ≡ₚ find_all_resources db_one_resource ["strava:5"; "polar:1"].
Proof.
  destruct (get_resources_by_uids_find_all_resources db_one_resource ["strava:5"; "polar:1"])
    as [_ H].
  apply H. apply NoDup_cons. split.
  - intros Hin. apply list_elem_of_singleton in Hin. discriminate Hin.
  - apply NoDup_singleton.
Defined.
(** ** The index *)

Lemma index_activity_lookup (a : Activity) (uid : string) (l : list string) :
  forall m : gmap string Activity,
  fold_left (fun m kv => <[fst kv := snd kv]> m) (map (fun u => (u, a)) l) m !! uid =
  if decide (uid ∈ l) then Some a else m !! uid.
Proof.
  induction l as [|u l IH]; intros m; cbn [map fold_left fst snd].
  - rewrite decide_False by apply not_elem_of_nil. reflexivity.
  - rewrite IH. destruct (decide (uid ∈ l)) as [Hin|Hnin].
    + rewrite decide_True by (apply list_elem_of_further; exact Hin). reflexivity.
    + destruct (decide (uid = u)) as [->|Hne].
      * rewrite decide_True by apply list_elem_of_here. apply lookup_insert_eq.
      * rewrite decide_False.
        -- apply lookup_insert_ne. congruence.
        -- intros Hc. apply elem_of_cons in Hc as [Hc|Hc]; contradiction.
Qed.

Lemma index_lookup (uid : string) (acts : list Activity) :
  forall m : gmap string Activity,
  fold_left (fun m kv => <[fst kv := snd kv]> m)
            (concat (map (fun a => map (fun u => (u, a)) (uids a)) acts)) m !! uid =
  match last (filter (fun a => uid ∈ uids a) acts) with
  | Some a => Some a
  | None => m !! uid
  end.
Proof.
  induction acts as [|a acts IH]; intros m; [reflexivity|].
  cbn [map concat]. rewrite fold_left_app, IH, index_activity_lookup.
  rewrite filter_cons. destruct (decide (uid ∈ uids a)) as [Hin|Hnin].
  - rewrite last_cons. destruct (last (filter _ acts)); reflexivity.
  - reflexivity.
Qed.

(** X16: the index [UID_TO_ACTIVITY] maps a uid to the last activity of the
    collection that has it, while [get_by_uid] returns the first one: the
    index has an entry exactly for the uids that [get_by_uid] finds, and
    the two agree when only one activity has the uid. *)
Theorem UID_TO_ACTIVITY_keeps_last_activity (self : ActivityDb) (uid : string) :
  UID_TO_ACTIVITY (activities self) !! uid
    = last (filter (fun a => uid ∈ uids a) (activities self)) /\
  (is_Some (UID_TO_ACTIVITY (activities self) !! uid) <-> is_Some (get_by_uid self uid)) /\
  (forall a, filter (fun a => uid ∈ uids a) (activities self) = [a] ->
     UID_TO_ACTIVITY (activities self) !! uid = get_by_uid self uid).
Proof.
  assert (Hidx : UID_TO_ACTIVITY (activities self) !! uid
                 = last (filter (fun a => uid ∈ uids a) (activities self))).
  { unfold UID_TO_ACTIVITY, dict_of. rewrite index_lookup, lookup_empty.
    destruct (last _); reflexivity. }
  assert (Hget : get_by_uid self uid
                 = head (filter (fun a => uid ∈ uids a) (activities self))).
  { unfold get_by_uid. symmetry. apply head_filter_list_find. }
  split; [exact Hidx|]. rewrite Hidx, Hget. split.
  - destruct (filter _ _) as [|x l]; [reflexivity|].
    split; intros _; [eexists; reflexivity|].
    rewrite last_cons. destruct (last l); eexists; reflexivity.
  - intros a Ha. rewrite Ha. reflexivity.
Qed.

Lemma UID_TO_ACTIVITY_keeps_last_activity_witness :
  UID_TO_ACTIVITY (activities db_mixed) !! "polar:1" = get_by_uid db_mixed "polar:1".
Proof.
  destruct (UID_TO_ACTIVITY_keeps_last_activity db_mixed "polar:1") as (_ & _ & H).
  apply (H a_polar). vm_compute. reflexivity.
Defined.

(** ** Opening the file systems *)

Lemma init_underlay_lookup (now : Z) (l : list (string * string)) :
  forall (disk : FS) (f : string),
  fold_left (fun fs kv => match fs !! fst kv with
                          | Some _ => fs
                          | None => writetext now fs (fst kv) (snd kv)
                          end) l disk !! f =
  match disk !! f with
  | Some x => Some x
  | None => mkFile now <$> (list_to_map l : gmap string string) !! f
  end.
Proof.
  induction l as [|[k v] l IH]; intros disk f; cbn [fold_left fst snd].
  - rewrite list_to_map_nil, lookup_empty. destruct (disk !! f); reflexivity.
  - rewrite IH, list_to_map_cons. cbn [fst snd]. destruct (disk !! k) eqn:Hk.
    + destruct (decide (f = k)) as [->|Hne].
      * rewrite Hk. reflexivity.
      * rewrite lookup_insert_ne by congruence. reflexivity.
    + unfold writetext. destruct (decide (f = k)) as [->|Hne].
      * rewrite lookup_insert_eq, Hk, lookup_insert_eq. reflexivity.
      * rewrite !lookup_insert_ne by congruence. reflexivity.
Qed.

Lemma copy_files_raise (src : FS) (l : list (string * string)) (e : exn) :
  fold_left (fun r kv => bind r (copy_file src (fst kv))) l (Raise e) = Raise e.
Proof. induction l as [|kv l IH]; [reflexivity | exact IH]. Qed.

(** Copying the files named by [l] one by one: all of them when the source
    holds them all, [ResourceNotFound] otherwise. *)
Lemma copy_files_lookup (src : FS) (l : list (string * string)) :
  (forall f, f ∈ map fst l -> is_Some (src !! f)) ->
  forall acc, exists dst,
    fold_left (fun r kv => bind r (copy_file src (fst kv))) l (Return acc) = Return dst /\
    forall f, dst !! f = if decide (f ∈ map fst l) then src !! f else acc !! f.
Proof.
  induction l as [|[k v] l IH]; intros Hsrc acc.
  - exists acc. split; [reflexivity|]. intros f.
    rewrite decide_False by apply not_elem_of_nil. reflexivity.
  - destruct (Hsrc k (list_elem_of_here _ _)) as [x Hx].
    cbn [fold_left bind fst]. unfold copy_file at 2. rewrite Hx.
    destruct (IH (fun f Hf => Hsrc f (list_elem_of_further _ _ _ Hf)) (<[k := x]> acc))
      as (dst & Hdst & Hl).
    exists dst. split; [exact Hdst|]. intros f. rewrite Hl. cbn [map fst].
    destruct (decide (f ∈ map fst l)) as [Hin|Hnin].
    + rewrite decide_True by (apply list_elem_of_further; exact Hin). reflexivity.
    + destruct (decide (f = k)) as [->|Hne].
      * rewrite decide_True by apply list_elem_of_here. rewrite lookup_insert_eq.
        symmetry. exact Hx.
      * rewrite decide_False.
        -- apply lookup_insert_ne. congruence.
        -- intros Hc. apply elem_of_cons in Hc as [Hc|Hc]; contradiction.
Qed.

Lemma copy_files_missing (src : FS) (l : list (string * string)) (f : string) :
  f ∈ map fst l -> src !! f = None ->
  forall acc,
    fold_left (fun r kv => bind r (copy_file src (fst kv))) l (Return acc)
      = Raise ResourceNotFound.
Proof.
  induction l as [|[k v] l IH]; intros Hin Hf acc; [inversion Hin|].
  cbn [fold_left bind fst]. unfold copy_file at 2.
  destruct (src !! k) as [x|] eqn:Hx.
  - apply IH; [|exact Hf]. cbn [map fst] in Hin.
    apply elem_of_cons in Hin as [->|Hin]; [congruence | exact Hin].
  - apply copy_files_raise.
Qed.

(** The two layers of a db opened for writing at a path where [mkdir]
    leaves the directory [disk]. *)
Lemma init_filesystem_layers (now : Z) (entry : path_entry) (disk : FS) :
  mkdir entry = Return disk ->
  exists underlay overlay,
    _init_filesystem now entry
      = Return (<[OVERLAY := overlay]> (<[UNDERLAY := underlay]> ∅)) /\
    (forall f, underlay !! f =
       match disk !! f with
       | Some x => Some x
       | None => mkFile now <$> (list_to_map DB_FILES : gmap string string) !! f
       end) /\
    (forall f, f ∈ map fst DB_FILES -> is_Some (underlay !! f)) /\
    (forall f, overlay !! f = if decide (f ∈ map fst DB_FILES) then underlay !! f else None).
Proof.
  intros Hdir. unfold _init_filesystem. rewrite Hdir. cbn [bind].
  set (underlay := fold_left _ DB_FILES disk).
  assert (Hu : forall f, underlay !! f =
       match disk !! f with
       | Some x => Some x
       | None => mkFile now <$> (list_to_map DB_FILES : gmap string string) !! f
       end) by (intros f; apply init_underlay_lookup).
  assert (Hall : forall f, f ∈ map fst DB_FILES -> is_Some (underlay !! f)).
  { intros f Hf. rewrite Hu. destruct (disk !! f); [eexists; reflexivity|].
    apply list_elem_of_In in Hf. simpl in Hf.
    destruct Hf as [<-|[<-|[<-|[<-|[<-|[]]]]]]; vm_compute; eexists; reflexivity. }
  destruct (copy_files_lookup underlay DB_FILES Hall ∅) as (overlay & Ho & Hl).
  exists underlay, overlay. rewrite Ho. cbn [bind].
  split; [reflexivity|]. split; [exact Hu|]. split; [exact Hall|].
  intros f. rewrite Hl, lookup_empty. reflexivity.
Qed.

(** X17: opening a db for writing at a path raises [FileExistsError] when
    the path is a regular file.  When the path is missing or is a
    directory, so that [mkdir] leaves a directory, opening returns: every
    file that the directory holds is kept as it is, a db file that it
    lacks is written with its default content, and the overlay holds the
    five db files, each the copy of the underlay's file with its
    modification time. *)
Theorem init_filesystem_keeps_files (now : Z) (p : string) :
  _init_db_filesystem now (Some p) false RegularFile = Raise FileExistsError /\
  forall entry disk, mkdir entry = Return disk ->
    exists underlay overlay,
      _init_db_filesystem now (Some p) false entry
        = Return (<[OVERLAY := overlay]> (<[UNDERLAY := underlay]> ∅)) /\
      (forall f x, disk !! f = Some x -> underlay !! f = Some x) /\
      (forall f c, (f, c) ∈ DB_FILES -> disk !! f = None ->
         underlay !! f = Some (mkFile now c)) /\
      (forall f, f ∉ map fst DB_FILES -> underlay !! f = disk !! f) /\
      (forall f, overlay !! f = if decide (f ∈ map fst DB_FILES) then underlay !! f else None).
Proof.
  split; [reflexivity|]. intros entry disk Hdir.
  destruct (init_filesystem_layers now entry disk Hdir)
    as (underlay & overlay & Hi & Hu & _ & Ho).
  exists underlay, overlay. split; [exact Hi|]. split; [|split; [|split; [|exact Ho]]].
  - intros f x Hx. rewrite Hu, Hx. reflexivity.
  - intros f c Hc Hn. rewrite Hu, Hn.
    rewrite (elem_of_list_to_map_1 DB_FILES f c DB_FILES_NoDup Hc). reflexivity.
  - intros f Hf. rewrite Hu. destruct (disk !! f); [reflexivity|].
    rewrite (not_elem_of_list_to_map_1 DB_FILES f Hf). reflexivity.
Qed.

Lemma init_filesystem_keeps_files_witness :
  exists underlay overlay,
    _init_db_filesystem 7 (Some "/var/tracs/db") false
        (Directory (<[ACTIVITIES_NAME := mkFile 3 "{1: polar}"]> ∅))
      = Return (<[OVERLAY := overlay]> (<[UNDERLAY := underlay]> ∅)) /\
    underlay !! ACTIVITIES_NAME = Some (mkFile 3 "{1: polar}") /\
    underlay !! RESOURCES_NAME = Some (mkFile 7 "{}") /\
    overlay !! ACTIVITIES_NAME = Some (mkFile 3 "{1: polar}").
Proof.
  destruct (init_filesystem_keeps_files 7 "/var/tracs/db") as [_ H].
  destruct (H (Directory (<[ACTIVITIES_NAME := mkFile 3 "{1: polar}"]> ∅))
              (<[ACTIVITIES_NAME := mkFile 3 "{1: polar}"]> ∅) eq_refl)
    as (underlay & overlay & Hi & Hkeep & Hnew & _ & Ho).
  exists underlay, overlay. split; [exact Hi|].
  assert (Ha : underlay !! ACTIVITIES_NAME = Some (mkFile 3 "{1: polar}")).
  { apply Hkeep. vm_compute. reflexivity. }
  split; [exact Ha|]. split.
  - apply Hnew; [|vm_compute; reflexivity].
    apply list_elem_of_In. simpl. auto.
  - rewrite Ho, decide_True; [exact Ha|]. apply list_elem_of_In. simpl. auto.
Defined.

(** ** Opening, committing and saving *)

(** X18: saving a db right after it was opened for writing at a path changes
    nothing and raises nothing: no file of the overlay is newer than its
    file in the underlay. *)
Theorem save_after_open_changes_nothing (now now' : Z) (p : string) (disk : path_entry)
    (m : MultiFS) (acts : store Activity) (res : store Resource.t) :
  _init_db_filesystem now (Some p) false disk = Return m ->
  save now' (mkActivityDb (Some p) false m acts res)
    = (mkActivityDb (Some p) false m acts res, None).
Proof.
  intros Hm. cbn [_init_db_filesystem] in Hm.
  assert (Hdir : exists content, mkdir disk = Return content).
  { destruct disk; [eexists; reflexivity | discriminate Hm | eexists; reflexivity]. }
  destruct Hdir as [content Hdir].
  destruct (init_filesystem_layers now disk content Hdir)
    as (underlay & overlay & Hi & _ & Hall & Ho).
  rewrite Hi in Hm. injection Hm as <-.
  unfold save, underlay_fs, overlay_fs. cbn [_read_only dbfs].
  rewrite lookup_insert_ne by discriminate. rewrite !lookup_insert_eq.
  assert (Hov : forall f, f ∈ map fst DB_FILES -> is_Some (overlay !! f)).
  { intros f Hf. rewrite Ho, decide_True by exact Hf. apply Hall. exact Hf. }
  destruct (save_files_lookup now' overlay (map fst DB_FILES) DB_FILES_NoDup Hov underlay)
    as (u' & Hu' & Hl).
  rewrite Hu'.
  assert (Heq : u' = underlay).
  { apply map_eq. intros f. rewrite Hl.
    destruct (decide (f ∈ map fst DB_FILES)) as [Hf|_]; [|reflexivity].
    unfold copy_is_necessary. rewrite Ho, decide_True by exact Hf.
    destruct (Hall f Hf) as [x ->]. rewrite Z.ltb_irrefl. reflexivity. }
  rewrite Heq. unfold set_dbfs. cbn [_db_path _read_only dbfs _activities _resources].
  rewrite insert_id; [reflexivity|].
  rewrite lookup_insert_ne by discriminate. apply lookup_insert_eq.
Qed.

Lemma save_after_open_changes_nothing_witness :
  exists m,
    _init_db_filesystem 7 (Some "/var/tracs/db") false NoEntry = Return m /\
    save 9 (mkActivityDb (Some "/var/tracs/db") false m [(1, a_polar)] [])
      = (mkActivityDb (Some "/var/tracs/db") false m [(1, a_polar)] [], None).
Proof.
  eexists. split; [reflexivity|].
  apply (save_after_open_changes_nothing 7 9 "/var/tracs/db" NoEntry). reflexivity.
Defined.

Section CommitAndSave.

Variable dumps_activities : store Activity -> string.
Variable dumps_resources : store Resource.t -> string.

(** X19: after a commit at time [t1], [save] writes the serialized activities
    and resources to the underlay when the underlay's file is older than
    [t1] (or missing), and leaves a file modified at [t1] or later as it is,
    so that the committed state is not written. *)
Theorem commit_then_save_persists_if_newer (t1 t2 : Z) (self : ActivityDb)
    (overlay underlay : FS) :
  _read_only self = false ->
  overlay_fs self = Some overlay -> underlay_fs self = Some underlay ->
  (forall f, f ∈ map fst DB_FILES -> is_Some (overlay !! f)) ->
  exists self' underlay',
    save t2 (commit dumps_activities dumps_resources t1 self true) = (self', None) /\
    underlay_fs self' = Some underlay' /\
    _activities self' = _activities self /\ _resources self' = _resources self /\
    underlay' !! ACTIVITIES_NAME =
      Some (match underlay !! ACTIVITIES_NAME with
            | Some d => if modified d <? t1
                        then mkFile t2 (dumps_activities (_activities self)) else d
            | None => mkFile t2 (dumps_activities (_activities self))
            end) /\
    underlay' !! RESOURCES_NAME =
      Some (match underlay !! RESOURCES_NAME with
            | Some d => if modified d <? t1
                        then mkFile t2 (dumps_resources (_resources self)) else d
            | None => mkFile t2 (dumps_resources (_resources self))
            end).
Proof.
  intros Hro Hov Hun Hfiles.
  destruct (commit_overlay dumps_activities dumps_resources t1 self overlay Hov) as (Hov' & Hun' & Hro' & Ha & Hr).
  set (self1 := commit dumps_activities dumps_resources t1 self true) in *.
  set (overlay1 := <[ACTIVITIES_NAME := _]> _) in Hov'.
  unfold save. rewrite Hro', Hro, Hun', Hun, Hov'.
  assert (Hfiles1 : forall f, f ∈ map fst DB_FILES -> is_Some (overlay1 !! f)).
  { intros f Hf. subst overlay1.
    destruct (decide (f = ACTIVITIES_NAME)) as [->|Hne1];
      [rewrite lookup_insert_eq; eexists; reflexivity|].
    rewrite lookup_insert_ne by congruence.
    destruct (decide (f = RESOURCES_NAME)) as [->|Hne2];
      [rewrite lookup_insert_eq; eexists; reflexivity|].
    rewrite lookup_insert_ne by congruence. apply Hfiles. exact Hf. }
  destruct (save_files_lookup t2 overlay1 (map fst DB_FILES) DB_FILES_NoDup Hfiles1 underlay)
    as (u' & Hu' & Hl).
  rewrite Hu'. eexists _, u'. split; [reflexivity|].
  split; [unfold underlay_fs, set_dbfs; cbn [dbfs]; apply lookup_insert_eq|].
  split; [exact Ha|]. split; [exact Hr|]. split.
  - rewrite Hl, decide_True by (apply list_elem_of_In; simpl; auto).
    unfold copy_is_necessary. subst overlay1. rewrite lookup_insert_eq.
    destruct (underlay !! ACTIVITIES_NAME) as [d|]; [|reflexivity].
    cbn [modified fmap option_fmap option_map text]. destruct (modified d <? t1); reflexivity.
  - rewrite Hl, decide_True by (apply list_elem_of_In; simpl; auto).
    unfold copy_is_necessary. subst overlay1.
    rewrite lookup_insert_ne by discriminate. rewrite lookup_insert_eq.
    destruct (underlay !! RESOURCES_NAME) as [d|]; [|reflexivity].
    cbn [modified fmap option_fmap option_map text]. destruct (modified d <? t1); reflexivity.
Qed.

(** X20: a read-only db never writes to its underlay: whatever is committed,
    [save] returns without an exception and the underlay is the one the db
    was opened with. *)
Theorem read_only_db_keeps_underlay (t1 t2 : Z) (self : ActivityDb) (do_commit : bool) :
  _read_only self = true ->
  exists self',
    save t2 (commit dumps_activities dumps_resources t1 self do_commit) = (self', None) /\
    underlay_fs self' = underlay_fs self /\
    _read_only self' = true /\
    _activities self' = _activities self /\ _resources self' = _resources self.
Proof.
  intros Hro.
  assert (H : _read_only (commit dumps_activities dumps_resources t1 self do_commit) = true /\
              underlay_fs (commit dumps_activities dumps_resources t1 self do_commit)
                = underlay_fs self /\
              _activities (commit dumps_activities dumps_resources t1 self do_commit)
                = _activities self /\
              _resources (commit dumps_activities dumps_resources t1 self do_commit)
                = _resources self).
  { unfold commit. destruct do_commit; [|auto].
    destruct (overlay_fs self) as [overlay|]; [|auto].
    unfold underlay_fs, set_dbfs. cbn [dbfs _read_only _activities _resources].
    rewrite lookup_insert_ne by discriminate. auto. }
  destruct H as (Hro' & Hun & Ha & Hr).
  eexists. unfold save. rewrite Hro'. split; [reflexivity|].
  split; [exact Hun|]. split; [exact Hro'|]. split; [exact Ha | exact Hr].
Qed.

(** X21: a db opened without a path cannot be saved.  Its overlay starts
    empty, so [save] raises [ResourceNotFound]: at the first db file when
    nothing was committed, and after a commit at the index file, once the
    activities file is copied; the resources file of the underlay is never
    written. *)
Theorem save_without_path_raises (t0 t1 t2 : Z) (acts : store Activity)
    (res : store Resource.t) (do_commit : bool) :
  exists self' underlay',
    save t2 (commit dumps_activities dumps_resources t1
               (mkActivityDb None false (_init_inmemory_filesystem t0) acts res) do_commit)
      = (self', Some ResourceNotFound) /\
    underlay_fs self' = Some underlay' /\
    underlay' !! RESOURCES_NAME = Some (mkFile t0 "{}") /\
    underlay' !! ACTIVITIES_NAME =
      Some (if do_commit && (t0 <? t1) then mkFile t2 (dumps_activities acts)
            else mkFile t0 "{}").
Proof.
  set (underlay0 := fold_left (fun fs kv => writetext t0 fs (fst kv) (snd kv)) DB_FILES ∅).
  assert (HuA : underlay0 !! ACTIVITIES_NAME = Some (mkFile t0 "{}"))
    by (vm_compute; reflexivity).
  assert (HuR : underlay0 !! RESOURCES_NAME = Some (mkFile t0 "{}"))
    by (vm_compute; reflexivity).
  change (_init_inmemory_filesystem t0)
    with (<[OVERLAY := (∅ : FS)]> (<[UNDERLAY := underlay0]> (∅ : MultiFS))).
  set (self0 := mkActivityDb None false _ acts res).
  assert (Hov0 : overlay_fs self0 = Some ∅) by apply lookup_insert_eq.
  assert (Hun0 : underlay_fs self0 = Some underlay0).
  { unfold underlay_fs, self0. cbn [dbfs].
    rewrite lookup_insert_ne by discriminate. apply lookup_insert_eq. }
  change (map fst DB_FILES)
    with (ACTIVITIES_NAME :: INDEX_NAME :: [METADATA_NAME; RESOURCES_NAME; SCHEMA_NAME])
    in *.
  destruct do_commit.
  - destruct (commit_overlay dumps_activities dumps_resources t1 self0 ∅ Hov0) as (Hov & Hun & Hro & _ & _).
    set (self1 := commit dumps_activities dumps_resources t1 self0 true) in *.
    unfold save. rewrite Hro, Hun, Hun0, Hov. cbn [_read_only self0].
    change (map fst DB_FILES)
      with (ACTIVITIES_NAME :: INDEX_NAME :: [METADATA_NAME; RESOURCES_NAME; SCHEMA_NAME]).
    rewrite save_files_cons. unfold copy_file_if_newer, copy_is_necessary.
    rewrite lookup_insert_eq, HuA. cbn [modified text _activities self0 andb].
    destruct (t0 <? t1).
    + rewrite save_files_missing
        by (rewrite !lookup_insert_ne by discriminate; apply lookup_empty).
      eexists _, _. split; [reflexivity|].
      split; [unfold underlay_fs, set_dbfs; cbn [dbfs]; apply lookup_insert_eq|].
      split; [rewrite lookup_insert_ne by discriminate; exact HuR | apply lookup_insert_eq].
    + rewrite save_files_missing
        by (rewrite !lookup_insert_ne by discriminate; apply lookup_empty).
      eexists _, _. split; [reflexivity|].
      split; [unfold underlay_fs, set_dbfs; cbn [dbfs]; apply lookup_insert_eq|].
      split; [exact HuR | exact HuA].
  - cbn [commit]. unfold save. rewrite Hun0, Hov0. cbn [_read_only self0].
    change (map fst DB_FILES)
      with (ACTIVITIES_NAME :: INDEX_NAME :: [METADATA_NAME; RESOURCES_NAME; SCHEMA_NAME]).
    rewrite save_files_missing by apply lookup_empty.
    eexists _, _. split; [reflexivity|].
    split; [unfold underlay_fs, set_dbfs; cbn [dbfs]; apply lookup_insert_eq|].
    split; [exact HuR | exact HuA].
Qed.

End CommitAndSave.

Lemma commit_then_save_persists_if_newer_witness :
  exists self' underlay',
    save 9 (commit (fun _ => "{1: polar}") (fun _ => "{}") 5 db_on_disk true)
      = (self', None) /\
    underlay_fs self' = Some underlay' /\
    underlay' !! ACTIVITIES_NAME = Some (mkFile 9 "{1: polar}") /\
    underlay' !! RESOURCES_NAME = Some (mkFile 9 "{}").
Proof.
  destruct (commit_then_save_persists_if_newer (fun _ => "{1: polar}") (fun _ => "{}")
              5 9 db_on_disk (writetext 5 (fs_at 1) ACTIVITIES_NAME "{1: polar}") (fs_at 1))
    as (self' & underlay' & Hs & Hu & _ & _ & Ha & Hr).
  - reflexivity.
  - reflexivity.
  - reflexivity.
  - intros f Hf. rewrite list_elem_of_In in Hf. simpl in Hf.
    destruct Hf as [<-|[<-|[<-|[<-|[<-|[]]]]]]; vm_compute; eexists; reflexivity.
  - exists self', underlay'. split; [exact Hs|]. split; [exact Hu|].
    split; [exact Ha | exact Hr].
Defined.

Lemma read_only_db_keeps_underlay_witness :
  exists self',
    save 9 (commit (fun _ => "{1: polar}") (fun _ => "{}") 5
              (mkActivityDb (Some "/var/tracs/db") true (dbfs db_on_disk) [(1, a_polar)] [])
              true) = (self', None) /\
    underlay_fs self' = Some (fs_at 1).
Proof.
  destruct (read_only_db_keeps_underlay (fun _ => "{1: polar}") (fun _ => "{}") 5 9
              (mkActivityDb (Some "/var/tracs/db") true (dbfs db_on_disk) [(1, a_polar)] [])
              true) as (self' & Hs & Hu & _).
  - reflexivity.
  - exists self'. split; [exact Hs | exact Hu].
Defined.


(** X22: opening a db read-only exits when the path does not exist and
    raises [ResourceNotFound] when the directory lacks one of the five db
    files; otherwise the underlay is an in-memory copy of exactly the five
    db files, with their modification times, and the overlay is empty. *)
Theorem init_readonly_filesystem_outcomes (now : Z) (p : string) :
  _init_db_filesystem now (Some p) true NoEntry = Raise SystemExit /\
  (forall osfs, (forall f, f ∈ map fst DB_FILES -> is_Some (osfs !! f)) ->
     exists underlay,
       _init_db_filesystem now (Some p) true (Directory osfs)
         = Return (<[OVERLAY := ∅]> (<[UNDERLAY := underlay]> ∅)) /\
       forall f, underlay !! f = if decide (f ∈ map fst DB_FILES) then osfs !! f else None) /\
  (forall osfs f, f ∈ map fst DB_FILES -> osfs !! f = None ->
     _init_db_filesystem now (Some p) true (Directory osfs) = Raise ResourceNotFound).
Proof.
  split; [reflexivity|]. split.
  - intros osfs Hall. cbn [_init_db_filesystem _init_readonly_filesystem OSFS bind].
    destruct (copy_files_lookup osfs DB_FILES Hall ∅) as (underlay & Hu & Hl).
    exists underlay. rewrite Hu. split; [reflexivity|].
    intros f. rewrite Hl, lookup_empty. reflexivity.
  - intros osfs f Hf Hn. cbn [_init_db_filesystem _init_readonly_filesystem OSFS bind].
    rewrite (copy_files_missing osfs DB_FILES f Hf Hn). reflexivity.
Qed.

Lemma init_readonly_filesystem_outcomes_witness :
  (exists underlay,
     _init_db_filesystem 7 (Some "/var/tracs/db") true
         (Directory (<["notes.txt" := mkFile 2 "hello"]> (fs_at 1)))
       = Return (<[OVERLAY := ∅]> (<[UNDERLAY := underlay]> ∅)) /\
     underlay !! SCHEMA_NAME = fs_at 1 !! SCHEMA_NAME /\
     underlay !! "notes.txt" = None) /\
  _init_db_filesystem 7 (Some "/var/tracs/db") true (Directory (delete INDEX_NAME (fs_at 1)))
    = Raise ResourceNotFound.
Proof.
  destruct (init_readonly_filesystem_outcomes 7 "/var/tracs/db") as (_ & Hok & Hmiss).
  split.
  - destruct (Hok (<["notes.txt" := mkFile 2 "hello"]> (fs_at 1))) as (underlay & Hu & Hl).
    + intros f Hf. rewrite list_elem_of_In in Hf. simpl in Hf.
      destruct Hf as [<-|[<-|[<-|[<-|[<-|[]]]]]]; vm_compute; eexists; reflexivity.
    + exists underlay. split; [exact Hu|]. rewrite !Hl. split; vm_compute; reflexivity.
  - apply (Hmiss _ INDEX_NAME).
    + apply list_elem_of_In. simpl. auto.
    + vm_compute. reflexivity.
Defined.

(** ** Backup and restore *)

Lemma is_digit_digit (n : nat) : is_digit (digit n) = true.
Proof.
  unfold is_digit, digit.
  assert (Hlt : (n mod 10 < 10)%nat) by (apply Nat.mod_upper_bound; discriminate).
  rewrite nat_ascii_embedding by lia.
  apply andb_true_intro. split; apply Z.leb_le; lia.
Qed.

Lemma glob_any_skip (c : ascii) (s : string) :
  glob_any_underscore_digit_any s = true ->
  glob_any_underscore_digit_any (String c s) = true.
Proof. intros H. cbn [glob_any_underscore_digit_any]. rewrite H. apply orb_true_r. Qed.

(** The name that [backup_db] gives a backup matches the pattern by which
    [restore_db] looks for backups. *)
Lemma glob_match_strftime (d : datetime) : glob_match (strftime_Ymd_HMS d) = true.
Proof.
  unfold strftime_Ymd_HMS, pad4, pad2. cbn [glob_match].
  rewrite is_digit_digit. cbn [andb].
  do 7 apply glob_any_skip. cbn [glob_any_underscore_digit_any glob_digit_any].
  rewrite is_digit_digit. reflexivity.
Qed.

Lemma copytree_lookup (source target : FS) (f : string) :
  copytree source target !! f =
  if decide (f ∈ map fst DB_FILES)
  then match source !! f with Some x => Some x | None => target !! f end
  else target !! f.
Proof.
  unfold copytree. generalize DB_FILES. intros l. revert target.
  induction l as [|[k v] l IH]; intros target; cbn [fold_left fst map].
  - rewrite decide_False by apply not_elem_of_nil. reflexivity.
  - rewrite IH. destruct (decide (f ∈ map fst l)) as [Hin|Hnin].
    + rewrite decide_True by (apply list_elem_of_further; exact Hin).
      destruct (source !! f) as [x|] eqn:Hx; [reflexivity|].
      destruct (source !! k) as [y|] eqn:Hy; [|reflexivity].
      apply lookup_insert_ne. congruence.
    + destruct (decide (f = k)) as [->|Hne].
      * rewrite decide_True by apply list_elem_of_here.
        destruct (source !! k) as [y|]; [apply lookup_insert_eq | reflexivity].
      * rewrite decide_False
          by (intros Hc; apply elem_of_cons in Hc as [Hc|Hc]; contradiction).
        destruct (source !! k) as [y|]; [|reflexivity].
        apply lookup_insert_ne. congruence.
Qed.

Section BackupRestore.

Variable confirm : string -> bool.

(** X23: a forced restore after a backup brings the backed up db files back.
    When [backup_db] succeeds and no older backup has a greater name,
    [restore_db] with [force] picks the new backup whatever has become of
    the db directory since, and returns with each db file that the backup
    holds as it was at the backup; every other file of the directory stays
    as it is. *)
Theorem backup_then_forced_restore (now : datetime) (ctx ctx1 : ApplicationContext)
    (changed : FS) :
  backup_db now ctx = BackedUp ctx1 ->
  (forall p, p ∈ backup_path ctx -> glob_match (fst p) = true ->
     str_le (fst p) (strftime_Ymd_HMS now)) ->
  exists ctx2,
    restore_db confirm {| db_path := changed; backup_path := backup_path ctx1;
                          force := true; console := console ctx1; log := log ctx1 |}
      = Return ctx2 /\
    backup_path ctx2 = backup_path ctx1 /\
    forall f, db_path ctx2 !! f =
      if decide (f ∈ map fst DB_FILES)
      then match db_path ctx !! f with Some x => Some x | None => changed !! f end
      else changed !! f.
Proof.
  intros Hb Hmax. unfold backup_db in Hb.
  set (target := strftime_Ymd_HMS now) in *.
  destruct (bool_decide (target ∈ map fst (backup_path ctx))) eqn:Hex; [discriminate Hb|].
  apply bool_decide_eq_false in Hex. injection Hb as <-. cbn [backup_path console log].
  set (new := (target, copytree (db_path ctx) ∅)).
  set (ctx' := {| db_path := changed; backup_path := backup_path ctx ++ [new] |}).
  destruct (restore_db_restores_last confirm ctx' eq_refl) as (source & ctx2 & Hr & Hdb & _ & Hin & Hm & Hgreatest).
  { exists new. split; [apply elem_of_app; right; apply list_elem_of_here|].
    apply glob_match_strftime. }
  assert (Hsrc : source = new).
  { cbn [backup_path ctx'] in Hin. apply elem_of_app in Hin as [Hin|Hin].
    - exfalso. apply Hex.
      assert (Heq : fst source = target).
      { apply str_le_antisym; [apply Hmax; assumption|].
        apply (Hgreatest new); [|apply glob_match_strftime].
        apply elem_of_app. right. apply list_elem_of_here. }
      rewrite <- Heq. apply list_elem_of_fmap. exists source. split; [reflexivity | exact Hin].
    - apply list_elem_of_singleton in Hin. exact Hin. }
  subst source. exists ctx2. split; [exact Hr|]. split.
  - revert Hr. unfold restore_db, restore_db_try.
    destruct (index_last _) as [s|e]; cbn [bind force ctx' orb].
    + intros [= <-]. reflexivity.
    + destruct e; intros [= <-]; reflexivity.
  - intros f. rewrite Hdb. cbn [snd new db_path ctx']. rewrite !copytree_lookup.
    destruct (decide (f ∈ map fst DB_FILES)); [|reflexivity].
    rewrite lookup_empty. destruct (db_path ctx !! f); reflexivity.
Qed.

End BackupRestore.

Lemma backup_then_forced_restore_witness :
  exists ctx1 ctx2,
    backup_db (mkDatetime 2024 5 17 9 30 0)
      (mkContext (fs_at 1) [("20240101_120000", fs_at 0)] false [] []) = BackedUp ctx1 /\
    restore_db (fun _ => false)
      {| db_path := writetext 8 (fs_at 1) ACTIVITIES_NAME "{broken";
         backup_path := backup_path ctx1; force := true;
         console := console ctx1; log := log ctx1 |} = Return ctx2 /\
    db_path ctx2 !! ACTIVITIES_NAME = Some (mkFile 1 "{}").
Proof.
  set (ctx := mkContext (fs_at 1) [("20240101_120000", fs_at 0)] false [] []).
  set (now := mkDatetime 2024 5 17 9 30 0).
  destruct (backup_db now ctx) as [ctx1|] eqn:Hb; [|vm_compute in Hb; discriminate Hb].
  destruct (backup_then_forced_restore (fun _ => false) now ctx ctx1
              (writetext 8 (fs_at 1) ACTIVITIES_NAME "{broken") Hb)
    as (ctx2 & Hr & _ & Hf).
  - intros p Hp _. apply list_elem_of_singleton in Hp. subst p. vm_compute. reflexivity.
  - exists ctx1, ctx2. split; [reflexivity|]. split; [exact Hr|].
    rewrite Hf. vm_compute. reflexivity.
Defined.
